(** * Session authentication core of vv-keep-notes

    Shallow embedding of the token issuance, refresh-token rotation, logout
    and introspection handlers (pages/api/auth/*, utils/auth.js) and of the
    client refresh coordinator (context/AuthContext.jsx).

    Conventions.
    - [Date.now()] is an integer number of milliseconds; every handler run
      reads the clock once and receives that reading as [now].
    - The Mongo collection of users is the list of its documents in natural
      order: [findOne] returns the first match, [save] rewrites the first
      document carrying the same [_id].
    - A response is the status, the [Set-Cookie] header and the JSON body. *)

From Stdlib Require Import ZArith Lia Ascii String.
From stdpp Require Import base list strings.

Local Open Scope Z_scope.

(** ** The jsonwebtoken library

    The literal value of a cookie or header field is a [token]: either text
    that does not decode as a JWT, or a JWT, given by its payload and the key
    it was signed with.  HS256 signing is deterministic, so two JWTs with the
    same payload and key are the same literal value. *)
Module Jwt.

Record claims := Claims {
  userId : string;
  email : option string;
  isAdmin : option bool
}.

Record payload := Payload {
  data : claims;
  iat : Z;   (* seconds *)
  exp : Z    (* seconds *)
}.

Inductive token :=
| Opaque (text : string)
| Signed (p : payload) (key : string).

#[global] Instance claims_eq_dec : EqDecision claims.
Proof. solve_decision. Defined.
#[global] Instance payload_eq_dec : EqDecision payload.
Proof. solve_decision. Defined.
#[global] Instance token_eq_dec : EqDecision token.
Proof. solve_decision. Defined.

(** [jwt.sign(c, secret, { expiresIn })] with [expiresIn] in seconds:
    [iat = floor(Date.now() / 1000)], [exp = iat + expiresIn]. *)
Definition sign (now : Z) (c : claims) (secret : string) (expiresIn : Z) : token :=
  let timestamp := now / 1000 in
  Signed (Payload c timestamp (timestamp + expiresIn)) secret.

(** [jwt.verify(t, secret)]: [None] stands for the exception it throws
    (malformed token, signature mismatch, or
    [floor(Date.now() / 1000) >= exp]). *)
Definition verify (now : Z) (t : token) (secret : string) : option payload :=
  match t with
  | Opaque _ => None
  | Signed p key =>
      if bool_decide (key = secret) then
        if now / 1000 >=? exp p then None else Some p
      else None
  end.

End Jwt.

Abbreviation token := Jwt.token.

(** JavaScript truthiness of a string value: only [''] is falsy. *)
Definition truthy (t : token) : bool :=
  match t with
  | Jwt.Opaque "" => false
  | _ => true
  end.

(** ** models/User.js *)

Record token_entry := TokenEntry {
  token_of : token;     (* token: { type: String, required: true } *)
  createdAt : Z         (* createdAt: { type: Date, default: Date.now } *)
}.

Record user := User {
  _id : string;
  name : string;
  email : string;
  passwordHash : string;
  isAdmin : bool;
  refreshTokens : list token_entry
}.

#[global] Instance token_entry_eq_dec : EqDecision token_entry.
Proof. solve_decision. Defined.
#[global] Instance user_eq_dec : EqDecision user.
Proof. solve_decision. Defined.

Definition set_refreshTokens (u : user) (l : list token_entry) : user :=
  User (_id u) (name u) (email u) (passwordHash u) (isAdmin u) l.

(** The [users] collection. *)
Definition DB := list user.

Definition findById (id : string) (db : DB) : option user :=
  List.find (fun u => bool_decide (_id u = id)) db.

(** What Mongoose casts to an ObjectId, of the strings: those of 24
    hexadecimal digits. *)
Definition hex_code (n : nat) : bool :=
  ((48 <=? n) && (n <=? 57) || (65 <=? n) && (n <=? 70) || (97 <=? n) && (n <=? 102))%nat.

Definition castsToObjectId (id : string) : bool :=
  (String.length id =? 24)%nat
  && forallb (fun c => hex_code (nat_of_ascii c)) (list_ascii_of_string id).

(** [await User.findById(id)].  Mongoose casts [id] to an ObjectId before it
    queries, and throws a CastError when it cannot.  An [_id] in the
    collection is an ObjectId, so an [id] that is the [_id] of a document
    casts; [findById] alone is this query under a [try] whose [catch] gives
    [null], as in [getUserFromReq]. *)
Inductive query :=
| CastError
| NoDocument
| Document (u : user).

Definition User_findById (id : string) (db : DB) : query :=
  match findById id db with
  | Some u => Document u
  | None => if castsToObjectId id then NoDocument else CastError
  end.

(** [User.findOne({ email })] *)
Definition findOne_email (e : string) (db : DB) : option user :=
  List.find (fun u => bool_decide (email u = e)) db.

Definition holds (t : token) (u : user) : bool :=
  existsb (fun e => bool_decide (token_of e = t)) (refreshTokens u).

(** [User.findOne({ 'refreshTokens.token': t })] *)
Definition findOne_token (t : token) (db : DB) : option user :=
  List.find (holds t) db.

(** [user.save()] of a document read from the collection: the stored
    document with that [_id] is replaced. *)
Fixpoint save (u : user) (db : DB) : DB :=
  match db with
  | [] => []
  | d :: rest =>
      if bool_decide (_id d = _id u) then u :: rest else d :: save u rest
  end.

(** The refresh-token ledger of an identity ([[]] when there is none). *)
Definition ledger (id : string) (db : DB) : list token_entry :=
  match findById id db with
  | Some u => refreshTokens u
  | None => []
  end.

Definition ledger_tokens (id : string) (db : DB) : list token :=
  map token_of (ledger id db).

(** ** HTTP messages *)

Record form := Form {
  f_name : option string;
  f_email : option string;
  f_password : option string
}.

Record request := Request {
  method : string;
  (* [req.headers.authorization.split(' ')]; [None] when the header is absent *)
  authorization : option (list token);
  (* [parse(req.headers.cookie || '').access_token] *)
  cookie_access_token : option token;
  (* [parse(req.headers.cookie || '').refresh_token] *)
  cookie_refresh_token : option token;
  (* [req.body] *)
  payload : form
}.

Inductive set_cookie :=
| Untouched
| AuthCookies (accessToken refreshToken : token)   (* setAuthCookies *)
| Cleared.                                         (* clearAuthCookies *)

Record summary := Summary {
  s_id : string;
  s_name : string;
  s_email : string;
  s_isAdmin : bool
}.

Definition summary_of (u : user) : summary :=
  Summary (_id u) (name u) (email u) (isAdmin u).

Inductive json :=
| NoBody                                   (* .end() *)
| Error (msg : string)                     (* { error } *)
| ValidationFailed (errors : list string)  (* { error: 'Validation failed', errors } *)
| OkTrue                                   (* { ok: true } *)
| OkToken (t : token)                      (* { ok: true, token } *)
| UserDoc (s : summary)                    (* { user } *)
| UserToken (s : summary) (t : token)      (* { user, token } *)
| OkUserToken (s : summary) (t : token)    (* { ok: true, user, token } *)
| Me (s : summary).                        (* { id, email, name, isAdmin } *)

Record response := Response {
  status : Z;
  cookies : set_cookie;
  body : json
}.

(** ** Array helpers *)

(** [arr.findIndex(p)]; [None] is [-1]. *)
Fixpoint findIndex {A} (p : A -> bool) (l : list A) : option nat :=
  match l with
  | [] => None
  | x :: rest => if p x then Some 0%nat else S <$> findIndex p rest
  end.

(** [arr.splice(i, 1)] *)
Definition splice1 {A} (i : nat) (l : list A) : list A := delete i l.

(** [arr.push(x)] *)
Definition push {A} (x : A) (l : list A) : list A := l ++ [x].

(** [arr.shift()] *)
Definition shift {A} (l : list A) : list A := tail l.

(** Result of [validateLogin] / [validateRegistration] (utils/validation.js):
    the sanitized fields, or the list of error messages. *)
Inductive validation (A : Type) :=
| Valid (sanitized : A)
| Invalid (errors : list string).
Arguments Valid {A} sanitized.
Arguments Invalid {A} errors.

(** ** The server: utils/auth.js and pages/api/auth/* *)

(** What the handlers take from their environment: the signing secret
    [process.env.JWT_SECRET || 'devsecret'], input validation
    (utils/validation.js) and password hashing (bcryptjs). *)
Class Env := {
  JWT_SECRET : string;
  validateLogin : form -> validation (string * string);
  validateRegistration : form -> validation (string * string * string);
  bcrypt_compare : string -> string -> bool;
  bcrypt_hash : string -> string
}.

Section Server.

Context {env : Env}.

(** ['15m'] and ['7d'] in seconds *)
Definition ACCESS_TOKEN_EXPIRY : Z := 15 * 60.
Definition REFRESH_TOKEN_EXPIRY : Z := 7 * 24 * 60 * 60.

Definition generateAccessToken (now : Z) (u : user) : token :=
  Jwt.sign now (Jwt.Claims (_id u) (Some (email u)) (Some (isAdmin u)))
    JWT_SECRET ACCESS_TOKEN_EXPIRY.

Definition generateRefreshToken (now : Z) (u : user) : token :=
  Jwt.sign now (Jwt.Claims (_id u) None None) JWT_SECRET REFRESH_TOKEN_EXPIRY.

Definition verifyAccessToken (now : Z) (t : token) : option Jwt.payload :=
  Jwt.verify now t JWT_SECRET.

Definition verifyRefreshToken (now : Z) (t : token) : option Jwt.payload :=
  Jwt.verify now t JWT_SECRET.

(** [getUserFromReq]: bearer header first, else the [access_token] cookie. *)
Definition bearer (req : request) : option token :=
  match authorization req with
  | Some [scheme; value] =>
      if bool_decide (scheme = Jwt.Opaque "Bearer") then Some value else None
  | _ => None
  end.

Definition getUserFromReq (now : Z) (req : request) (db : DB) : option user :=
  let tok :=
    match bearer req with
    | Some t => if truthy t then Some t else cookie_access_token req
    | None => cookie_access_token req
    end in
  match tok with
  | None => None
  | Some t =>
      if negb (truthy t) then None else
      match verifyAccessToken now t with
      | None => None
      | Some data => findById (Jwt.userId (Jwt.data data)) db
      end
  end.

(** pages/api/user/me.js *)
Definition handler_user_me (now : Z) (req : request) (db : DB) : response :=
  if negb (bool_decide (method req = "GET")) then Response 405 Untouched NoBody
  else match getUserFromReq now req db with
       | None => Response 401 Untouched (Error "unauth")
       | Some u => Response 200 Untouched (Me (summary_of u))
       end.

(** What the route answers when its handler throws. *)
Definition internal_error : response := Response 500 Untouched NoBody.

(** pages/api/auth/me.js *)
Definition handler_me (now : Z) (req : request) (db : DB) : response :=
  if negb (bool_decide (method req = "GET")) then Response 405 Untouched NoBody
  else match cookie_access_token req with
       | None => Response 401 Untouched (Error "Not authenticated")
       | Some accessToken =>
           if negb (truthy accessToken)
           then Response 401 Untouched (Error "Not authenticated")
           else match verifyAccessToken now accessToken with
                | None => Response 401 Untouched (Error "Invalid access token")
                | Some p =>
                    match User_findById (Jwt.userId (Jwt.data p)) db with
                    | CastError => internal_error
                    | NoDocument => Response 401 Untouched (Error "User not found")
                    | Document u => Response 200 Untouched (UserDoc (summary_of u))
                    end
                end
       end.

(** pages/api/auth/login.js *)
Definition handler_login (now : Z) (req : request) (db : DB) : response * DB :=
  if negb (bool_decide (method req = "POST"))
  then (Response 405 Untouched (Error "Method not allowed"), db)
  else match validateLogin (payload req) with
       | Invalid errors => (Response 400 Untouched (ValidationFailed errors), db)
       | Valid (email, password) =>
           match findOne_email email db with
           | None => (Response 401 Untouched (Error "Invalid email or password"), db)
           | Some u =>
               if negb (bcrypt_compare password (passwordHash u))
               then (Response 401 Untouched (Error "Invalid email or password"), db)
               else
                 let accessToken := generateAccessToken now u in
                 let refreshToken := generateRefreshToken now u in
                 let u' := set_refreshTokens u
                             (push (TokenEntry refreshToken now) (refreshTokens u)) in
                 (Response 200 (AuthCookies accessToken refreshToken)
                    (UserToken (summary_of u) accessToken),
                  save u' db)
           end
       end.

(** pages/api/auth/register.js; [oid] is the [_id] that [User.create] gives
    the new document. *)
Definition handler_register (now : Z) (oid : string) (req : request) (db : DB)
  : response * DB :=
  if negb (bool_decide (method req = "POST"))
  then (Response 405 Untouched (Error "Method not allowed"), db)
  else match validateRegistration (payload req) with
       | Invalid errors => (Response 400 Untouched (ValidationFailed errors), db)
       | Valid (name, email, password) =>
           match findOne_email email db with
           | Some _ =>
               (Response 400 Untouched (Error "User with this email already exists"), db)
           | None =>
               let u := User oid name email (bcrypt_hash password) false [] in
               let accessToken := generateAccessToken now u in
               let refreshToken := generateRefreshToken now u in
               let u' := set_refreshTokens u
                           (push (TokenEntry refreshToken now) (refreshTokens u)) in
               (Response 200 (AuthCookies accessToken refreshToken)
                  (OkUserToken (summary_of u) accessToken),
                save u' (db ++ [u]))
           end
       end.

(** pages/api/auth/logout.js *)
Definition handler_logout (req : request) (db : DB) : response * DB :=
  if negb (bool_decide (method req = "POST")) then (Response 405 Untouched NoBody, db)
  else
    let db' :=
      match cookie_refresh_token req with
      | None => db
      | Some refreshToken =>
          if truthy refreshToken then
            match findOne_token refreshToken db with
            | Some u =>
                save (set_refreshTokens u
                        (List.filter
                           (fun t => negb (bool_decide (token_of t = refreshToken)))
                           (refreshTokens u)))
                     db
            | None => db
            end
          else db
      end in
    (Response 200 Cleared OkTrue, db').

(** pages/api/auth/refresh.js.

    The handler suspends at [await User.findById] and at [await user.save()],
    so it is given in the two parts that run without interruption:
    [refresh_lookup] up to the document read, [refresh_rotate] from the
    ledger check to the response.

    [user.save()] after [refreshTokens] was assigned or spliced: Mongoose
    adds the version of the document as it was read to the filter of the
    update, and throws a VersionError when no document matches.  The
    documents carry no version here: the write goes through while the stored
    document is still the one that was read.  Nothing in the handler catches
    what [findById] or [save] throw, and the route answers 500. *)
Definition save_versioned (read u : user) (db : DB) : option DB :=
  if bool_decide (findById (_id u) db = Some read) then Some (save u db) else None.

Inductive lookup :=
| Respond (r : response)
| Found (refreshToken : token) (u : user).

Definition refresh_lookup (now : Z) (req : request) (db : DB) : lookup :=
  if negb (bool_decide (method req = "POST")) then Respond (Response 405 Untouched NoBody)
  else match cookie_refresh_token req with
       | None => Respond (Response 401 Untouched (Error "No refresh token"))
       | Some refreshToken =>
           if negb (truthy refreshToken)
           then Respond (Response 401 Untouched (Error "No refresh token"))
           else match verifyRefreshToken now refreshToken with
                | None => Respond (Response 401 Cleared (Error "Invalid refresh token"))
                | Some p =>
                    match User_findById (Jwt.userId (Jwt.data p)) db with
                    | CastError => Respond internal_error
                    | NoDocument => Respond (Response 401 Cleared (Error "User not found"))
                    | Document u => Found refreshToken u
                    end
                end
       end.

Definition refresh_rotate (now : Z) (refreshToken : token) (u : user) (db : DB)
  : response * DB :=
  match findIndex (fun t => bool_decide (token_of t = refreshToken)) (refreshTokens u) with
  | None =>
      match save_versioned u (set_refreshTokens u []) db with
      | Some db' => (Response 403 Cleared (Error "Refresh token reuse detected"), db')
      | None => (internal_error, db)
      end
  | Some tokenIndex =>
      let spliced := splice1 tokenIndex (refreshTokens u) in
      let newAccessToken := generateAccessToken now u in
      let newRefreshToken := generateRefreshToken now u in
      let pushed := push (TokenEntry newRefreshToken now) spliced in
      let capped := if (10 <? length pushed)%nat then shift pushed else pushed in
      match save_versioned u (set_refreshTokens u capped) db with
      | Some db' =>
          (Response 200 (AuthCookies newAccessToken newRefreshToken)
             (OkToken newAccessToken), db')
      | None => (internal_error, db)
      end
  end.

Definition handler_refresh (now : Z) (req : request) (db : DB) : response * DB :=
  match refresh_lookup now req db with
  | Respond r => (r, db)
  | Found refreshToken u => refresh_rotate now refreshToken u db
  end.

(** Two refresh requests whose reads both complete before either writes. *)
Definition refresh_race (now1 now2 : Z) (req1 req2 : request) (db : DB)
  : response * response * DB :=
  let read1 := refresh_lookup now1 req1 db in
  let read2 := refresh_lookup now2 req2 db in
  let '(r1, db1) :=
    match read1 with
    | Respond r => (r, db)
    | Found t u => refresh_rotate now1 t u db
    end in
  let '(r2, db2) :=
    match read2 with
    | Respond r => (r, db1)
    | Found t u => refresh_rotate now2 t u db1
    end in
  (r1, r2, db2).

(** ** Runs of the API *)

Inductive call :=
| Login (req : request)
| Register (oid : string) (req : request)
| Refresh (req : request)
| Logout (req : request)
| GetMe (req : request).

Definition serve (now : Z) (c : call) (db : DB) : response * DB :=
  match c with
  | Login req => handler_login now req db
  | Register oid req => handler_register now oid req db
  | Refresh req => handler_refresh now req db
  | Logout req => handler_logout req db
  | GetMe req => (handler_me now req db, db)
  end.

(** A run is a list of calls, each with the clock reading it was served at. *)
Fixpoint run (calls : list (Z * call)) (db : DB) : DB :=
  match calls with
  | [] => db
  | (now, c) :: rest => run rest (serve now c db).2
  end.

End Server.

(** ** The client refresh coordinator: context/AuthContext.jsx

    [isRefreshing] and [refreshSubscribers] are the two variables the axios
    response interceptor closes over; the interceptor is installed once, so
    every rejected call sees the same pair.  A subscriber
    [() => resolve(axios(originalRequest))] is given by the request
    configuration it replays.  The interceptor runs without interruption up
    to [await axios.post('/api/auth/refresh')] ([on_rejected]) and again from
    the settlement of that call ([on_refresh_settled]). *)
Module Client.

Record config := Config {
  url : string;
  _retry : bool
}.

Record coordinator := Coordinator {
  isRefreshing : bool;
  refreshSubscribers : list config
}.

Definition idle : coordinator := Coordinator false [].

Inductive effect :=
| PostRefresh                (* axios.post('/api/auth/refresh') *)
| Send (c : config)          (* axios(originalRequest) *)
| SaveToken (t : token)      (* saveToken(refreshRes.data.token) *)
| SetUserNull                (* setUser(null) *)
| PushLogin.                 (* Router.push('/login') *)

(** How one interceptor invocation leaves its caller. *)
Inductive suspension :=
| Awaiting (originalRequest : config)  (* suspended on the refresh call *)
| Queued                               (* promise held by a subscriber *)
| Rejected.                            (* Promise.reject(error) *)

(** [error.response] may be missing; [code] is [error.response.status]. *)
Definition on_rejected (code : option Z) (originalRequest : config) (s : coordinator)
  : coordinator * list effect * suspension :=
  match code with
  | Some 401 =>
      if negb (_retry originalRequest) then
        if isRefreshing s then
          (Coordinator (isRefreshing s) (push originalRequest (refreshSubscribers s)),
           [], Queued)
        else
          (Coordinator true (refreshSubscribers s),
           [PostRefresh],
           Awaiting (Config (url originalRequest) true))
      else (s, [], Rejected)
  | _ => (s, [], Rejected)
  end.

(** [refreshSubscribers.forEach((cb) => cb()); refreshSubscribers = []] *)
Definition onRefreshed (s : coordinator) : coordinator * list effect :=
  (Coordinator (isRefreshing s) [], map Send (refreshSubscribers s)).

(** The refresh call settled: [Some tok] when it resolved with
    [refreshRes.data.token = tok], [None] when it was rejected. *)
Definition on_refresh_settled (settled : option (option token))
    (originalRequest : config) (s : coordinator) : coordinator * list effect :=
  match settled with
  | Some tok =>
      let saved :=
        match tok with
        | Some t => if truthy t then [SaveToken t] else []
        | None => []
        end in
      let '(s', replayed) := onRefreshed (Coordinator false (refreshSubscribers s)) in
      (s', saved ++ replayed ++ [Send originalRequest])
  | None => (Coordinator false [], [SetUserNull; PushLogin])
  end.

(** A batch of rejected calls handled one after the other, none of them
    interleaved with the settlement of a refresh. *)
Fixpoint reject_all (calls : list (option Z * config)) (s : coordinator)
  : coordinator * list effect * list suspension :=
  match calls with
  | [] => (s, [], [])
  | (code, c) :: rest =>
      let '(s1, e1, k1) := on_rejected code c s in
      let '(s2, e2, k2) := reject_all rest s1 in
      (s2, e1 ++ e2, k1 :: k2)
  end.

Definition is_refresh (e : effect) : bool :=
  match e with PostRefresh => true | _ => false end.

Definition sent (es : list effect) : list config :=
  omap (fun e => match e with Send c => Some c | _ => None end) es.

End Client.

(** ** The interceptor under arbitrary arrivals

    Rejected calls and settlements of the refresh call reach the interceptor
    in any order.  Besides the two shared variables, the event loop holds the
    interceptor invocations suspended at [await axios.post(...)], each with
    the request it will replay; a settlement resumes the oldest of them. *)
Module Loop.

Record state := State {
  coordinator : Client.coordinator;
  awaiting : list Client.config
}.

Definition start : state := State Client.idle [].

Inductive event :=
| Rejection (code : option Z) (c : Client.config)
| Settlement (settled : option (option token)).

Definition step (e : event) (s : state) : state * list Client.effect :=
  match e with
  | Rejection code c =>
      let '(s', effects, k) := Client.on_rejected code c (coordinator s) in
      (State s'
         match k with
         | Client.Awaiting c' => awaiting s ++ [c']
         | _ => awaiting s
         end,
       effects)
  | Settlement settled =>
      match awaiting s with
      | [] => (s, [])
      | c :: rest =>
          let '(s', effects) := Client.on_refresh_settled settled c (coordinator s) in
          (State s' rest, effects)
      end
  end.

Fixpoint run (events : list event) (s : state) : state * list Client.effect :=
  match events with
  | [] => (s, [])
  | e :: rest =>
      let '(s1, e1) := step e s in
      let '(s2, e2) := run rest s1 in
      (s2, e1 ++ e2)
  end.

Definition settlements (events : list event) : nat :=
  length (List.filter (fun e => match e with Settlement _ => true | _ => false end) events).

(** The addresses of the calls rejected in [events]. *)
Definition rejected (events : list event) : list string :=
  omap (fun e => match e with Rejection _ c => Some (Client.url c) | _ => None end) events.

Definition is_rejection (e : event) : bool :=
  match e with Rejection _ _ => true | Settlement _ => false end.

(** One refresh call is outstanding exactly while [isRefreshing] is set, and
    subscribers are queued only then. *)
Definition consistent (s : state) : Prop :=
  (Client.isRefreshing (coordinator s) = true /\ exists c, awaiting s = [c]) \/
  (Client.isRefreshing (coordinator s) = false /\ awaiting s = [] /\
   Client.refreshSubscribers (coordinator s) = []).

End Loop.

(** ** Ledger bookkeeping used by the statements *)

Definition has_token (t : token) (e : token_entry) : bool :=
  bool_decide (token_of e = t).

Definition count_token (t : token) (l : list token_entry) : nat :=
  length (List.filter (has_token t) l).

(** Number of ledger entries, over all identities, whose value is [t]. *)
Definition occurrences (t : token) (db : DB) : nat :=
  count_token t (flat_map refreshTokens db).

(** The ledger entries whose value is not [t], in order. *)
Definition others (t : token) (l : list token_entry) : list token_entry :=
  List.filter (fun e => negb (has_token t e)) l.

(** Every ledger entry is a signed token naming the identity that holds it. *)
Definition owned_by (u : user) (e : token_entry) : Prop :=
  match token_of e with
  | Jwt.Signed p _ => Jwt.userId (Jwt.data p) = _id u
  | Jwt.Opaque _ => False
  end.

Definition ledgers_owned (db : DB) : Prop :=
  Forall (fun u => Forall (owned_by u) (refreshTokens u)) db.

(** No identity holds [t]. *)
Definition no_holder (t : token) (db : DB) : Prop :=
  Forall (fun v => holds t v = false) db.

(** Mongo keeps [_id] unique within a collection. *)
Definition unique_ids (db : DB) : Prop := NoDup (map _id db).

(** ** A concrete deployment, for the examples *)

Definition example_env : Env := {|
  JWT_SECRET := "devsecret";
  validateLogin := fun f =>
    match f_email f, f_password f with
    | Some e, Some p => Valid (e, p)
    | _, _ => Invalid ["Email is required"%string]
    end;
  validateRegistration := fun f =>
    match f_name f, f_email f, f_password f with
    | Some n, Some e, Some p => Valid (n, e, p)
    | _, _, _ => Invalid ["Name is required"%string]
    end;
  bcrypt_compare := fun password hash => bool_decide (("$2a$" +:+ password)%string = hash);
  bcrypt_hash := fun password => ("$2a$" +:+ password)%string
|}.

Definition alice : user :=
  User "65a0000000000000000000a1" "Alice" "alice@example.com" "$2a$correct horse" false [].

Definition bob : user :=
  User "65a0000000000000000000b2" "Bob" "bob@example.com" "$2a$battery staple" false [].

Definition no_form : form := Form None None None.

Definition login_alice : request :=
  Request "POST" None None None
    (Form None (Some "alice@example.com"%string) (Some "correct horse"%string)).

(** A request that carries [t] in the [refresh_token] cookie only. *)
Definition with_refresh_cookie (t : token) : request :=
  Request "POST" None None (Some t) no_form.

(** A refresh token of [alice] issued at clock reading 1000 ms. *)
Definition alice_refresh : token :=
  generateRefreshToken (env := example_env) 1000 alice.

Definition alice_access : token :=
  generateAccessToken (env := example_env) 1000 alice.

Definition alice_logged_in : user :=
  set_refreshTokens alice [TokenEntry alice_refresh 1000].

Definition example_db : DB := [alice_logged_in; bob].

(** [n] logins of [alice], one per second, starting from [db]. *)
Fixpoint logins (n : nat) (now : Z) (db : DB) : DB :=
  match n with
  | O => db
  | S k => logins k (now + 1000) (handler_login (env := example_env) now login_alice db).2
  end.

(** The token pair set by a response. *)
Definition refresh_cookie_of (r : response) : option token :=
  match cookies r with
  | AuthCookies _ refreshToken => Some refreshToken
  | _ => None
  end.

(** The claims carried by [alice_refresh]: issued in second 1, valid for 7 days. *)
Definition alice_refresh_payload : Jwt.payload :=
  Jwt.Payload (Jwt.Claims (_id alice) None None) 1 604801.

(** Calls of other sessions served between two redemptions. *)
Definition example_calls : list (Z * call) :=
  [ (6000, Login login_alice);
    (7000, Refresh (with_refresh_cookie (Jwt.Opaque "garbage")));
    (8000, Logout (with_refresh_cookie alice_refresh)) ].

(** A request that carries [t] in the [Authorization: Bearer] header only. *)
Definition with_bearer (t : token) : request :=
  Request "GET" (Some [Jwt.Opaque "Bearer"; t]) None None no_form.

Definition example_configs : list Client.config :=
  [Client.Config "/api/notes" false; Client.Config "/api/user/me" false].

(** ** Regular expressions

    [RegExp.prototype.test] for the patterns of utils/validation.js, all of
    the form [/^r$/] with [r] built from character classes, concatenation,
    [+] and [{n}]: a string is accepted when the whole of it matches [r].
    Matching is by derivatives. *)
Module Regex.

Inductive re :=
| Void
| Eps
| Class (p : ascii -> bool)
| Cat (r1 r2 : re)
| Alt (r1 r2 : re)
| Star (r : re).

(** [r+] *)
Definition Plus (r : re) : re := Cat r (Star r).

(** [r{n}] *)
Fixpoint Repeat (n : nat) (r : re) : re :=
  match n with
  | O => Eps
  | S k => Cat r (Repeat k r)
  end.

Fixpoint nullable (r : re) : bool :=
  match r with
  | Void => false
  | Eps => true
  | Class _ => false
  | Cat r1 r2 => nullable r1 && nullable r2
  | Alt r1 r2 => nullable r1 || nullable r2
  | Star _ => true
  end.

Fixpoint deriv (c : ascii) (r : re) : re :=
  match r with
  | Void => Void
  | Eps => Void
  | Class p => if p c then Eps else Void
  | Cat r1 r2 =>
      if nullable r1 then Alt (Cat (deriv c r1) r2) (deriv c r2)
      else Cat (deriv c r1) r2
  | Alt r1 r2 => Alt (deriv c r1) (deriv c r2)
  | Star r1 => Cat (deriv c r1) (Star r1)
  end.

Fixpoint matches (r : re) (s : list ascii) : bool :=
  match s with
  | [] => nullable r
  | c :: rest => matches (deriv c r) rest
  end.

(** [/^r$/.test(s)] *)
Definition test (r : re) (s : string) : bool :=
  matches r (list_ascii_of_string s).

(** The strings a pattern denotes. *)
Inductive Matches : re -> list ascii -> Prop :=
| MEps : Matches Eps []
| MClass p c : p c = true -> Matches (Class p) [c]
| MCat r1 r2 s1 s2 : Matches r1 s1 -> Matches r2 s2 -> Matches (Cat r1 r2) (s1 ++ s2)
| MAltL r1 r2 s : Matches r1 s -> Matches (Alt r1 r2) s
| MAltR r1 r2 s : Matches r2 s -> Matches (Alt r1 r2) s
| MStarNil r : Matches (Star r) []
| MStarCons r s1 s2 : Matches r s1 -> Matches (Star r) s2 -> Matches (Star r) (s1 ++ s2).

End Regex.

(** ** Strings

    A JavaScript string is a sequence of UTF-16 code units.  The embedding
    covers the strings whose code units are below 256, one [ascii] each; on
    these, white space (for [trim] and for [\s]) is U+0009 to U+000D, U+0020
    and U+00A0, and [toLowerCase] maps A-Z and the Latin-1 capitals U+00C0 to
    U+00DE, U+00D7 excepted, to the code unit 32 above. *)
Module Js.

Definition code (c : ascii) : nat := nat_of_ascii c.

Definition between (lo hi : nat) (c : ascii) : bool :=
  (lo <=? code c)%nat && (code c <=? hi)%nat.

Definition is_space (c : ascii) : bool :=
  between 9 13 c || (code c =? 32)%nat || (code c =? 160)%nat.

Definition lower (c : ascii) : ascii :=
  if between 65 90 c || (between 192 222 c && negb (code c =? 215)%nat)
  then ascii_of_nat (code c + 32)
  else c.

Fixpoint trimStart_list (l : list ascii) : list ascii :=
  match l with
  | [] => []
  | c :: rest => if is_space c then trimStart_list rest else l
  end.

Definition trim_list (l : list ascii) : list ascii :=
  rev (trimStart_list (rev (trimStart_list l))).

(** [s.trim()] *)
Definition trim (s : string) : string :=
  string_of_list_ascii (trim_list (list_ascii_of_string s)).

(** [s.toLowerCase()] *)
Definition toLowerCase (s : string) : string :=
  string_of_list_ascii (map lower (list_ascii_of_string s)).

Fixpoint startsWith_list (w l : list ascii) : bool :=
  match w, l with
  | [], _ => true
  | _ :: _, [] => false
  | a :: w', b :: l' => Ascii.eqb a b && startsWith_list w' l'
  end.

Fixpoint includes_list (l w : list ascii) : bool :=
  startsWith_list w l ||
  match l with
  | [] => false
  | _ :: rest => includes_list rest w
  end.

(** [s.includes(w)] *)
Definition includes (s w : string) : bool :=
  includes_list (list_ascii_of_string s) (list_ascii_of_string w).

(** [s.replace(/[<>]/g, '')] *)
Definition strip_angles (s : string) : string :=
  string_of_list_ascii
    (List.filter (fun c => negb (Ascii.eqb c "<" || Ascii.eqb c ">"))
       (list_ascii_of_string s)).

(** Truthiness of a possibly missing string: [undefined] and [''] are falsy. *)
Definition present (v : option string) : bool :=
  match v with
  | Some s => negb (String.eqb s "")
  | None => false
  end.

End Js.

(** ** utils/validation.js

    A field of the request body is [Some s] when it is the string [s] and
    [None] when it is missing or not a string: every check below treats the
    two alike. *)
Module Validation.

Definition not_space_or_at (c : ascii) : bool :=
  negb (Js.is_space c || Ascii.eqb c "@").

(** [/^[^\s@]+@[^\s@]+\.[^\s@]+$/] *)
Definition emailRegex : Regex.re :=
  Regex.Cat (Regex.Plus (Regex.Class not_space_or_at))
    (Regex.Cat (Regex.Class (Ascii.eqb "@"))
       (Regex.Cat (Regex.Plus (Regex.Class not_space_or_at))
          (Regex.Cat (Regex.Class (Ascii.eqb "."))
             (Regex.Plus (Regex.Class not_space_or_at))))).

Definition name_char (c : ascii) : bool :=
  Js.between 97 122 c || Js.between 65 90 c || Js.is_space c
  || Ascii.eqb c "'" || Ascii.eqb c "-".

(** [/^[a-zA-Z\s'-]+$/] *)
Definition nameRegex : Regex.re := Regex.Plus (Regex.Class name_char).

Definition hex_digit (c : ascii) : bool :=
  Js.between 48 57 c || Js.between 97 102 c || Js.between 65 70 c.

(** [/^[0-9a-fA-F]{24}$/] *)
Definition objectIdRegex : Regex.re := Regex.Repeat 24 (Regex.Class hex_digit).

Definition isValidEmail (email : option string) : bool :=
  match email with
  | Some s => if String.eqb s "" then false else Regex.test emailRegex (Js.trim s)
  | None => false
  end.

Definition weakPasswords : list string := ["password"; "123456"; "qwerty"; "abc123"].

(** The list of error messages; the password is valid when it is empty. *)
Definition validatePassword (password : option string) : list string :=
  if negb (Js.present password) then ["Password is required"]
  else
    let trimmed := Js.trim (default "" password) in
    (if (String.length trimmed <? 6)%nat
     then ["Password must be at least 6 characters long"] else [])
    ++ (if (128 <? String.length trimmed)%nat
        then ["Password must be less than 128 characters"] else [])
    ++ (if existsb (fun weak => Js.includes (Js.toLowerCase trimmed) weak) weakPasswords
        then ["Password is too common. Please choose a stronger password"] else []).

Definition validateName (name : option string) : list string :=
  if negb (Js.present name) then ["Name is required"]
  else
    let trimmed := Js.trim (default "" name) in
    (if (String.length trimmed <? 2)%nat
     then ["Name must be at least 2 characters long"] else [])
    ++ (if (100 <? String.length trimmed)%nat
        then ["Name must be less than 100 characters"] else [])
    ++ (if negb (Regex.test nameRegex trimmed)
        then ["Name can only contain letters, spaces, hyphens, and apostrophes"] else []).

Definition sanitizeString (str : option string) : string :=
  match str with
  | Some s => Js.trim (Js.strip_angles s)
  | None => ""
  end.

Definition sanitizeEmail (email : option string) : string :=
  match email with
  | Some s => Js.toLowerCase (Js.trim s)
  | None => ""
  end.

Definition isEmpty {A} (l : list A) : bool :=
  match l with [] => true | _ => false end.

Definition validateRegistration (data : form) : validation (string * string * string) :=
  let nameErrors := validateName (f_name data) in
  let emailErrors :=
    if negb (Js.present (f_email data)) || negb (isValidEmail (f_email data))
    then ["Valid email is required"] else [] in
  let passwordErrors := validatePassword (f_password data) in
  let errors := nameErrors ++ emailErrors ++ passwordErrors in
  if isEmpty errors
  then Valid (sanitizeString (f_name data), sanitizeEmail (f_email data),
              default "" (f_password data))
  else Invalid errors.

Definition validateLogin (data : form) : validation (string * string) :=
  let emailErrors :=
    if negb (Js.present (f_email data)) || negb (isValidEmail (f_email data))
    then ["Valid email is required"] else [] in
  let passwordErrors :=
    if negb (Js.present (f_password data))
       || (String.length (Js.trim (default "" (f_password data))) =? 0)%nat
    then ["Password is required"] else [] in
  let errors := emailErrors ++ passwordErrors in
  if isEmpty errors
  then Valid (sanitizeEmail (f_email data), default "" (f_password data))
  else Invalid errors.

Definition isValidObjectId (id : option string) : bool :=
  Js.present id && Regex.test objectIdRegex (default "" id).

End Validation.

(** The handlers with the validation of utils/validation.js; the signing
    secret and bcrypt remain parameters. *)
Definition app_env (secret : string) (compare : string -> string -> bool)
    (hash : string -> string) : Env := {|
  JWT_SECRET := secret;
  validateLogin := Validation.validateLogin;
  validateRegistration := Validation.validateRegistration;
  bcrypt_compare := compare;
  bcrypt_hash := hash
|}.

(** models/User.js: the schema validators [User.create] runs on [name] and
    [email], after the schema's own [trim] and [lowercase] setters. *)
Definition schema_accepts_name (name : string) : bool :=
  let v := Js.trim name in
  (2 <=? String.length v)%nat && (String.length v <=? 100)%nat
  && Regex.test Validation.nameRegex v.

Definition schema_accepts_email (email : string) : bool :=
  let v := Js.trim (Js.toLowerCase email) in
  negb (String.eqb v "") && Regex.test Validation.emailRegex v.

(** ** Password reset

    models/User.js ([generatePasswordResetToken]),
    pages/api/auth/forgot-password.js and pages/api/auth/reset-password.js.
    An account is a user document together with the two reset fields the
    session handlers never touch. *)
Module Reset.

Record account := Account {
  doc : user;
  resetPasswordToken : option string;   (* hex SHA-256 of the mailed token *)
  resetPasswordExpires : option Z
}.

Definition store := list account.

(** [crypto.createHash('sha256').update(t).digest('hex')], and whether
    [SMTP_HOST], [SMTP_USER] and [SMTP_PASS] are all set. *)
Class Mail := {
  sha256 : string -> string;
  smtp_configured : bool
}.

Inductive outcome :=
| Success (message : string)                                  (* 200 { success: true, message } *)
| Failure (status : Z) (error : string) (errors : list string).

Definition enumeration_safe_message : string :=
  "If that email exists, a password reset link has been sent.".

Definition findOne_email (e : string) (s : store) : option account :=
  List.find (fun a => bool_decide (email (doc a) = e)) s.

(** [User.findOne({ resetPasswordToken: h, resetPasswordExpires: { $gt: now } })] *)
Definition redeemable (h : string) (now : Z) (a : account) : bool :=
  bool_decide (resetPasswordToken a = Some h)
  && match resetPasswordExpires a with
     | Some e => now <? e
     | None => false
     end.

Definition findOne_reset (h : string) (now : Z) (s : store) : option account :=
  List.find (redeemable h now) s.

Fixpoint save (a : account) (s : store) : store :=
  match s with
  | [] => []
  | b :: rest =>
      if bool_decide (_id (doc b) = _id (doc a)) then a :: rest else b :: save a rest
  end.

Section Handlers.

Context {env : Env} {mail : Mail}.

(** [user.generatePasswordResetToken()] with [resetToken] the 32 random
    bytes in hex: the account as it is left, one hour of validity. *)
Definition generatePasswordResetToken (now : Z) (resetToken : string) (a : account)
  : account :=
  Account (doc a) (Some (sha256 resetToken)) (Some (now + 3600000)).

(** forgot-password.js.  [delivers] tells whether [transporter.sendMail]
    succeeds, [address] is [req.body.email]; the third component is the mail
    that went out, as recipient and token of the link. *)
Definition forgot_password (now : Z) (resetToken : string) (delivers : bool)
    (method : string) (address : option string) (s : store)
  : outcome * store * option (string * string) :=
  if negb (bool_decide (method = "POST"))
  then (Failure 405 "Method not allowed" [], s, None)
  else if negb (Js.present address)
  then (Failure 400 "Valid email is required" [], s, None)
  else if negb (Validation.isValidEmail address)
  then (Failure 400 "Invalid email format" [], s, None)
  else
    match findOne_email (Validation.sanitizeEmail address) s with
    | None => (Success enumeration_safe_message, s, None)
    | Some a =>
        let a1 := generatePasswordResetToken now resetToken a in
        let s1 := save a1 s in
        if negb smtp_configured
        then (Failure 500 "Email service not configured" [], s1, None)
        else if delivers
        then (Success enumeration_safe_message, s1,
              Some (email (doc a1), resetToken))
        else
          (Failure 500 "Failed to send email" [],
           save (Account (doc a1) None None) s1, None)
    end.

(** reset-password.js *)
Definition reset_password (now : Z) (method : string) (token password : option string)
    (s : store) : outcome * store :=
  if negb (bool_decide (method = "POST"))
  then (Failure 405 "Method not allowed" [], s)
  else if negb (Js.present token)
          || String.eqb (Js.trim (default "" token)) ""
  then (Failure 400 "Reset token is required" [], s)
  else if negb (Js.present password)
  then (Failure 400 "Password is required" [], s)
  else
    match Validation.validatePassword password with
    | _ :: _ as errors => (Failure 400 "Password validation failed" errors, s)
    | [] =>
        let hashedToken := sha256 (default "" token) in
        match findOne_reset hashedToken now s with
        | None => (Failure 400 "Invalid or expired token" [], s)
        | Some a =>
            let u := doc a in
            let u' := User (_id u) (name u) (email u)
                        (bcrypt_hash (default "" password)) (isAdmin u)
                        (refreshTokens u) in
            (Success
               "Password has been reset successfully. You can now login with your new password.",
             save (Account u' None None) s)
        end
    end.

End Handlers.

Definition ids (s : store) : list string := map (fun a => _id (doc a)) s.

(** The user collection the session handlers see. *)
Definition users (s : store) : DB := map doc s.

End Reset.

(** ** Further routes and store predicates *)

Section MoreServer.

Context {env : Env}.

(** pages/api/admin/users.js: the answers are 403 [{ error: 'not admin' }],
    200 with [User.find().lean()] (whole documents), and 405. *)
Inductive admin_answer :=
| NotAdmin
| AllUsers (users : DB)
| AdminMethodNotAllowed.

Definition handler_admin_users (now : Z) (req : request) (db : DB) : admin_answer :=
  match getUserFromReq now req db with
  | None => NotAdmin
  | Some u =>
      if negb (isAdmin u) then NotAdmin
      else if bool_decide (method req = "GET") then AllUsers db
      else AdminMethodNotAllowed
  end.

(** Every registration in the run is given an [_id] no stored document has. *)
Fixpoint fresh_ids (calls : list (Z * call)) (db : DB) : Prop :=
  match calls with
  | [] => True
  | (now, c) :: rest =>
      (forall oid req, c = Register oid req -> oid ∉ map _id db) /\
      fresh_ids rest (serve now c db).2
  end.

End MoreServer.

(** The token carries an [email] claim, as access tokens do. *)
Definition carries_email (t : token) : bool :=
  match t with
  | Jwt.Signed p _ => bool_decide (Jwt.email (Jwt.data p) <> None)
  | Jwt.Opaque _ => false
  end.

(** No ledger entry of the store carries an [email] claim. *)
Definition ledgers_refresh_only (db : DB) : Prop :=
  Forall (fun u => Forall (fun e => carries_email (token_of e) = false) (refreshTokens u)) db.

(** A request that carries [t] in the [access_token] cookie only. *)
Definition with_access_cookie (t : token) : request :=
  Request "GET" None (Some t) None no_form.

(** ** The request interceptor of context/AuthContext.jsx

    A request configuration carries its [Authorization] header, as the parts
    that [split(' ')] gives, or [None] when it has none.  axios hands the
    configuration it sent back as [error.config], so what the response
    interceptor replays with [axios(originalRequest)] passes through the
    request interceptor again with the header it was first given. *)
Module Axios.

Record config := Config {
  originalRequest : Client.config;
  Authorization : option (list token)
}.

(** [!config.headers.Authorization] *)
Definition no_header (h : option (list token)) : bool :=
  match h with
  | None => true
  | Some [Jwt.Opaque ""] => true
  | Some _ => false
  end.

(** [s.split(' ')] *)
Fixpoint split_space (s : string) : list string :=
  match s with
  | EmptyString => [""]
  | String c rest =>
      if Ascii.eqb c " " then "" :: split_space rest
      else match split_space rest with
           | piece :: pieces => String c piece :: pieces
           | [] => [String c ""]
           end
  end.

(** The parts of [`Bearer ${t}`] after the scheme: a JWT has no space in it. *)
Definition header_parts (t : token) : list token :=
  match t with
  | Jwt.Opaque text => map Jwt.Opaque (split_space text)
  | Jwt.Signed _ _ => [t]
  end.

(** [currentToken] is [localStorage.getItem('access_token')]. *)
Definition requestInterceptor (currentToken : option token) (c : config) : config :=
  match currentToken with
  | Some t =>
      if truthy t && no_header (Authorization c)
      then Config (originalRequest c) (Some (Jwt.Opaque "Bearer" :: header_parts t))
      else c
  | None => c
  end.

End Axios.

(** A protected call as the pages make it, with the access token they hold
    in its own header ([headers: { Authorization: "Bearer " + token }]), and
    the status [/api/user/me] answers it with, sent through the request
    interceptor from a browser whose [localStorage] holds [stored] and whose
    [access_token] cookie is [cookie]. *)
Definition protected_call (held : token) (c : Client.config) : Axios.config :=
  Axios.Config c (Some (Jwt.Opaque "Bearer" :: Axios.header_parts held)).

Definition answer_status {env : Env} (now : Z) (stored cookie : option token)
    (c : Axios.config) (db : DB) : Z :=
  let sent := Axios.requestInterceptor stored c in
  status (handler_user_me now (Request "GET" (Axios.Authorization sent) cookie None no_form)
            db).

(** ** pages/api/notes/[id]/track-email-open.js

    Of a note, the handler reads [collaborators] and reads and writes
    [emailOpenedBy]; the other fields of models/Note.js are carried along. *)
Module Notes.

Record note := Note {
  _id : string;
  owner : string;
  title : string;
  content : string;
  collaborators : list string;
  emailOpenedBy : list string
}.

(** Mongoose casts both identifiers to an ObjectId: two renderings of 24
    hexadecimal digits name the same one when they agree up to letter case. *)
Definition same_object_id (a b : string) : bool :=
  String.eqb (Js.toLowerCase a) (Js.toLowerCase b).

Definition findById (id : string) (notes : list note) : option note :=
  List.find (fun n => same_object_id (_id n) id) notes.

(** [note.save()] of a document read from the collection, taken to succeed. *)
Fixpoint save (n : note) (notes : list note) : list note :=
  match notes with
  | [] => []
  | m :: rest => if same_object_id (_id m) (_id n) then n :: rest else m :: save n rest
  end.

Inductive answer :=
| Refused (status : Z) (error : string)
| Tracked (emailOpenedBy : list string).     (* { ok: true, emailOpenedBy } *)

(** [c => c && sanitizeEmail(c) === sanitizedEmail] *)
Definition same_address (sanitizedEmail : string) (c : string) : bool :=
  negb (String.eqb c "")
  && String.eqb (Validation.sanitizeEmail (Some c)) sanitizedEmail.

Section Handler.

Context {env : Env}.

(** [id] is [req.query.id] and [address] is [req.body.email]. *)
Definition track_email_open (now : Z) (req : request) (id address : option string)
    (db : DB) (notes : list note) : answer * list note :=
  if negb (bool_decide (method req = "POST"))
  then (Refused 405 "Method not allowed", notes)
  else
    match getUserFromReq now req db with
    | None => (Refused 401 "Unauthorized", notes)
    | Some _ =>
        if negb (Js.present id) || negb (Validation.isValidObjectId id)
        then (Refused 400 "Invalid note ID", notes)
        else if negb (Js.present address)
        then (Refused 400 "Email is required", notes)
        else if negb (Validation.isValidEmail address)
        then (Refused 400 "Invalid email format", notes)
        else
          let sanitizedEmail := Validation.sanitizeEmail address in
          match findById (default "" id) notes with
          | None => (Refused 404 "Note not found", notes)
          | Some n =>
              if negb (existsb (same_address sanitizedEmail) (collaborators n))
              then (Refused 403 "Email is not a collaborator on this note", notes)
              else if existsb (same_address sanitizedEmail) (emailOpenedBy n)
              then (Tracked (emailOpenedBy n), notes)
              else
                let originalEmail :=
                  default sanitizedEmail
                    (List.find (same_address sanitizedEmail) (collaborators n)) in
                let n' := Note (_id n) (owner n) (title n) (content n) (collaborators n)
                            (push originalEmail (emailOpenedBy n)) in
                (Tracked (emailOpenedBy n'), save n' notes)
          end
    end.

End Handler.

(** No two recorded addresses are the same once sanitized, and each of them
    is one of the note's collaborators. *)
Definition distinct_addresses (l : list string) : Prop :=
  NoDup (map (fun e => Validation.sanitizeEmail (Some e)) l).

Definition opened_by_collaborators (n : note) : Prop :=
  Forall (fun e => e ∈ collaborators n) (emailOpenedBy n)
  /\ distinct_addresses (emailOpenedBy n).

End Notes.

(** ** More example data *)

(** The example deployment with the validation of utils/validation.js. *)
Definition example_app_env : Env :=
  app_env "devsecret" (bcrypt_compare (Env := example_env)) (bcrypt_hash (Env := example_env)).

Definition carol_form : form :=
  Form (Some " Carol O'Neil "%string) (Some " Carol@Example.COM "%string)
    (Some "tr0ub4dor&3"%string).

Definition register_carol : request := Request "POST" None None None carol_form.

Definition carol_id : string := "65a0000000000000000000c3".

(** An administrator, and [alice] with two refresh tokens in her ledger. *)
Definition root : user :=
  User "65a0000000000000000000f0" "Root" "root@example.com" "$2a$toor" true [].

Definition alice_two_sessions : user :=
  set_refreshTokens alice
    [TokenEntry alice_refresh 1000;
     TokenEntry (generateRefreshToken (env := example_env) 2000 alice) 2000].

Definition example_run : list (Z * call) :=
  [ (1000, Register carol_id register_carol);
    (2000, Login register_carol);
    (3000, Logout (with_refresh_cookie alice_refresh)) ].

(** A stand-in digest and the two mail configurations. *)
Definition example_mail : Reset.Mail :=
  {| Reset.sha256 := fun t => ("sha256:" +:+ t)%string; Reset.smtp_configured := true |}.

Definition example_no_mail : Reset.Mail :=
  {| Reset.sha256 := fun t => ("sha256:" +:+ t)%string; Reset.smtp_configured := false |}.

Definition example_accounts : Reset.store :=
  [Reset.Account alice_logged_in None None; Reset.Account bob None None].

Definition example_reset_token : string := "9f86d081884c7d659a2feaa0c55ad015".

(** Three protected calls answered 401 after the access token expired, the
    refresh each 401 leads to resolving with a new token, and every replay
    answered 401 again. *)
Definition call1 : Client.config := Client.Config "/api/notes" false.
Definition call2 : Client.config := Client.Config "/api/user/me" false.
Definition call3 : Client.config := Client.Config "/api/notes/1" false.

Definition retried (c : Client.config) : Client.config :=
  Client.Config (Client.url c) true.

Definition resolved (now : Z) : Loop.event :=
  Loop.Settlement (Some (Some (generateAccessToken (env := example_env) now alice))).

Definition expired_calls : list Loop.event :=
  [ Loop.Rejection (Some 401) call1;
    Loop.Rejection (Some 401) call2;
    Loop.Rejection (Some 401) call3;
    resolved 2000000;
    Loop.Rejection (Some 401) call2;
    Loop.Rejection (Some 401) call3;
    Loop.Rejection (Some 401) (retried call1);
    resolved 2001000;
    Loop.Rejection (Some 401) call3;
    Loop.Rejection (Some 401) (retried call2);
    resolved 2002000;
    Loop.Rejection (Some 401) (retried call3) ].

(** The refresh call as [axios.post('/api/auth/refresh')] configures it. *)
Definition refresh_call : Client.config := Client.Config "/api/auth/refresh" false.

(** [alice] with eleven refresh tokens, issued at 1 s, 2 s, ..., 11 s. *)
Definition refresh_at (seconds : Z) : token_entry :=
  TokenEntry (generateRefreshToken (env := example_env) (seconds * 1000) alice)
    (seconds * 1000).

Definition alice_eleven : user :=
  set_refreshTokens alice (map refresh_at [1; 2; 3; 4; 5; 6; 7; 8; 9; 10; 11]).

(** A request configuration without header, a note that [alice] shares with
    two collaborators, and a tracking request carrying [t] as its cookie. *)
Definition example_config : Axios.config :=
  Axios.Config (Client.Config "/api/user/me" false) None.

Definition example_note : Notes.note :=
  Notes.Note "65b0000000000000000000d4" "65a0000000000000000000a1" "Groceries" "milk"
    ["Bob@Example.com"; "carol@example.com"] [].

Definition track_with_cookie (t : token) : request :=
  Request "POST" None (Some t) None no_form.

(** Case analysis on the 256 code units. *)
Ltac by_cases_on_char c :=
  destruct c as [[] [] [] [] [] [] [] []]; vm_compute; intuition congruence.

(** The first code unit, if any, is not white space. *)
Definition no_lead (l : list ascii) : Prop :=
  match l with
  | [] => True
  | c :: _ => Js.is_space c = false
  end.

(** A document saved right after it was read is the one stored. *)
Ltac stored_as_read Hf :=
  match type of Hf with
  | ?P => cbn [_id set_refreshTokens]; rewrite !(bool_decide_eq_true_2 P Hf)
  end.

(** Membership in lists built with [++] and [::]. *)
Ltac list_membership :=
  repeat (rewrite elem_of_app in * || rewrite elem_of_cons in * || rewrite elem_of_nil in *);
  tauto.

(** * Properties *)

(** ** Credential codec *)

Section CodecFacts.

Context {env : Env}.

Lemma div1000_lt (now k : Z) : now / 1000 < k <-> now < 1000 * k.
Proof.
  split; intros H.
  - apply Z.nle_gt. intros Hle. apply Z.div_le_lower_bound in Hle; lia.
  - apply Z.div_lt_upper_bound; lia.
Qed.

Lemma verify_signed (now : Z) (t : token) (p : Jwt.payload) (secret : string) :
  Jwt.verify now t secret = Some p ->
  t = Jwt.Signed p secret /\ now / 1000 < Jwt.exp p.
Proof.
  destruct t as [s | q key]; simpl; [discriminate |].
  case_bool_decide; [| discriminate].
  destruct (Z.geb_spec (now / 1000) (Jwt.exp q)); [discriminate |].
  intros [= ->]. subst. split; [reflexivity | lia].
Qed.

Lemma verify_truthy (now : Z) (t : token) (p : Jwt.payload) (secret : string) :
  Jwt.verify now t secret = Some p -> truthy t = true.
Proof. intros H. apply verify_signed in H as [-> _]. reflexivity. Qed.

(** C6. An access credential issued at clock reading [issued] carries
    [issuedAt = floor(issued / 1000)] seconds; it verifies at every instant
    strictly before [issuedAt + 15 min] and is rejected at every instant at
    or after it, with no tolerance. *)
Theorem access_token_expiry_exact (issued now : Z) (u : user) :
  let t := generateAccessToken issued u in
  let issuedAt := issued / 1000 in
  let p := Jwt.Payload (Jwt.Claims (_id u) (Some (email u)) (Some (isAdmin u)))
             issuedAt (issuedAt + 15 * 60) in
  (now < 1000 * (issuedAt + 15 * 60) -> verifyAccessToken now t = Some p) /\
  (1000 * (issuedAt + 15 * 60) <= now -> verifyAccessToken now t = None).
Proof.
  cbn zeta. unfold verifyAccessToken, generateAccessToken, Jwt.sign, Jwt.verify.
  cbn [Jwt.exp]. rewrite bool_decide_true by reflexivity.
  unfold ACCESS_TOKEN_EXPIRY.
  split; intros H.
  - apply div1000_lt in H.
    destruct (Z.geb_spec (now / 1000) (issued / 1000 + 15 * 60)); [lia | reflexivity].
  - destruct (Z.geb_spec (now / 1000) (issued / 1000 + 15 * 60)) as [| Hlt]; [reflexivity |].
    apply div1000_lt in Hlt. lia.
Qed.

End CodecFacts.

(** The last admitted millisecond and the first rejected one, for a token
    issued at 1 500 ms. *)
Lemma access_token_expiry_exact_witness :
  verifyAccessToken (env := example_env) 900999
    (generateAccessToken (env := example_env) 1500 alice)
    = Some (Jwt.Payload
              (Jwt.Claims (_id alice) (Some (email alice)) (Some (isAdmin alice)))
              1 901)
  /\ verifyAccessToken (env := example_env) 901000
       (generateAccessToken (env := example_env) 1500 alice) = None.
Proof.
  split.
  - apply (access_token_expiry_exact (env := example_env) 1500 900999 alice). vm_compute. reflexivity.
  - apply (access_token_expiry_exact (env := example_env) 1500 901000 alice). vm_compute. discriminate.
Defined.

(** ** The store *)

Lemma findById_Some (id : string) (db : DB) (u : user) :
  findById id db = Some u -> _id u = id /\ In u db.
Proof.
  unfold findById. intros H. apply find_some in H as [Hin Hid].
  apply bool_decide_eq_true in Hid. auto.
Qed.

Lemma User_findById_Document (id : string) (db : DB) (u : user) :
  User_findById id db = Document u <-> findById id db = Some u.
Proof.
  unfold User_findById. destruct (findById id db) as [v |].
  - split; intros [= ->]; reflexivity.
  - destruct (castsToObjectId id); split; discriminate.
Qed.

Lemma save_versioned_read (u u' : user) (db : DB) :
  findById (_id u) db = Some u ->
  _id u' = _id u ->
  save_versioned u u' db = Some (save u' db).
Proof.
  intros Hf Hid. unfold save_versioned. rewrite Hid.
  by rewrite bool_decide_true.
Qed.

Lemma findById_save (id : string) (u : user) (db : DB) :
  findById id (save u db) =
  if bool_decide (_id u = id)
  then match findById id db with Some _ => Some u | None => None end
  else findById id db.
Proof.
  unfold findById. induction db as [| d rest IH]; simpl.
  - case_bool_decide; reflexivity.
  - destruct (bool_decide (_id d = _id u)) eqn:Hd; simpl.
    + apply bool_decide_eq_true in Hd.
      case_bool_decide as Hu.
      * rewrite !bool_decide_true by congruence. reflexivity.
      * rewrite !bool_decide_false by congruence. reflexivity.
    + apply bool_decide_eq_false in Hd.
      destruct (bool_decide (_id d = id)) eqn:Hid; simpl.
      * apply bool_decide_eq_true in Hid.
        rewrite bool_decide_false by congruence. reflexivity.
      * exact IH.
Qed.

Lemma findById_save_read (id : string) (u u' : user) (db : DB) :
  findById id db = Some u -> _id u' = _id u ->
  findById id (save u' db) = Some u'.
Proof.
  intros Hf Hid. rewrite findById_save.
  destruct (findById_Some _ _ _ Hf) as [Hu _].
  rewrite bool_decide_true by congruence. rewrite Hf. reflexivity.
Qed.

Lemma ledger_save_read (id : string) (u : user) (l : list token_entry) (db : DB) :
  findById id db = Some u ->
  ledger id (save (set_refreshTokens u l) db) = l.
Proof.
  intros Hf. unfold ledger.
  rewrite (findById_save_read id u (set_refreshTokens u l) db Hf); reflexivity.
Qed.

Lemma findIndex_None {A} (p : A -> bool) (l : list A) :
  findIndex p l = None <-> existsb p l = false.
Proof.
  induction l as [| x rest IH]; simpl; [tauto |].
  destruct (p x); simpl; [split; discriminate |].
  rewrite <- IH. destruct (findIndex p rest); simpl; split; congruence.
Qed.

Lemma last_push {A} (x : A) (l : list A) : last (push x l) = Some x.
Proof. unfold push. apply last_snoc. Qed.

Lemma last_shift_push {A} (x : A) (l : list A) :
  (1 < length (push x l))%nat -> last (shift (push x l)) = Some x.
Proof.
  unfold push, shift. destruct l as [| y rest]; simpl; [lia |].
  intros _. apply last_snoc.
Qed.

(** ** Rotation *)

Section RotationFacts.

Context {env : Env}.

(** C5. A refresh request whose presented token does not verify (not a JWT,
    signed with another key, or expired) is answered 401 with the transport
    credentials cleared, and the store is returned as it was. *)
Theorem refresh_invalid_signature (now : Z) (req : request) (db : DB) (t : token) :
  method req = "POST"%string ->
  cookie_refresh_token req = Some t ->
  truthy t = true ->
  verifyRefreshToken now t = None ->
  handler_refresh now req db
    = (Response 401 Cleared (Error "Invalid refresh token"), db).
Proof.
  intros Hm Hc Ht Hv. unfold handler_refresh, refresh_lookup.
  rewrite Hm, Hc, Ht, Hv. reflexivity.
Qed.

(** C10. When a rotation succeeds, the refresh token set in the response is
    the one generated for the identity found, and the ledger the handler
    leaves is the ledger read, without the entry presented, with the new
    entry appended and then, if that makes more than 10, without its first
    entry.  The new entry is the last one of that ledger: the overflow
    eviction removes the oldest of the entries kept, never the entry just
    appended. *)
Theorem rotation_keeps_new_token (now : Z) (req : request) (db db' : DB) (r : response) :
  handler_refresh now req db = (r, db') ->
  status r = 200 ->
  exists t p u i,
    cookie_refresh_token req = Some t /\
    verifyRefreshToken now t = Some p /\
    findById (Jwt.userId (Jwt.data p)) db = Some u /\
    findIndex (fun e => bool_decide (token_of e = t)) (refreshTokens u) = Some i /\
    let issued := TokenEntry (generateRefreshToken now u) now in
    let appended := push issued (splice1 i (refreshTokens u)) in
    cookies r = AuthCookies (generateAccessToken now u) (generateRefreshToken now u) /\
    ledger (Jwt.userId (Jwt.data p)) db'
    = (if (10 <? length appended)%nat then shift appended else appended) /\
    last (ledger (Jwt.userId (Jwt.data p)) db') = Some issued /\
    last (ledger_tokens (Jwt.userId (Jwt.data p)) db') = Some (generateRefreshToken now u) /\
    generateRefreshToken now u ∈ ledger_tokens (Jwt.userId (Jwt.data p)) db' /\
    ((10 < length appended)%nat ->
     exists oldest kept,
       splice1 i (refreshTokens u) = oldest :: kept /\
       ledger (Jwt.userId (Jwt.data p)) db' = kept ++ [issued]).
Proof.
  unfold handler_refresh, refresh_lookup.
  destruct (negb (bool_decide (method req = "POST"%string))); [intros [= <- <-]; discriminate |].
  destruct (cookie_refresh_token req) as [t |]; [| intros [= <- <-]; discriminate].
  destruct (negb (truthy t)); [intros [= <- <-]; discriminate |].
  destruct (verifyRefreshToken now t) as [p |] eqn:Hv; [| intros [= <- <-]; discriminate].
  unfold User_findById.
  destruct (findById (Jwt.userId (Jwt.data p)) db) as [u |] eqn:Hf;
    [| destruct (castsToObjectId _); intros [= <- <-]; discriminate].
  pose proof (findById_Some _ _ _ Hf) as [Hid _].
  unfold refresh_rotate.
  destruct (findIndex _ (refreshTokens u)) as [i |] eqn:Hi.
  2:{ destruct (save_versioned _ _ _); intros [= <- <-]; discriminate. }
  cbn zeta. rewrite save_versioned_read by (by rewrite ?Hid).
  intros [= <- <-] _.
  exists t, p, u, i.
  split; [reflexivity |]. split; [exact Hv |]. split; [exact Hf |]. split; [exact Hi |].
  cbn zeta. split; [reflexivity |].
  assert (Hledger : ledger (Jwt.userId (Jwt.data p))
                      (save (set_refreshTokens u
                         (if (10 <? length (push (TokenEntry (generateRefreshToken now u) now)
                                              (splice1 i (refreshTokens u))))%nat
                          then shift (push (TokenEntry (generateRefreshToken now u) now)
                                        (splice1 i (refreshTokens u)))
                          else push (TokenEntry (generateRefreshToken now u) now)
                                 (splice1 i (refreshTokens u)))) db)
                    = (if (10 <? length (push (TokenEntry (generateRefreshToken now u) now)
                                           (splice1 i (refreshTokens u))))%nat
                       then shift (push (TokenEntry (generateRefreshToken now u) now)
                                     (splice1 i (refreshTokens u)))
                       else push (TokenEntry (generateRefreshToken now u) now)
                              (splice1 i (refreshTokens u))))
    by apply (ledger_save_read _ u _ db Hf).
  unfold ledger_tokens. rewrite Hledger.
  set (pushed := push _ _).
  assert (Hlast : last (if (10 <? length pushed)%nat then shift pushed else pushed)
                  = Some (TokenEntry (generateRefreshToken now u) now)).
  { destruct (Nat.ltb_spec 10 (length pushed)) as [Hlen | _].
    - apply last_shift_push. fold pushed. lia.
    - apply last_push. }
  split; [reflexivity |]. split; [exact Hlast |].
  split; [by rewrite fmap_last, Hlast |].
  split.
  - apply last_Some_elem_of in Hlast.
    apply (list_elem_of_fmap_2 token_of) in Hlast. exact Hlast.
  - intros Hlen. destruct (Nat.ltb_spec 10 (length pushed)) as [_ | Hle]; [| lia].
    subst pushed. unfold push, shift in *.
    destruct (splice1 i (refreshTokens u)) as [| oldest kept]; [simpl in Hlen; lia |].
    by exists oldest, kept.
Qed.

End RotationFacts.

(** ** Logout *)

Lemma holds_elem_of (t : token) (u : user) :
  holds t u = true <-> t ∈ map token_of (refreshTokens u).
Proof.
  unfold holds. rewrite existsb_exists, list_elem_of_fmap. split.
  - intros (e & Hin & He). apply bool_decide_eq_true in He.
    exists e. split; [congruence | by apply list_elem_of_In].
  - intros (e & -> & Hin). exists e. split; [by apply list_elem_of_In |].
    by apply bool_decide_eq_true.
Qed.

Lemma findById_unique (u : user) (db : DB) :
  unique_ids db -> In u db -> findById (_id u) db = Some u.
Proof.
  unfold unique_ids, findById. induction db as [| d rest IH]; simpl; [tauto |].
  intros Hnd [-> | Hin].
  - rewrite bool_decide_true by reflexivity. reflexivity.
  - apply NoDup_cons in Hnd as [Hd Hnd].
    rewrite bool_decide_false.
    + apply IH; assumption.
    + intros Heq. apply Hd. rewrite Heq. apply list_elem_of_fmap.
      exists u. split; [reflexivity | by apply list_elem_of_In].
Qed.

Lemma save_ids (u : user) (db : DB) : map _id (save u db) = map _id db.
Proof.
  induction db as [| d rest IH]; simpl; [reflexivity |].
  case_bool_decide as Hd; simpl; congruence.
Qed.

Lemma others_idem (t : token) (l : list token_entry) :
  others t (others t l) = others t l.
Proof.
  unfold others. induction l as [| e rest IH]; simpl; [reflexivity |].
  destruct (negb (has_token t e)) eqn:He; simpl; [rewrite He |]; congruence.
Qed.

Lemma others_not_elem (t : token) (l : list token_entry) :
  t ∉ map token_of (others t l).
Proof.
  unfold others. rewrite list_elem_of_fmap. intros (e & -> & Hin).
  apply list_elem_of_In, filter_In in Hin as [_ He].
  unfold has_token in He. rewrite bool_decide_true in He by reflexivity. discriminate.
Qed.

Lemma owned_holder (t : token) (u v : user) (db : DB) :
  ledgers_owned db -> In u db -> In v db ->
  holds t u = true -> holds t v = true -> _id u = _id v.
Proof.
  unfold ledgers_owned. rewrite Forall_forall.
  intros Hown Hu Hv Htu Htv.
  assert (Hone : forall w, In w db -> holds t w = true ->
                 match t with
                 | Jwt.Signed p _ => Jwt.userId (Jwt.data p) = _id w
                 | Jwt.Opaque _ => False
                 end).
  { intros w Hw Hh. apply list_elem_of_In, Hown in Hw.
    unfold holds in Hh. apply existsb_exists in Hh as (e & He & Heq).
    apply bool_decide_eq_true in Heq. rewrite Forall_forall in Hw.
    apply list_elem_of_In, Hw in He. unfold owned_by in He. by rewrite Heq in He. }
  pose proof (Hone u Hu Htu) as H1. pose proof (Hone v Hv Htv) as H2.
  destruct t; [contradiction | congruence].
Qed.

(** C8. Logout always clears both transport carriers and answers
    [{ ok: true }]; the identities of the store are the same; in every
    ledger the entries other than the presented value are unchanged; and a
    presented value found in a ledger is no longer there afterwards. *)
Theorem logout_spec (req : request) (db : DB) :
  method req = "POST"%string ->
  unique_ids db ->
  (handler_logout req db).1 = Response 200 Cleared OkTrue /\
  map _id (handler_logout req db).2 = map _id db /\
  (forall id,
     match cookie_refresh_token req with
     | Some t => others t (ledger id (handler_logout req db).2) = others t (ledger id db)
     | None => ledger id (handler_logout req db).2 = ledger id db
     end) /\
  (forall id t,
     cookie_refresh_token req = Some t ->
     ledgers_owned db ->
     t ∈ ledger_tokens id db ->
     t ∉ ledger_tokens id (handler_logout req db).2).
Proof.
  intros Hm Hnd. unfold handler_logout. rewrite Hm. simpl.
  split; [reflexivity |].
  destruct (cookie_refresh_token req) as [t |] eqn:Hc;
    [| split; [reflexivity |]; split; [reflexivity | discriminate]].
  destruct (truthy t) eqn:Htruthy.
  - destruct (findOne_token t db) as [u |] eqn:Hfind.
    + pose proof Hfind as Hfound. unfold findOne_token in Hfound.
      apply find_some in Hfound as [Hin Hholds].
      pose proof (findById_unique u db Hnd Hin) as Hu.
      split; [apply save_ids |]. split.
      * intros id. unfold ledger. rewrite findById_save. simpl.
        case_bool_decide as Hid; [| reflexivity].
        subst id. rewrite Hu. apply others_idem.
      * intros id t' [= <-] Hown Hel.
        unfold ledger_tokens, ledger in Hel.
        destruct (findById id db) as [v |] eqn:Hv; [| by apply elem_of_nil in Hel].
        apply holds_elem_of in Hel.
        destruct (findById_Some _ _ _ Hv) as [Hvid Hvin].
        pose proof (owned_holder t u v db Hown Hin Hvin Hholds Hel) as Hsame.
        unfold ledger_tokens, ledger. rewrite findById_save. simpl.
        rewrite bool_decide_true by congruence. rewrite Hv. simpl.
        apply others_not_elem.
    + split; [reflexivity |]. split; [reflexivity |].
      intros id t' [= <-] Hown Hel. exfalso.
      unfold ledger_tokens, ledger in Hel.
      destruct (findById id db) as [v |] eqn:Hv; [| by apply elem_of_nil in Hel].
      apply holds_elem_of in Hel.
      destruct (findById_Some _ _ _ Hv) as [_ Hvin].
      unfold findOne_token in Hfind.
      pose proof (find_none _ _ Hfind v Hvin) as Hno. congruence.
  - split; [reflexivity |]. split; [reflexivity |].
    intros id t' [= <-] Hown Hel. exfalso.
    unfold ledger_tokens, ledger in Hel.
    destruct (findById id db) as [v |] eqn:Hv; [| by apply elem_of_nil in Hel].
    destruct (findById_Some _ _ _ Hv) as [_ Hvin].
    unfold ledgers_owned in Hown. rewrite Forall_forall in Hown.
    apply list_elem_of_In, Hown in Hvin. rewrite Forall_forall in Hvin.
    apply list_elem_of_fmap in Hel as (e & -> & He).
    apply Hvin in He. unfold owned_by in He.
    destruct (token_of e); [contradiction | discriminate].
Qed.

(** ** Counting a token value in the ledgers *)

Lemma count_token_app (t : token) (l1 l2 : list token_entry) :
  count_token t (l1 ++ l2) = (count_token t l1 + count_token t l2)%nat.
Proof. unfold count_token. by rewrite List.filter_app, length_app. Qed.

Lemma count_token_splice (t : token) (l : list token_entry) (i : nat) :
  findIndex (has_token t) l = Some i ->
  (count_token t (splice1 i l) + 1 = count_token t l)%nat.
Proof.
  unfold count_token, splice1. revert i.
  induction l as [| e rest IH]; intros i; simpl; [discriminate |].
  destruct (has_token t e) eqn:He.
  - intros [= <-]. simpl. lia.
  - destruct (findIndex (has_token t) rest) as [j |]; simpl; [| discriminate].
    intros [= <-]. simpl. rewrite He. by apply IH.
Qed.

Lemma count_token_shift (t : token) (l : list token_entry) :
  (count_token t (shift l) <= count_token t l)%nat.
Proof.
  unfold count_token, shift. destruct l as [| e rest]; simpl; [lia |].
  destruct (has_token t e); simpl; lia.
Qed.

Lemma count_token_zero (t : token) (l : list token_entry) :
  count_token t l = 0%nat <-> existsb (has_token t) l = false.
Proof.
  unfold count_token. induction l as [| e rest IH]; simpl; [tauto |].
  destruct (has_token t e); simpl; [split; discriminate | exact IH].
Qed.

Lemma occurrences_save (t : token) (u u' : user) (db : DB) :
  findById (_id u') db = Some u ->
  (occurrences t (save u' db) + count_token t (refreshTokens u)
   = occurrences t db + count_token t (refreshTokens u'))%nat.
Proof.
  unfold occurrences, findById. induction db as [| d rest IH]; simpl; [discriminate |].
  destruct (bool_decide (_id d = _id u')) eqn:Hd; simpl.
  - intros [= ->]. rewrite !count_token_app. lia.
  - intros Hf. rewrite !count_token_app. specialize (IH Hf). lia.
Qed.

Lemma occurrences_zero (t : token) (db : DB) :
  occurrences t db = 0%nat -> no_holder t db.
Proof.
  unfold occurrences, no_holder. induction db as [| d rest IH]; simpl.
  - intros _. constructor.
  - rewrite count_token_app. intros H. constructor.
    + apply count_token_zero. lia.
    + apply IH. lia.
Qed.

Lemma no_holder_save (t : token) (u : user) (db : DB) :
  no_holder t db -> holds t u = false -> no_holder t (save u db).
Proof.
  unfold no_holder. intros Hdb Hu. induction Hdb as [| d rest Hd Hrest IH]; simpl.
  - constructor.
  - case_bool_decide; constructor; assumption.
Qed.

Lemma no_holder_find (t : token) (p : user -> bool) (u : user) (db : DB) :
  no_holder t db -> List.find p db = Some u -> holds t u = false.
Proof.
  unfold no_holder. rewrite Forall_forall. intros Hdb Hf.
  apply find_some in Hf as [Hin _]. apply Hdb. by apply list_elem_of_In.
Qed.

(** What the handlers do to a ledger that does not hold [t]. *)
Lemma absent_push (t : token) (e : token_entry) (l : list token_entry) :
  existsb (has_token t) l = false -> token_of e <> t ->
  existsb (has_token t) (push e l) = false.
Proof.
  intros Hl He. unfold push. rewrite existsb_app, Hl. simpl.
  unfold has_token. by rewrite bool_decide_false.
Qed.

Lemma absent_shift (t : token) (l : list token_entry) :
  existsb (has_token t) l = false -> existsb (has_token t) (shift l) = false.
Proof.
  destruct l as [| e rest]; simpl; [done |].
  intros H. by apply orb_false_elim in H as [_ H].
Qed.

Lemma absent_splice (t : token) (i : nat) (l : list token_entry) :
  existsb (has_token t) l = false -> existsb (has_token t) (splice1 i l) = false.
Proof.
  unfold splice1. revert i. induction l as [| e rest IH]; intros i; simpl; [by destruct i |].
  intros H. apply orb_false_elim in H as [He Hrest].
  destruct i as [| j]; simpl; [exact Hrest |].
  rewrite He. by apply IH.
Qed.

Lemma absent_filter (t : token) (q : token_entry -> bool) (l : list token_entry) :
  existsb (has_token t) l = false -> existsb (has_token t) (List.filter q l) = false.
Proof.
  induction l as [| e rest IH]; simpl; [done |].
  intros H. apply orb_false_elim in H as [He Hrest].
  destruct (q e); simpl; [rewrite He |]; by apply IH.
Qed.

Lemma findById_save_is_Some (id : string) (u : user) (db : DB) :
  is_Some (findById id db) -> is_Some (findById id (save u db)).
Proof.
  intros [v Hv]. rewrite findById_save, Hv. case_bool_decide; eauto.
Qed.

Lemma findById_app_is_Some (id : string) (db more : DB) :
  is_Some (findById id db) -> is_Some (findById id (db ++ more)).
Proof.
  unfold findById. intros [v Hv].
  induction db as [| d rest IH]; simpl in *; [discriminate |].
  destruct (bool_decide (_id d = id)); eauto.
Qed.

(** ** Runs preserve the absence of a token issued in an earlier second *)

Section RunFacts.

Context {env : Env}.

Lemma later_refresh_token_differs (now : Z) (u : user) (p : Jwt.payload) (key : string) :
  Jwt.iat p < now / 1000 -> generateRefreshToken now u <> Jwt.Signed p key.
Proof.
  unfold generateRefreshToken, Jwt.sign. intros Hlt [= <- _]. simpl in Hlt. lia.
Qed.

Lemma rotate_no_holder (t : token) (now : Z) (rt : token) (u : user) (db : DB) :
  (forall v, generateRefreshToken now v <> t) ->
  holds t u = false ->
  no_holder t db ->
  no_holder t (refresh_rotate now rt u db).2.
Proof.
  intros Hfresh Hu Hdb. unfold refresh_rotate, save_versioned.
  destruct (findIndex _ (refreshTokens u)) as [i |]; cbn zeta;
    (destruct (bool_decide _); [| assumption]); simpl.
  - apply no_holder_save; [assumption |]. unfold holds. simpl.
    assert (Hpushed : existsb (has_token t)
              (push (TokenEntry (generateRefreshToken now u) now)
                 (splice1 i (refreshTokens u))) = false).
    { apply absent_push; [by apply absent_splice | apply Hfresh]. }
    destruct (10 <? _)%nat; [by apply absent_shift | assumption].
  - apply no_holder_save; [assumption | reflexivity].
Qed.

Lemma serve_no_holder (t : token) (now : Z) (c : call) (db : DB) :
  (forall v, generateRefreshToken now v <> t) ->
  no_holder t db ->
  no_holder t (serve now c db).2.
Proof.
  intros Hfresh Hdb. destruct c as [req | oid req | req | req | req]; simpl.
  - unfold handler_login.
    destruct (negb _); [assumption |].
    destruct (validateLogin _) as [[e pw] | errs]; [| assumption].
    destruct (findOne_email e db) as [u |] eqn:Hu; [| assumption].
    destruct (negb _); [assumption |]. simpl.
    apply no_holder_save; [assumption |]. unfold holds. simpl.
    apply absent_push; [| apply Hfresh].
    exact (no_holder_find t _ u db Hdb Hu).
  - unfold handler_register.
    destruct (negb _); [assumption |].
    destruct (validateRegistration _) as [[[n e] pw] | errs]; [| assumption].
    destruct (findOne_email e db) as [u |] eqn:Hu; [assumption |]. simpl.
    apply no_holder_save.
    + apply Forall_app. split; [assumption |]. by constructor.
    + unfold holds. simpl. rewrite orb_false_r. apply bool_decide_eq_false.
      apply (Hfresh (User oid n e (bcrypt_hash pw) false [])).
  - unfold handler_refresh, refresh_lookup.
    destruct (negb _); [assumption |].
    destruct (cookie_refresh_token req) as [rt |]; [| assumption].
    destruct (negb _); [assumption |].
    destruct (verifyRefreshToken now rt) as [p |]; [| assumption].
    unfold User_findById.
    destruct (findById _ db) as [u |] eqn:Hu; [| by destruct (castsToObjectId _)].
    apply rotate_no_holder; [assumption | | assumption].
    exact (no_holder_find t _ u db Hdb Hu).
  - unfold handler_logout.
    destruct (negb _); [assumption |]. simpl.
    destruct (cookie_refresh_token req) as [rt |]; [| assumption].
    destruct (truthy rt); [| assumption].
    destruct (findOne_token rt db) as [u |] eqn:Hu; [| assumption].
    apply no_holder_save; [assumption |]. unfold holds. simpl.
    apply absent_filter. exact (no_holder_find t _ u db Hdb Hu).
  - assumption.
Qed.

Lemma rotate_keeps_identity (id : string) (now : Z) (rt : token) (u : user) (db : DB) :
  is_Some (findById id db) ->
  is_Some (findById id (refresh_rotate now rt u db).2).
Proof.
  intros H. unfold refresh_rotate, save_versioned.
  destruct (findIndex _ _); cbn zeta; (destruct (bool_decide _); [| assumption]);
    simpl; by apply findById_save_is_Some.
Qed.

Lemma serve_keeps_identity (id : string) (now : Z) (c : call) (db : DB) :
  is_Some (findById id db) -> is_Some (findById id (serve now c db).2).
Proof.
  intros H. destruct c as [req | oid req | req | req | req]; simpl.
  - unfold handler_login.
    destruct (negb _); [assumption |].
    destruct (validateLogin _) as [[e pw] | errs]; [| assumption].
    destruct (findOne_email e db); [| assumption].
    destruct (negb _); [assumption |]. by apply findById_save_is_Some.
  - unfold handler_register.
    destruct (negb _); [assumption |].
    destruct (validateRegistration _) as [[[n e] pw] | errs]; [| assumption].
    destruct (findOne_email e db); [assumption |]. simpl.
    by apply findById_save_is_Some, findById_app_is_Some.
  - unfold handler_refresh.
    destruct (refresh_lookup now req db); [assumption |].
    by apply rotate_keeps_identity.
  - unfold handler_logout.
    destruct (negb _); [assumption |]. simpl.
    destruct (cookie_refresh_token req) as [rt |]; [| assumption].
    destruct (truthy rt); [| assumption].
    destruct (findOne_token rt db); [| assumption].
    by apply findById_save_is_Some.
  - assumption.
Qed.

Lemma run_invariant (t : token) (p : Jwt.payload) (key : string) (id : string)
    (calls : list (Z * call)) (db : DB) :
  t = Jwt.Signed p key ->
  Forall (fun c => Jwt.iat p < c.1 / 1000) calls ->
  no_holder t db -> is_Some (findById id db) ->
  no_holder t (run calls db) /\ is_Some (findById id (run calls db)).
Proof.
  intros Ht Hcalls. revert db.
  induction Hcalls as [| [now c] rest Hnow Hrest IH]; intros db Hdb Hid; simpl.
  - auto.
  - apply IH.
    + apply serve_no_holder; [| assumption].
      intros v. rewrite Ht. by apply later_refresh_token_differs.
    + by apply serve_keeps_identity.
Qed.

End RunFacts.

(** ** Single use of a refresh token *)

Section SingleUse.

Context {env : Env}.

Lemma rotate_present (t : token) (now : Z) (u : user) (db : DB) :
  findById (_id u) db = Some u ->
  holds t u = true ->
  occurrences t db = 1%nat ->
  generateRefreshToken now u <> t ->
  (refresh_rotate now t u db).1
    = Response 200 (AuthCookies (generateAccessToken now u) (generateRefreshToken now u))
        (OkToken (generateAccessToken now u)) /\
  no_holder t (refresh_rotate now t u db).2.
Proof.
  intros Hf Hholds Hocc Hfresh. unfold refresh_rotate, save_versioned.
  change (fun e : token_entry => bool_decide (token_of e = t)) with (has_token t).
  destruct (findIndex (has_token t) (refreshTokens u)) as [i |] eqn:Hi.
  - cbn zeta. stored_as_read Hf. simpl. split; [reflexivity |].
    apply occurrences_zero.
    set (pushed := push _ _).
    set (capped := if (10 <? length pushed)%nat then shift pushed else pushed).
    pose proof (occurrences_save t u (set_refreshTokens u capped) db Hf) as Hsave.
    pose proof (occurrences_save t u (set_refreshTokens u []) db Hf) as Hle.
    pose proof (count_token_splice t _ i Hi) as Hsplice.
    assert (Hpushed : count_token t pushed = count_token t (splice1 i (refreshTokens u))).
    { unfold pushed, push. rewrite count_token_app.
      assert (Hnew : count_token t [TokenEntry (generateRefreshToken now u) now] = 0%nat).
      { apply count_token_zero. simpl. unfold has_token. simpl.
        by rewrite bool_decide_false. }
      rewrite Hnew. lia. }
    assert (Hcapped : (count_token t capped <= count_token t pushed)%nat).
    { unfold capped. destruct (10 <? length pushed)%nat; [apply count_token_shift | lia]. }
    simpl in Hsave, Hle. change (count_token t []) with 0%nat in Hle. lia.
  - apply findIndex_None in Hi. unfold holds in Hholds.
    change (fun e : token_entry => bool_decide (token_of e = t)) with (has_token t) in Hholds.
    congruence.
Qed.

Lemma rotate_absent (t : token) (now : Z) (u : user) (db : DB) :
  findById (_id u) db = Some u ->
  holds t u = false ->
  (refresh_rotate now t u db).1
    = Response 403 Cleared (Error "Refresh token reuse detected") /\
  ledger (_id u) (refresh_rotate now t u db).2 = [].
Proof.
  intros Hf Hholds. unfold refresh_rotate, save_versioned.
  change (fun e : token_entry => bool_decide (token_of e = t)) with (has_token t).
  destruct (findIndex (has_token t) (refreshTokens u)) as [i |] eqn:Hi.
  - assert (Hnone : findIndex (has_token t) (refreshTokens u) = None)
      by (by apply findIndex_None).
    congruence.
  - stored_as_read Hf. simpl. split; [reflexivity |]. by apply ledger_save_read.
Qed.

(** C1 (amended). Let [t] be a refresh token that verifies, whose identity
    exists and holds it, and that occurs once in the ledgers.  Redeeming it in
    a clock second later than the one it was issued in answers 200 with a
    rotated pair whose refresh token differs from [t].  After any further
    calls served from then on, redeeming the same [t] again answers 403 and
    leaves that identity's ledger empty if [t] still verifies, and answers
    401 with the store unchanged if it no longer does. *)
Theorem redemption_single_use (now1 now2 : Z) (req : request) (t : token)
    (p : Jwt.payload) (u : user) (db : DB) (calls : list (Z * call)) :
  method req = "POST"%string ->
  cookie_refresh_token req = Some t ->
  verifyRefreshToken now1 t = Some p ->
  findById (Jwt.userId (Jwt.data p)) db = Some u ->
  holds t u = true ->
  occurrences t db = 1%nat ->
  Jwt.iat p < now1 / 1000 ->
  Forall (fun c => now1 <= c.1) calls ->
  let first := handler_refresh now1 req db in
  let db' := run calls first.2 in
  let second := handler_refresh now2 req db' in
  first.1 = Response 200
              (AuthCookies (generateAccessToken now1 u) (generateRefreshToken now1 u))
              (OkToken (generateAccessToken now1 u)) /\
  generateRefreshToken now1 u <> t /\
  (verifyRefreshToken now2 t = Some p ->
   second.1 = Response 403 Cleared (Error "Refresh token reuse detected") /\
   ledger (Jwt.userId (Jwt.data p)) second.2 = []) /\
  (verifyRefreshToken now2 t = None ->
   second = (Response 401 Cleared (Error "Invalid refresh token"), db')).
Proof.
  intros Hm Hc Hv1 Hf Hholds Hocc Hiat Hcalls.
  pose proof Hv1 as Hsigned. apply verify_signed in Hsigned as [Ht _].
  pose proof (verify_truthy _ _ _ _ Hv1) as Htruthy.
  destruct (findById_Some _ _ _ Hf) as [Hid _].
  assert (Hfresh : generateRefreshToken now1 u <> t).
  { rewrite Ht. by apply later_refresh_token_differs. }
  assert (Hfu : findById (_id u) db = Some u) by (by rewrite Hid).
  destruct (rotate_present t now1 u db Hfu Hholds Hocc Hfresh) as [Hr1 Hdb1].
  assert (Hfirst : handler_refresh now1 req db = refresh_rotate now1 t u db).
  { unfold handler_refresh, refresh_lookup, User_findById.
    by rewrite Hm, Hc, Htruthy, Hv1, Hf. }
  cbn zeta. rewrite Hfirst.
  split; [exact Hr1 |]. split; [exact Hfresh |].
  set (db1 := (refresh_rotate now1 t u db).2) in *.
  split.
  - intros Hv2.
    assert (Hlater : Forall (fun c : Z * call => Jwt.iat p < c.1 / 1000) calls).
    { eapply Forall_impl; [exact Hcalls |]. intros c Hc1. simpl in Hc1.
      assert (now1 / 1000 <= c.1 / 1000) by (apply Z.div_le_mono; lia). lia. }
    assert (Hid1 : is_Some (findById (Jwt.userId (Jwt.data p)) db1)).
    { apply rotate_keeps_identity. rewrite Hf. eauto. }
    destruct (run_invariant t p JWT_SECRET (Jwt.userId (Jwt.data p)) calls db1
                Ht Hlater Hdb1 Hid1) as [Hdb2 [w Hw]].
    assert (Hsecond : handler_refresh now2 req (run calls db1)
                      = refresh_rotate now2 t w (run calls db1)).
    { unfold handler_refresh, refresh_lookup, User_findById.
      by rewrite Hm, Hc, Htruthy, Hv2, Hw. }
    rewrite Hsecond.
    destruct (findById_Some _ _ _ Hw) as [Hwid _].
    assert (Hfw : findById (_id w) (run calls db1) = Some w) by (by rewrite Hwid).
    assert (Hwclean : holds t w = false) by exact (no_holder_find t _ w _ Hdb2 Hw).
    destruct (rotate_absent t now2 w (run calls db1) Hfw Hwclean) as [Hr2 Hl2].
    split; [exact Hr2 |]. rewrite <- Hwid. exact Hl2.
  - intros Hv2. unfold handler_refresh, refresh_lookup.
    by rewrite Hm, Hc, Htruthy, Hv2.
Qed.

End SingleUse.

Lemma redemption_single_use_witness :
  let req := with_refresh_cookie alice_refresh in
  let first := handler_refresh (env := example_env) 5000 req example_db in
  let db' := run (env := example_env) example_calls first.2 in
  let second := handler_refresh (env := example_env) 9000 req db' in
  first.1 = Response 200
              (AuthCookies (generateAccessToken (env := example_env) 5000 alice_logged_in)
                 (generateRefreshToken (env := example_env) 5000 alice_logged_in))
              (OkToken (generateAccessToken (env := example_env) 5000 alice_logged_in)) /\
  generateRefreshToken (env := example_env) 5000 alice_logged_in <> alice_refresh /\
  second.1 = Response 403 Cleared (Error "Refresh token reuse detected") /\
  ledger (_id alice) second.2 = [].
Proof.
  assert (Hcalls : Forall (fun c : Z * call => 5000 <= c.1) example_calls).
  { unfold example_calls. repeat constructor; simpl; lia. }
  destruct (redemption_single_use (env := example_env) 5000 9000
              (with_refresh_cookie alice_refresh) alice_refresh alice_refresh_payload
              alice_logged_in example_db example_calls
              eq_refl eq_refl eq_refl eq_refl eq_refl eq_refl eq_refl Hcalls)
    as (Hfirst & Hnew & Hreplay & _).
  destruct (Hreplay eq_refl) as [Hstatus Hledger].
  cbn zeta. split; [exact Hfirst |]. split; [exact Hnew |].
  split; [exact Hstatus | exact Hledger].
Defined.

(** C1 as stated fails: a second redemption after the token's seven days is
    answered 401, and the ledger keeps the rotated token. *)
Lemma redemption_after_expiry_counterexample :
  let req := with_refresh_cookie alice_refresh in
  let first := handler_refresh (env := example_env) 5000 req example_db in
  let second := handler_refresh (env := example_env) 700000000 req first.2 in
  status first.1 = 200 /\
  second.1 = Response 401 Cleared (Error "Invalid refresh token") /\
  ledger (_id alice) second.2 <> [] /\
  ~ (status second.1 = 403 /\ ledger (_id alice) second.2 = []).
Proof.
  vm_compute. repeat split; try discriminate. intros [H _]. discriminate H.
Qed.

Lemma refresh_invalid_signature_witness :
  handler_refresh (env := example_env) 5000
    (with_refresh_cookie (Jwt.Opaque "garbage")) example_db
  = (Response 401 Cleared (Error "Invalid refresh token"), example_db).
Proof.
  apply (refresh_invalid_signature (env := example_env) 5000
           (with_refresh_cookie (Jwt.Opaque "garbage")) example_db (Jwt.Opaque "garbage"));
    reflexivity.
Defined.

(** A ledger of eleven entries from which the third is redeemed: the entry
    issued at 1 s is evicted, the new one is last. *)
Lemma rotation_keeps_new_token_witness :
  let out := handler_refresh (env := example_env) 20000
               (with_refresh_cookie (token_of (refresh_at 3))) [alice_eleven; bob] in
  status out.1 = 200 /\
  cookies out.1 = AuthCookies (generateAccessToken (env := example_env) 20000 alice_eleven)
                    (generateRefreshToken (env := example_env) 20000 alice_eleven) /\
  ledger (_id alice) out.2
  = map refresh_at [2; 4; 5; 6; 7; 8; 9; 10; 11]
    ++ [TokenEntry (generateRefreshToken (env := example_env) 20000 alice_eleven) 20000] /\
  last (ledger_tokens (_id alice) out.2)
  = Some (generateRefreshToken (env := example_env) 20000 alice_eleven).
Proof.
  cbn zeta.
  destruct (rotation_keeps_new_token (env := example_env) 20000
              (with_refresh_cookie (token_of (refresh_at 3))) [alice_eleven; bob]
              (handler_refresh (env := example_env) 20000
                 (with_refresh_cookie (token_of (refresh_at 3))) [alice_eleven; bob]).2
              (handler_refresh (env := example_env) 20000
                 (with_refresh_cookie (token_of (refresh_at 3))) [alice_eleven; bob]).1)
    as (t & p & u & i & Hc & Hv & Hf & Hi & Hcookies & Hledger & _ & Hlast & _ & Hevict).
  - by vm_compute.
  - by vm_compute.
  - injection Hc as <-.
    assert (Hp : p = Jwt.Payload (Jwt.Claims (_id alice) None None) 3 604803).
    { vm_compute in Hv. by injection Hv as <-. }
    subst p.
    assert (Hu : u = alice_eleven).
    { vm_compute in Hf. by injection Hf as <-. }
    subst u.
    assert (Hindex : i = 2%nat).
    { vm_compute in Hi. by injection Hi as <-. }
    subst i.
    split; [by vm_compute |]. split; [exact Hcookies |].
    split; [| exact Hlast].
    destruct Hevict as (oldest & kept & Hsplice & Hkept); [vm_compute; lia |].
    cbn [Jwt.userId Jwt.data] in Hkept. rewrite Hkept.
    vm_compute in Hsplice. injection Hsplice as _ <-. reflexivity.
Defined.

Lemma logout_spec_witness :
  let req := with_refresh_cookie alice_refresh in
  (handler_logout req example_db).1 = Response 200 Cleared OkTrue /\
  map _id (handler_logout req example_db).2 = map _id example_db /\
  others alice_refresh (ledger (_id bob) (handler_logout req example_db).2)
    = others alice_refresh (ledger (_id bob) example_db) /\
  alice_refresh ∈ ledger_tokens (_id alice) example_db /\
  alice_refresh ∉ ledger_tokens (_id alice) (handler_logout req example_db).2.
Proof.
  assert (Hm : method (with_refresh_cookie alice_refresh) = "POST"%string) by reflexivity.
  assert (Hu : unique_ids example_db).
  { unfold unique_ids. apply (bool_decide_unpack _). vm_compute. exact I. }
  assert (Ho : ledgers_owned example_db).
  { unfold ledgers_owned, example_db. repeat constructor. }
  assert (He : alice_refresh ∈ ledger_tokens (_id alice) example_db).
  { apply (bool_decide_unpack _). vm_compute. exact I. }
  destruct (logout_spec (with_refresh_cookie alice_refresh) example_db Hm Hu)
    as (Hr & Hids & Hothers & Hgone).
  cbn zeta. split; [exact Hr |]. split; [exact Hids |].
  split; [exact (Hothers (_id bob)) |]. split; [exact He |].
  exact (Hgone (_id alice) alice_refresh eq_refl Ho He).
Defined.

(** ** Where the handlers depart from the specification *)

Section Race.

Context {env : Env}.

Lemma refresh_lookup_Found (now : Z) (req : request) (db : DB) (t : token) (u : user) :
  refresh_lookup now req db = Found t u -> findById (_id u) db = Some u.
Proof.
  unfold refresh_lookup.
  destruct (negb _); [discriminate |].
  destruct (cookie_refresh_token req) as [rt |]; [| discriminate].
  destruct (negb _); [discriminate |].
  destruct (verifyRefreshToken now rt) as [p |]; [| discriminate].
  destruct (User_findById _ db) as [| | v] eqn:Hv; [discriminate | discriminate |].
  apply User_findById_Document in Hv.
  intros [= _ <-]. destruct (findById_Some _ _ _ Hv) as [-> _]. exact Hv.
Qed.

Lemma rotate_status_of_held (now : Z) (t : token) (u : user) (db : DB) :
  holds t u = true ->
  status (refresh_rotate now t u db).1 = 200 \/
  (refresh_rotate now t u db = (internal_error, db) /\
   findById (_id u) db <> Some u).
Proof.
  intros Hholds. unfold refresh_rotate, save_versioned.
  destruct (findIndex _ (refreshTokens u)) as [i |] eqn:Hi.
  - cbn zeta. cbn [_id set_refreshTokens]. case_bool_decide; simpl; auto.
  - apply findIndex_None in Hi. unfold holds in Hholds. congruence.
Qed.

Lemma rotate_ledger_of_held (now : Z) (t : token) (u : user) (db : DB) :
  holds t u = true ->
  findById (_id u) db = Some u ->
  status (refresh_rotate now t u db).1 = 200 /\
  ledger (_id u) (refresh_rotate now t u db).2 <> [].
Proof.
  intros Hholds Hf. unfold refresh_rotate, save_versioned.
  destruct (findIndex _ (refreshTokens u)) as [i |] eqn:Hi.
  - cbn zeta. stored_as_read Hf. cbn [fst snd status]. split; [reflexivity |].
    rewrite (ledger_save_read _ u _ db Hf).
    set (pushed := push _ _).
    assert (Hlast : last (if (10 <? length pushed)%nat then shift pushed else pushed)
                    = Some (TokenEntry (generateRefreshToken now u) now)).
    { destruct (Nat.ltb_spec 10 (length pushed)) as [Hlen | _].
      - apply last_shift_push. fold pushed. lia.
      - apply last_push. }
    intros Hnil. by rewrite Hnil in Hlast.
  - apply findIndex_None in Hi. unfold holds in Hholds. congruence.
Qed.

(** C2. When two refresh requests presenting the same token both read the
    identity before either writes, the first is answered 200 and the second
    is never answered 403: its write is refused once the first rotation has
    changed the stored document, the route answers 500 and the store stays
    as the first rotation left it.  The ledger is not emptied. *)
Theorem refresh_race_not_detected (now1 now2 : Z)
    (req1 req2 : request) (db : DB) (t : token) (u : user) :
  refresh_lookup now1 req1 db = Found t u ->
  refresh_lookup now2 req2 db = Found t u ->
  holds t u = true ->
  let '(r1, r2, db') := refresh_race now1 now2 req1 req2 db in
  status r1 = 200 /\
  (status r2 = 200 \/ status r2 = 500) /\
  status r2 <> 403 /\
  ledger (_id u) db' <> [] /\
  (findById (_id u) (refresh_rotate now1 t u db).2 <> Some u ->
   r2 = internal_error /\ db' = (refresh_rotate now1 t u db).2).
Proof.
  intros H1 H2 Hholds. unfold refresh_race. rewrite H1, H2.
  pose proof (refresh_lookup_Found _ _ _ _ _ H1) as Hf.
  destruct (rotate_ledger_of_held now1 t u db Hholds Hf) as [Hs1 Hl1].
  destruct (refresh_rotate now1 t u db) as [r1 db1] eqn:E1. cbn [fst snd] in *.
  pose proof (rotate_status_of_held now2 t u db1 Hholds) as Hs2.
  destruct (decide (findById (_id u) db1 = Some u)) as [Hsame | Hchanged].
  - destruct (rotate_ledger_of_held now2 t u db1 Hholds Hsame) as [Hs2' Hl2].
    destruct (refresh_rotate now2 t u db1) as [r2 db2]. cbn [fst snd] in *.
    split; [exact Hs1 |]. split; [by left |]. split; [lia |].
    split; [exact Hl2 |]. intros Hne. by destruct Hne.
  - destruct Hs2 as [Hs2 | [Hs2 _]].
    + exfalso. revert Hs2. unfold refresh_rotate, save_versioned.
      destruct (findIndex _ (refreshTokens u)) as [i |];
        cbn zeta; cbn [_id set_refreshTokens];
        rewrite bool_decide_false by exact Hchanged; discriminate.
    + rewrite Hs2. split; [exact Hs1 |]. split; [by right |].
      split; [discriminate |]. split; [exact Hl1 |]. by intros _.
Qed.

End Race.

(** Two tabs redeem [alice_refresh] one millisecond apart: 200 and 500, and
    the ledger holds the token of the first rotation. *)
Lemma refresh_race_not_detected_witness :
  let req := with_refresh_cookie alice_refresh in
  let '(r1, r2, db') := refresh_race (env := example_env) 5999 6000 req req example_db in
  status r1 = 200 /\
  (status r2 = 200 \/ status r2 = 500) /\
  status r2 <> 403 /\
  ledger (_id alice_logged_in) db' <> [] /\
  (findById (_id alice_logged_in)
     (refresh_rotate (env := example_env) 5999 alice_refresh alice_logged_in example_db).2
   <> Some alice_logged_in ->
   r2 = internal_error /\
   db' = (refresh_rotate (env := example_env) 5999 alice_refresh alice_logged_in
            example_db).2).
Proof.
  apply (refresh_race_not_detected (env := example_env) 5999 6000
           (with_refresh_cookie alice_refresh) (with_refresh_cookie alice_refresh)
           example_db alice_refresh alice_logged_in).
  - vm_compute. reflexivity.
  - vm_compute. reflexivity.
  - vm_compute. reflexivity.
Defined.

(** The same race evaluated: 200 for the first, 500 for the second. *)
Example refresh_race_example :
  let req := with_refresh_cookie alice_refresh in
  let '(r1, r2, db') := refresh_race (env := example_env) 5999 6000 req req example_db in
  status r1 = 200 /\ r2 = internal_error /\
  ledger_tokens (_id alice) db' = [generateRefreshToken (env := example_env) 5999 alice_logged_in].
Proof. vm_compute. repeat split; reflexivity. Qed.

(** C3. Eleven successive logins of one identity leave eleven entries in its
    ledger: the login handler appends without evicting. *)
Theorem logins_exceed_cap :
  length (ledger (_id alice) (logins 11 1000 [alice; bob])) = 11%nat.
Proof. vm_compute. reflexivity. Qed.

(** C7. A request to [/api/auth/me] whose only credential is a valid bearer
    header is answered 401, while [/api/user/me] accepts the same request. *)
Theorem auth_me_ignores_bearer :
  verifyAccessToken (env := example_env) 5000 alice_access <> None /\
  handler_me (env := example_env) 5000 (with_bearer alice_access) example_db
    = Response 401 Untouched (Error "Not authenticated") /\
  handler_user_me (env := example_env) 5000 (with_bearer alice_access) example_db
    = Response 200 Untouched (Me (summary_of alice)).
Proof. vm_compute. repeat split. discriminate. Qed.

(** C9. A rotation served in the same clock second as the login reissues the
    very refresh token it was given; replaying that value is then answered
    200 again and the ledger is not emptied. *)
Theorem rotation_same_second_reissues :
  let login := handler_login (env := example_env) 5000 login_alice [alice; bob] in
  exists t,
    refresh_cookie_of login.1 = Some t /\
    let rotation := handler_refresh (env := example_env) 5400 (with_refresh_cookie t) login.2 in
    status rotation.1 = 200 /\
    refresh_cookie_of rotation.1 = Some t /\
    let replay :=
      handler_refresh (env := example_env) 5800 (with_refresh_cookie t) rotation.2 in
    status replay.1 = 200 /\
    ledger_tokens (_id alice) replay.2 = [t].
Proof.
  exists (generateRefreshToken (env := example_env) 5000 alice).
  vm_compute. repeat split.
Qed.

(** ** The client refresh coordinator *)

Lemma sent_replays (cs : list Client.config) : Client.sent (map Client.Send cs) = cs.
Proof.
  induction cs as [| c rest IH]; [reflexivity |].
  change (c :: Client.sent (map Client.Send rest) = c :: rest). by rewrite IH.
Qed.

Lemma no_refresh_in_replays (cs : list Client.config) :
  List.filter Client.is_refresh (map Client.Send cs) = [].
Proof. induction cs as [| c rest IH]; simpl; [reflexivity | exact IH]. Qed.

(** While a refresh is in flight, rejected calls are only queued, in order. *)
Lemma reject_all_in_flight (cs : list Client.config) (queue : list Client.config) :
  Forall (fun c => Client._retry c = false) cs ->
  Client.reject_all (map (fun c => (Some 401, c)) cs) (Client.Coordinator true queue)
  = (Client.Coordinator true (queue ++ cs), [], map (fun _ => Client.Queued) cs).
Proof.
  intros Hcs. revert queue.
  induction Hcs as [| c rest Hc Hrest IH]; intros queue; simpl.
  - by rewrite app_nil_r.
  - rewrite Hc. simpl. unfold push. rewrite IH.
    by rewrite <- app_assoc.
Qed.

Lemma on_rejected_other (code : option Z) (c : Client.config) (s : Client.coordinator) :
  code <> Some 401 -> Client.on_rejected code c s = (s, [], Client.Rejected).
Proof.
  intros Hcode. unfold Client.on_rejected.
  destruct code as [[| q | q] |]; try reflexivity.
  repeat (destruct q as [q | q |]; try reflexivity).
  congruence.
Qed.

(** Whatever is rejected and in whatever state, handling rejections alone
    posts at most one refresh, none while one is in flight, and replays
    nothing. *)
Lemma reject_all_single_flight (calls : list (option Z * Client.config))
    (s : Client.coordinator) :
  let '(s', effects, _) := Client.reject_all calls s in
  (length (List.filter Client.is_refresh effects)
   <= if Client.isRefreshing s then 0 else 1)%nat /\
  Client.sent effects = [] /\
  (Client.isRefreshing s = true -> Client.isRefreshing s' = true).
Proof.
  revert s. induction calls as [| [code c] rest IH]; intros s; simpl.
  - split; [destruct (Client.isRefreshing s); simpl; lia | split; [reflexivity | auto]].
  - destruct (Client.on_rejected code c s) as [[s1 e1] k1] eqn:E1.
    specialize (IH s1). destruct (Client.reject_all rest s1) as [[s2 e2] k2].
    destruct IH as (Hcount & Hsent & Hflag).
    assert (Hstep : (e1 = [] /\ Client.isRefreshing s1 = Client.isRefreshing s) \/
                    (e1 = [Client.PostRefresh] /\ Client.isRefreshing s = false /\
                     Client.isRefreshing s1 = true)).
    { destruct (decide (code = Some 401)) as [-> | Hcode].
      - revert E1. unfold Client.on_rejected.
        destruct (negb (Client._retry c)); [| intros [= <- <- _]; by left].
        destruct (Client.isRefreshing s) eqn:Hs; intros [= <- <- _]; [by left | by right].
      - rewrite (on_rejected_other code c s Hcode) in E1.
        injection E1 as <- <- _. by left. }
    destruct Hstep as [[-> Hs] | (-> & Hs & Hs1)].
    + rewrite <- Hs. simpl. auto.
    + rewrite Hs. rewrite Hs1 in Hcount. simpl. repeat split; [lia | exact Hsent | discriminate].
Qed.

(** One in-flight period.  Starting with no refresh in flight, a batch of
    calls rejected with 401 makes the coordinator post exactly one refresh
    and replay nothing;
    the first call awaits the refresh and the others are queued in arrival
    order.  When the refresh resolves, the queued calls are replayed in that
    order, then the first call, no further refresh is posted and the
    coordinator is idle again. *)
Lemma single_refresh_per_batch (c : Client.config) (cs : list Client.config)
    (tok : option token) :
  Client._retry c = false ->
  Forall (fun c' => Client._retry c' = false) cs ->
  let first := Client.Config (Client.url c) true in
  let '(s1, before, suspensions) :=
    Client.reject_all (map (fun c' => (Some 401, c')) (c :: cs)) Client.idle in
  List.filter Client.is_refresh before = [Client.PostRefresh] /\
  Client.sent before = [] /\
  suspensions = Client.Awaiting first :: map (fun _ => Client.Queued) cs /\
  Client.isRefreshing s1 = true /\
  Client.refreshSubscribers s1 = cs /\
  let '(s2, after) := Client.on_refresh_settled (Some tok) first s1 in
  Client.sent after = cs ++ [first] /\
  List.filter Client.is_refresh after = [] /\
  s2 = Client.idle.
Proof.
  intros Hc Hcs. cbn zeta.
  cbn [map Client.reject_all Client.on_rejected Client.idle Client.isRefreshing
       Client.refreshSubscribers].
  rewrite Hc. cbn [negb].
  rewrite (reject_all_in_flight cs [] Hcs). simpl.
  repeat (split; [reflexivity |]).
  unfold Client.sent. rewrite !omap_app, !List.filter_app.
  fold (Client.sent (map Client.Send cs)). rewrite sent_replays, no_refresh_in_replays.
  destruct tok as [t |]; [destruct (truthy t) |]; simpl; repeat split.
Qed.

Lemma single_refresh_per_batch_witness :
  let c := Client.Config "/api/notes/1" false in
  let first := Client.Config "/api/notes/1" true in
  let '(s1, before, suspensions) :=
    Client.reject_all (map (fun c' => (Some 401, c')) (c :: example_configs)) Client.idle in
  List.filter Client.is_refresh before = [Client.PostRefresh] /\
  Client.sent before = [] /\
  suspensions = Client.Awaiting first :: map (fun _ => Client.Queued) example_configs /\
  Client.isRefreshing s1 = true /\
  Client.refreshSubscribers s1 = example_configs /\
  let '(s2, after) := Client.on_refresh_settled (Some (Some alice_access)) first s1 in
  Client.sent after = example_configs ++ [first] /\
  List.filter Client.is_refresh after = [] /\
  s2 = Client.idle.
Proof.
  apply (single_refresh_per_batch (Client.Config "/api/notes/1" false) example_configs
           (Some alice_access)).
  - reflexivity.
  - unfold example_configs. repeat constructor.
Defined.

(** ** Ledger size *)

Section LedgerSize.

Context {env : Env}.

Lemma length_splice_found {A} (p : A -> bool) (l : list A) (i : nat) :
  findIndex p l = Some i -> (length (splice1 i l) + 1 = length l)%nat.
Proof.
  unfold splice1. revert i. induction l as [| x rest IH]; intros i; simpl; [discriminate |].
  destruct (p x).
  - intros [= <-]. simpl. lia.
  - destruct (findIndex p rest) as [j |]; simpl; [| discriminate].
    intros [= <-]. simpl. specialize (IH j eq_refl). lia.
Qed.

Lemma findById_save_other (id : string) (u : user) (db : DB) :
  id <> _id u -> findById id (save u db) = findById id db.
Proof. intros H. rewrite findById_save. by rewrite bool_decide_false. Qed.

Lemma ledger_save_other (id : string) (u : user) (db : DB) :
  id <> _id u -> ledger id (save u db) = ledger id db.
Proof. intros H. unfold ledger. by rewrite findById_save_other. Qed.


(** X2. A rotation answered 200 leaves the ledger with as many entries as it
    had when it had at most ten, and with one entry fewer when it had more:
    an over-long ledger is shortened by one per rotation, not cut to ten. *)
Theorem rotation_ledger_length (now : Z) (req : request) (db db' : DB) (r : response) :
  handler_refresh now req db = (r, db') ->
  status r = 200 ->
  exists t p,
    cookie_refresh_token req = Some t /\
    verifyRefreshToken now t = Some p /\
    let before := length (ledger (Jwt.userId (Jwt.data p)) db) in
    (1 <= before)%nat /\
    length (ledger (Jwt.userId (Jwt.data p)) db')
    = if (10 <? before)%nat then (before - 1)%nat else before.
Proof.
  unfold handler_refresh, refresh_lookup.
  destruct (negb (bool_decide (method req = "POST"%string))); [intros [= <- <-]; discriminate |].
  destruct (cookie_refresh_token req) as [t |]; [| intros [= <- <-]; discriminate].
  destruct (negb (truthy t)); [intros [= <- <-]; discriminate |].
  destruct (verifyRefreshToken now t) as [p |] eqn:Hv; [| intros [= <- <-]; discriminate].
  unfold User_findById.
  destruct (findById (Jwt.userId (Jwt.data p)) db) as [u |] eqn:Hf;
    [| destruct (castsToObjectId _); intros [= <- <-]; discriminate].
  assert (Hfu : findById (_id u) db = Some u)
    by (by destruct (findById_Some _ _ _ Hf) as [-> _]).
  unfold refresh_rotate, save_versioned.
  destruct (findIndex _ (refreshTokens u)) as [i |] eqn:Hi;
    [| stored_as_read Hfu; intros [= <- <-]; discriminate].
  cbn zeta. stored_as_read Hfu. intros [= <- <-] _.
  exists t, p. split; [reflexivity |]. split; [exact Hv |]. cbn zeta.
  rewrite (ledger_save_read _ u _ db Hf). unfold ledger. rewrite Hf.
  pose proof (length_splice_found _ _ _ Hi) as Hlen.
  set (pushed := push _ _).
  assert (Hpushed : length pushed = length (refreshTokens u)).
  { unfold pushed, push. rewrite length_app. simpl. lia. }
  rewrite Hpushed. split; [lia |].
  destruct (10 <? length (refreshTokens u))%nat; [| exact Hpushed].
  unfold shift. destruct pushed; simpl in *; lia.
Qed.

End LedgerSize.

(** ** Introspection and token values *)

Section Introspection.

Context {env : Env}.

(** [/api/auth/me] accepts a valid access credential in the cookie carrier. *)
Lemma auth_me_cookie_accepts (now : Z) (req : request) (db : DB) (t : token)
    (p : Jwt.payload) (u : user) :
  method req = "GET"%string ->
  cookie_access_token req = Some t ->
  verifyAccessToken now t = Some p ->
  findById (Jwt.userId (Jwt.data p)) db = Some u ->
  handler_me now req db = Response 200 Untouched (UserDoc (summary_of u)).
Proof.
  intros Hm Hc Hv Hf. unfold handler_me, User_findById.
  rewrite Hm, Hc, (verify_truthy _ _ _ _ Hv), Hv, Hf. reflexivity.
Qed.

(** Without that cookie it answers 401 whatever the other headers are. *)
Lemma auth_me_without_cookie (now : Z) (req : request) (db : DB) :
  method req = "GET"%string ->
  cookie_access_token req = None ->
  handler_me now req db = Response 401 Untouched (Error "Not authenticated").
Proof. intros Hm Hc. unfold handler_me. rewrite Hm, Hc. reflexivity. Qed.

(** [getUserFromReq] accepts a valid access credential in the bearer header. *)
Lemma getUserFromReq_bearer (now : Z) (req : request) (db : DB) (t : token)
    (p : Jwt.payload) :
  authorization req = Some [Jwt.Opaque "Bearer"; t] ->
  verifyAccessToken now t = Some p ->
  getUserFromReq now req db = findById (Jwt.userId (Jwt.data p)) db.
Proof.
  intros Ha Hv. unfold getUserFromReq, bearer. rewrite Ha.
  rewrite bool_decide_true by reflexivity.
  pose proof (verify_truthy _ _ _ _ Hv) as Ht.
  rewrite Ht. simpl. rewrite Ht, Hv. reflexivity.
Qed.

(** Refresh tokens issued to one identity within one clock second are the
    same literal value. *)
Lemma refresh_token_same_second (now1 now2 : Z) (u : user) :
  now1 / 1000 = now2 / 1000 ->
  generateRefreshToken now1 u = generateRefreshToken now2 u.
Proof. intros H. unfold generateRefreshToken, Jwt.sign. by rewrite H. Qed.

End Introspection.

(** ** The store invariants hold along every run *)

Section Invariants.

Context {env : Env}.

Lemma save_Forall (P : user -> Prop) (u : user) (db : DB) :
  Forall P db -> P u -> Forall P (save u db).
Proof.
  intros Hdb Hu. induction Hdb as [| d rest Hd Hrest IH]; simpl.
  - constructor.
  - case_bool_decide; constructor; assumption.
Qed.

Lemma find_Forall (P : user -> Prop) (q : user -> bool) (u : user) (db : DB) :
  Forall P db -> List.find q db = Some u -> P u.
Proof.
  rewrite Forall_forall. intros Hdb Hf. apply find_some in Hf as [Hin _].
  apply Hdb. by apply list_elem_of_In.
Qed.

Lemma owned_refresh_token (now : Z) (u v : user) :
  _id v = _id u -> owned_by v (TokenEntry (generateRefreshToken now u) now).
Proof. intros H. unfold owned_by. simpl. congruence. Qed.

Lemma owned_set (u : user) (l l' : list token_entry) :
  Forall (owned_by u) l -> Forall (owned_by (set_refreshTokens u l')) l.
Proof. intros H. eapply Forall_impl; [exact H |]. intros e He. exact He. Qed.

Lemma Forall_shift {A} (P : A -> Prop) (l : list A) : Forall P l -> Forall P (shift l).
Proof. intros H. destruct H; simpl; [constructor | assumption]. Qed.

Lemma Forall_List_filter {A} (P : A -> Prop) (q : A -> bool) (l : list A) :
  Forall P l -> Forall P (List.filter q l).
Proof.
  intros H. induction H as [| x rest Hx Hrest IH]; simpl; [constructor |].
  destruct (q x); [constructor |]; assumption.
Qed.

Lemma rotate_ledgers_owned (now : Z) (t : token) (u : user) (db : DB) :
  Forall (owned_by u) (refreshTokens u) ->
  ledgers_owned db ->
  ledgers_owned (refresh_rotate now t u db).2.
Proof.
  intros Hu Hdb. unfold refresh_rotate, save_versioned.
  destruct (findIndex _ (refreshTokens u)) as [i |]; cbn zeta;
    (destruct (bool_decide _); [| assumption]); simpl.
  - apply save_Forall; [assumption |]. simpl.
    assert (Hpushed : Forall (owned_by u)
              (push (TokenEntry (generateRefreshToken now u) now)
                 (splice1 i (refreshTokens u)))).
    { unfold push, splice1. apply Forall_app. split.
      - by apply Forall_delete.
      - constructor; [by apply owned_refresh_token | constructor]. }
    apply owned_set.
    destruct (10 <? _)%nat; [by apply Forall_shift | assumption].
  - apply save_Forall; [assumption | constructor].
Qed.

Lemma serve_ledgers_owned (now : Z) (c : call) (db : DB) :
  ledgers_owned db -> ledgers_owned (serve now c db).2.
Proof.
  intros Hdb. destruct c as [req | oid req | req | req | req]; simpl.
  - unfold handler_login.
    destruct (negb _); [assumption |].
    destruct (validateLogin _) as [[e pw] | errs]; [| assumption].
    destruct (findOne_email e db) as [u |] eqn:Hu; [| assumption].
    destruct (negb _); [assumption |]. simpl.
    apply save_Forall; [assumption |]. simpl. apply owned_set.
    unfold push. apply Forall_app. split.
    + exact (find_Forall _ _ u db Hdb Hu).
    + constructor; [by apply owned_refresh_token | constructor].
  - unfold handler_register.
    destruct (negb _); [assumption |].
    destruct (validateRegistration _) as [[[n e] pw] | errs]; [| assumption].
    destruct (findOne_email e db); [assumption |]. simpl.
    apply save_Forall.
    + apply Forall_app. split; [assumption |]. repeat constructor.
    + simpl. constructor; [| constructor]. unfold owned_by. reflexivity.
  - unfold handler_refresh, refresh_lookup.
    destruct (negb _); [assumption |].
    destruct (cookie_refresh_token req) as [rt |]; [| assumption].
    destruct (negb _); [assumption |].
    destruct (verifyRefreshToken now rt) as [p |]; [| assumption].
    unfold User_findById.
    destruct (findById _ db) as [u |] eqn:Hu; [| by destruct (castsToObjectId _)].
    apply rotate_ledgers_owned; [| assumption].
    exact (find_Forall _ _ u db Hdb Hu).
  - unfold handler_logout.
    destruct (negb _); [assumption |]. simpl.
    destruct (cookie_refresh_token req) as [rt |]; [| assumption].
    destruct (truthy rt); [| assumption].
    destruct (findOne_token rt db) as [u |] eqn:Hu; [| assumption].
    apply save_Forall; [assumption |]. simpl. apply owned_set.
    apply Forall_List_filter. exact (find_Forall _ _ u db Hdb Hu).
  - assumption.
Qed.

(** Identifiers stay unique as long as [User.create] hands out fresh ones. *)
Lemma serve_unique_ids (now : Z) (c : call) (db : DB) :
  unique_ids db ->
  (forall oid req, c = Register oid req -> oid ∉ map _id db) ->
  unique_ids (serve now c db).2.
Proof.
  unfold unique_ids. intros Hdb Hnew.
  destruct c as [req | oid req | req | req | req]; simpl.
  - unfold handler_login.
    destruct (negb _); [assumption |].
    destruct (validateLogin _) as [[e pw] | errs]; [| assumption].
    destruct (findOne_email e db); [| assumption].
    destruct (negb _); [assumption |]. simpl. by rewrite save_ids.
  - unfold handler_register.
    destruct (negb _); [assumption |].
    destruct (validateRegistration _) as [[[n e] pw] | errs]; [| assumption].
    destruct (findOne_email e db); [assumption |]. simpl.
    rewrite save_ids, map_app. simpl. apply NoDup_app. split; [assumption |].
    split; [| apply NoDup_singleton].
    intros x Hx Hoid. apply list_elem_of_singleton in Hoid. subst x.
    exact (Hnew oid req eq_refl Hx).
  - unfold handler_refresh.
    destruct (refresh_lookup now req db); [assumption |].
    unfold refresh_rotate, save_versioned.
    destruct (findIndex _ _); cbn zeta; (destruct (bool_decide _); [| assumption]);
      simpl; by rewrite save_ids.
  - unfold handler_logout.
    destruct (negb _); [assumption |]. simpl.
    destruct (cookie_refresh_token req) as [rt |]; [| assumption].
    destruct (truthy rt); [| assumption].
    destruct (findOne_token rt db); [| assumption].
    by rewrite save_ids.
  - assumption.
Qed.

End Invariants.

(** ** Further properties of the handlers *)

Section HandlerFacts.

Context {env : Env}.

Lemma verify_sign (now now' : Z) (c : Jwt.claims) (secret : string) (span : Z) :
  now' / 1000 < now / 1000 + span ->
  Jwt.verify now' (Jwt.sign now c secret span) secret
  = Some (Jwt.Payload c (now / 1000) (now / 1000 + span)).
Proof.
  intros H. unfold Jwt.verify, Jwt.sign. cbn [Jwt.exp].
  rewrite bool_decide_true by reflexivity.
  destruct (Z.geb_spec (now' / 1000) (now / 1000 + span)); [lia | reflexivity].
Qed.

Lemma refresh_found (now : Z) (req : request) (db : DB) (t : token)
    (p : Jwt.payload) (u : user) :
  method req = "POST"%string ->
  cookie_refresh_token req = Some t ->
  verifyRefreshToken now t = Some p ->
  findById (Jwt.userId (Jwt.data p)) db = Some u ->
  handler_refresh now req db = refresh_rotate now t u db.
Proof.
  intros Hm Hc Hv Hf. unfold handler_refresh, refresh_lookup, User_findById.
  by rewrite Hm, Hc, (verify_truthy _ _ _ _ Hv), Hv, Hf.
Qed.

(** X3. A refresh token that verifies and whose identity exists but does not
    hold it is answered 403 with the cookies cleared; that identity's ledger
    is emptied, every other ledger and the set of identities are unchanged. *)
Theorem reuse_clears_one_ledger (now : Z) (req : request) (db : DB) (t : token)
    (p : Jwt.payload) (u : user) :
  method req = "POST"%string ->
  cookie_refresh_token req = Some t ->
  verifyRefreshToken now t = Some p ->
  findById (Jwt.userId (Jwt.data p)) db = Some u ->
  holds t u = false ->
  (handler_refresh now req db).1
    = Response 403 Cleared (Error "Refresh token reuse detected") /\
  ledger (Jwt.userId (Jwt.data p)) (handler_refresh now req db).2 = [] /\
  (forall id, id <> Jwt.userId (Jwt.data p) ->
     ledger id (handler_refresh now req db).2 = ledger id db) /\
  map _id (handler_refresh now req db).2 = map _id db.
Proof.
  intros Hm Hc Hv Hf Hholds.
  rewrite (refresh_found now req db t p u Hm Hc Hv Hf).
  destruct (findById_Some _ _ _ Hf) as [Hid _].
  assert (Hfu : findById (_id u) db = Some u) by (by rewrite Hid).
  destruct (rotate_absent t now u db Hfu Hholds) as [Hr Hl].
  split; [exact Hr |]. split; [by rewrite <- Hid |].
  unfold refresh_rotate, save_versioned.
  destruct (findIndex _ (refreshTokens u)) as [i |] eqn:Hi.
  - exfalso. assert (Hnone : findIndex (fun e => bool_decide (token_of e = t))
                               (refreshTokens u) = None)
      by (by apply findIndex_None).
    congruence.
  - stored_as_read Hfu. simpl. split; [| apply save_ids].
    intros id Hne. apply ledger_save_other. simpl. congruence.
Qed.

(** X4. Access and refresh tokens are verified alike: an unexpired access
    token presented in the refresh cookie passes the signature check, is not
    found in a ledger of refresh tokens, and so is answered 403 and empties
    the identity's ledger. *)
Theorem access_token_as_refresh (issued now : Z) (req : request) (db : DB) (v u : user) :
  method req = "POST"%string ->
  cookie_refresh_token req = Some (generateAccessToken issued v) ->
  now / 1000 < issued / 1000 + 15 * 60 ->
  findById (_id v) db = Some u ->
  Forall (fun e => carries_email (token_of e) = false) (refreshTokens u) ->
  (handler_refresh now req db).1
    = Response 403 Cleared (Error "Refresh token reuse detected") /\
  ledger (_id v) (handler_refresh now req db).2 = [].
Proof.
  intros Hm Hc Hnow Hf Hshape.
  set (t := generateAccessToken issued v) in *.
  assert (Hv : verifyRefreshToken now t
               = Some (Jwt.Payload (Jwt.Claims (_id v) (Some (email v)) (Some (isAdmin v)))
                         (issued / 1000) (issued / 1000 + ACCESS_TOKEN_EXPIRY))).
  { unfold verifyRefreshToken, t, generateAccessToken. apply verify_sign.
    unfold ACCESS_TOKEN_EXPIRY. exact Hnow. }
  assert (Hholds : holds t u = false).
  { unfold holds. apply not_true_is_false. intros Hex.
    apply existsb_exists in Hex as (e & Hin & He). apply bool_decide_eq_true in He.
    rewrite Forall_forall in Hshape. apply list_elem_of_In, Hshape in Hin.
    rewrite He in Hin. unfold t, generateAccessToken, Jwt.sign, carries_email in Hin.
    vm_compute in Hin. discriminate. }
  rewrite (refresh_found now req db t _ u Hm Hc Hv Hf).
  destruct (findById_Some _ _ _ Hf) as [Hid _].
  assert (Hfu : findById (_id u) db = Some u) by (by rewrite Hid).
  destruct (rotate_absent t now u db Hfu Hholds) as [Hr Hl].
  split; [exact Hr | by rewrite <- Hid].
Qed.


End HandlerFacts.

Section SessionFacts.

Context {env : Env}.

Lemma logout_drops_token (req : request) (db : DB) (t : token) (p : Jwt.payload)
    (key : string) (u : user) :
  unique_ids db ->
  ledgers_owned db ->
  method req = "POST"%string ->
  cookie_refresh_token req = Some t ->
  t = Jwt.Signed p key ->
  findById (Jwt.userId (Jwt.data p)) db = Some u ->
  exists u', findById (Jwt.userId (Jwt.data p)) (handler_logout req db).2 = Some u' /\
             holds t u' = false.
Proof.
  intros Hnd Hown Hm Hc Ht Hf. unfold handler_logout. rewrite Hm, Hc. simpl.
  assert (Htruthy : truthy t = true) by (by rewrite Ht).
  rewrite Htruthy.
  destruct (findById_Some _ _ _ Hf) as [Hid Hin].
  destruct (findOne_token t db) as [w |] eqn:Hw.
  - unfold findOne_token in Hw. apply find_some in Hw as [Hwin Hwholds].
    assert (Hwid : _id w = Jwt.userId (Jwt.data p)).
    { unfold ledgers_owned in Hown. rewrite Forall_forall in Hown.
      apply list_elem_of_In, Hown in Hwin. rewrite Forall_forall in Hwin.
      unfold holds in Hwholds. apply existsb_exists in Hwholds as (e & He & Heq).
      apply bool_decide_eq_true in Heq. apply list_elem_of_In, Hwin in He.
      unfold owned_by in He. rewrite Heq, Ht in He. congruence. }
    eexists. split.
    + rewrite findById_save. simpl. rewrite bool_decide_true by exact Hwid.
      rewrite Hf. reflexivity.
    + unfold holds. simpl. apply not_true_is_false. intros Hex.
      apply existsb_exists in Hex as (e & He & Heq).
      apply filter_In in He as [_ He]. rewrite Heq in He. discriminate.
  - exists u. split; [exact Hf |].
    unfold findOne_token in Hw. exact (find_none _ _ Hw u Hin).
Qed.

(** X6. After a logout that presented a refresh token, presenting the same
    token to the refresh route, while it still verifies, is treated as reuse:
    403, and whatever other refresh tokens the identity held are dropped. *)
Theorem logout_then_refresh (now : Z) (out again : request) (db : DB) (t : token)
    (p : Jwt.payload) (u : user) :
  unique_ids db ->
  ledgers_owned db ->
  method out = "POST"%string ->
  cookie_refresh_token out = Some t ->
  method again = "POST"%string ->
  cookie_refresh_token again = Some t ->
  verifyRefreshToken now t = Some p ->
  findById (Jwt.userId (Jwt.data p)) db = Some u ->
  let db1 := (handler_logout out db).2 in
  (handler_refresh now again db1).1
    = Response 403 Cleared (Error "Refresh token reuse detected") /\
  ledger (Jwt.userId (Jwt.data p)) (handler_refresh now again db1).2 = [].
Proof.
  intros Hnd Hown Hm1 Hc1 Hm2 Hc2 Hv Hf. cbn zeta.
  destruct (verify_signed _ _ _ _ Hv) as [Ht _].
  destruct (logout_drops_token out db t p JWT_SECRET u Hnd Hown Hm1 Hc1 Ht Hf)
    as (u' & Hf' & Hholds).
  rewrite (refresh_found now again _ t p u' Hm2 Hc2 Hv Hf').
  destruct (findById_Some _ _ _ Hf') as [Hid _].
  assert (Hfu : findById (_id u') (handler_logout out db).2 = Some u') by (by rewrite Hid).
  destruct (rotate_absent t now u' _ Hfu Hholds) as [Hr Hl].
  split; [exact Hr | by rewrite <- Hid].
Qed.

(** X7. The access token a login returns authenticates as the identity that
    logged in until its fifteen minutes are over, in either carrier:
    [/api/auth/me] with it in the cookie and [/api/user/me] with it in the
    bearer header both answer 200 with that identity's summary. *)
Theorem login_then_me (now later : Z) (req viaCookie viaHeader : request)
    (db db' : DB) (s : summary) (a : token) (c : set_cookie) :
  unique_ids db ->
  handler_login now req db = (Response 200 c (UserToken s a), db') ->
  later / 1000 < now / 1000 + 15 * 60 ->
  method viaCookie = "GET"%string ->
  cookie_access_token viaCookie = Some a ->
  method viaHeader = "GET"%string ->
  authorization viaHeader = Some [Jwt.Opaque "Bearer"; a] ->
  handler_me later viaCookie db' = Response 200 Untouched (UserDoc s) /\
  handler_user_me later viaHeader db' = Response 200 Untouched (Me s).
Proof.
  intros Hnd. unfold handler_login.
  destruct (negb _); [discriminate |].
  destruct (validateLogin _) as [[e pw] | errs]; [| discriminate].
  destruct (findOne_email e db) as [u |] eqn:Hu; [| discriminate].
  destruct (negb _); [discriminate |].
  intros [= <- <- <- <-] Hlater Hm1 Hc1 Hm2 Ha2.
  apply find_some in Hu as [Hin _].
  pose proof (findById_unique u db Hnd Hin) as Hf.
  set (u' := set_refreshTokens u _).
  assert (Hf' : findById (_id u) (save u' db) = Some u')
    by (by apply (findById_save_read _ u)).
  assert (Hv : verifyAccessToken later (generateAccessToken now u)
               = Some (Jwt.Payload (Jwt.Claims (_id u) (Some (email u)) (Some (isAdmin u)))
                         (now / 1000) (now / 1000 + ACCESS_TOKEN_EXPIRY))).
  { unfold verifyAccessToken, generateAccessToken. apply verify_sign.
    unfold ACCESS_TOKEN_EXPIRY. exact Hlater. }
  split.
  - unfold handler_me, User_findById. rewrite Hm1, Hc1, (verify_truthy _ _ _ _ Hv), Hv. simpl.
    rewrite Hf'. reflexivity.
  - unfold handler_user_me.
    rewrite Hm2, (getUserFromReq_bearer later viaHeader _ _ _ Ha2 Hv). simpl.
    rewrite Hf'. reflexivity.
Qed.

(** X8. [getUserFromReq] never falls back from a bearer token to the cookie:
    a non-empty bearer token that does not verify makes the request
    unauthenticated whatever the [access_token] cookie holds.  A header that
    is not [Bearer] followed by one non-empty token is ignored, and the
    request is judged by its cookie alone. *)
Theorem bearer_shadows_cookie (now : Z) (req : request) (db : DB) :
  (forall t, authorization req = Some [Jwt.Opaque "Bearer"; t] ->
             truthy t = true ->
             verifyAccessToken now t = None ->
             getUserFromReq now req db = None) /\
  ((forall t, authorization req = Some [Jwt.Opaque "Bearer"; t] -> truthy t = false) ->
   getUserFromReq now req db
   = getUserFromReq now
       (Request (method req) None (cookie_access_token req)
          (cookie_refresh_token req) (payload req)) db).
Proof.
  split.
  - intros t Ha Ht Hv. unfold getUserFromReq, bearer. rewrite Ha.
    rewrite bool_decide_true by reflexivity. rewrite Ht. cbn [negb].
    rewrite Ht, Hv. reflexivity.
  - intros H. unfold getUserFromReq, bearer. cbn [authorization cookie_access_token].
    destruct (authorization req) as [[| scheme [| value [| x rest]]] |]; try reflexivity.
    case_bool_decide as Hs; [| reflexivity].
    subst scheme. by rewrite (H value eq_refl).
Qed.

(** X9. A refresh token is accepted wherever an access token is: until its
    seven days are over it authenticates its identity in the bearer header
    and in the [access_token] cookie, whether or not any ledger holds it. *)
Theorem refresh_token_as_access (issued now : Z) (v u : user) (db : DB)
    (viaCookie viaHeader : request) :
  now / 1000 < issued / 1000 + 7 * 24 * 60 * 60 ->
  findById (_id v) db = Some u ->
  method viaCookie = "GET"%string ->
  cookie_access_token viaCookie = Some (generateRefreshToken issued v) ->
  authorization viaHeader = Some [Jwt.Opaque "Bearer"; generateRefreshToken issued v] ->
  handler_me now viaCookie db = Response 200 Untouched (UserDoc (summary_of u)) /\
  getUserFromReq now viaHeader db = Some u.
Proof.
  intros Hnow Hf Hm Hc Ha.
  assert (Hv : verifyAccessToken now (generateRefreshToken issued v)
               = Some (Jwt.Payload (Jwt.Claims (_id v) None None)
                         (issued / 1000) (issued / 1000 + REFRESH_TOKEN_EXPIRY))).
  { unfold verifyAccessToken, generateRefreshToken. apply verify_sign.
    unfold REFRESH_TOKEN_EXPIRY. exact Hnow. }
  split.
  - unfold handler_me, User_findById. rewrite Hm, Hc, (verify_truthy _ _ _ _ Hv), Hv. simpl.
    rewrite Hf. reflexivity.
  - rewrite (getUserFromReq_bearer now viaHeader db _ _ Ha Hv). exact Hf.
Qed.

End SessionFacts.

Section RegistrationFacts.

Context {env : Env}.

Lemma save_In (u : user) (db : DB) :
  (exists d, In d db /\ _id d = _id u) -> In u (save u db).
Proof.
  intros (d & Hin & Hid). induction db as [| x rest IH]; simpl in *; [contradiction |].
  case_bool_decide as Hx; [by left |].
  right. apply IH. destruct Hin as [-> | Hin]; [contradiction | exact Hin].
Qed.

Lemma find_In_Some {A} (q : A -> bool) (x : A) (l : list A) :
  In x l -> q x = true -> List.find q l <> None.
Proof.
  intros Hin Hq Hnone. pose proof (find_none _ _ Hnone x Hin). congruence.
Qed.

Lemma findById_app_fresh (id : string) (db more : DB) :
  id ∉ map _id more -> findById id (db ++ more) = findById id db.
Proof.
  intros Hfresh. unfold findById. induction db as [| d rest IH]; simpl.
  - destruct (List.find _ more) as [u |] eqn:Hu; [| reflexivity].
    exfalso. apply find_some in Hu as [Hin Hid]. apply bool_decide_eq_true in Hid.
    apply Hfresh. rewrite <- Hid. apply list_elem_of_fmap.
    exists u. split; [reflexivity | by apply list_elem_of_In].
  - destruct (bool_decide (_id d = id)); [reflexivity | exact IH].
Qed.

(** X10. A registration answered 200, given an [_id] no document has, adds
    one identity after the existing ones, not an administrator, whose ledger
    is the one refresh token it was issued; the ledgers of the existing
    identities are unchanged.  Registering the same body again, at any time
    and with any [_id], is answered 400 and changes nothing. *)
Theorem register_effect (now : Z) (oid : string) (req : request) (db db' : DB)
    (r : response) :
  oid ∉ map _id db ->
  handler_register now oid req db = (r, db') ->
  status r = 200 ->
  (exists u, _id u = oid /\ isAdmin u = false /\ db' = db ++ [u] /\
     refresh_cookie_of r = Some (generateRefreshToken now u) /\
     refreshTokens u = [TokenEntry (generateRefreshToken now u) now]) /\
  (forall id, id <> oid -> ledger id db' = ledger id db) /\
  (forall now' oid',
     handler_register now' oid' req db'
     = (Response 400 Untouched (Error "User with this email already exists"), db')).
Proof.
  intros Hfresh. unfold handler_register.
  destruct (negb (bool_decide (method req = "POST"%string))) eqn:Hm;
    [intros [= <- <-]; discriminate |].
  destruct (validateRegistration (payload req)) as [[[n e] pw] | errs] eqn:Hval;
    [| intros [= <- <-]; discriminate].
  destruct (findOne_email e db) as [x |] eqn:He; [intros [= <- <-]; discriminate |].
  cbn zeta. intros [= <- <-] _.
  set (u := User oid n e (bcrypt_hash pw) false []).
  set (u' := set_refreshTokens u (push (TokenEntry (generateRefreshToken now u) now) [])).
  assert (Hsave : save u' (db ++ [u]) = db ++ [u']).
  { clear He. induction db as [| d rest IH]; simpl.
    - rewrite bool_decide_true by reflexivity. reflexivity.
    - simpl in Hfresh. apply not_elem_of_cons in Hfresh as [Hne Hrest].
      rewrite bool_decide_false by (simpl; congruence).
      f_equal. by apply IH. }
  split; [| split].
  - exists u'. rewrite Hsave. repeat split; reflexivity.
  - intros id Hid. rewrite Hsave. unfold ledger. rewrite findById_app_fresh; [reflexivity |].
    simpl. intros Hin. apply list_elem_of_singleton in Hin. congruence.
  - intros now' oid'. rewrite Hsave.
    destruct (findOne_email e (db ++ [u'])) as [y |] eqn:Hy; [reflexivity |].
    exfalso. unfold findOne_email in Hy.
    apply (find_In_Some (fun v => bool_decide (email v = e)) u' (db ++ [u'])); try assumption.
    + apply in_or_app. right. by left.
    + by apply bool_decide_eq_true.
Qed.

Lemma serve_refresh_only (now : Z) (c : call) (db : DB) :
  ledgers_refresh_only db -> ledgers_refresh_only (serve now c db).2.
Proof.
  unfold ledgers_refresh_only.
  intros Hdb. destruct c as [req | oid req | req | req | req]; simpl.
  - unfold handler_login.
    destruct (negb _); [assumption |].
    destruct (validateLogin _) as [[e pw] | errs]; [| assumption].
    destruct (findOne_email e db) as [u |] eqn:Hu; [| assumption].
    destruct (negb _); [assumption |]. simpl.
    apply save_Forall; [assumption |]. simpl.
    unfold push. apply Forall_app. split.
    + exact (find_Forall _ _ u db Hdb Hu).
    + constructor; [reflexivity | constructor].
  - unfold handler_register.
    destruct (negb _); [assumption |].
    destruct (validateRegistration _) as [[[n e] pw] | errs]; [| assumption].
    destruct (findOne_email e db); [assumption |]. simpl.
    apply save_Forall.
    + apply Forall_app. split; [assumption |]. repeat constructor.
    + simpl. constructor; [reflexivity | constructor].
  - unfold handler_refresh, refresh_lookup.
    destruct (negb _); [assumption |].
    destruct (cookie_refresh_token req) as [rt |]; [| assumption].
    destruct (negb _); [assumption |].
    destruct (verifyRefreshToken now rt) as [p |]; [| assumption].
    unfold User_findById.
    destruct (findById _ db) as [u |] eqn:Hu; [| by destruct (castsToObjectId _)].
    pose proof (find_Forall _ _ u db Hdb Hu) as Hclean. simpl in Hclean.
    unfold refresh_rotate, save_versioned.
    destruct (findIndex _ (refreshTokens u)) as [i |]; cbn zeta;
      (destruct (bool_decide _); [| assumption]); simpl.
    + apply save_Forall; [assumption |]. simpl.
      assert (Hpushed : Forall (fun e => carries_email (token_of e) = false)
                (push (TokenEntry (generateRefreshToken now u) now)
                   (splice1 i (refreshTokens u)))).
      { unfold push, splice1. apply Forall_app. split.
        - by apply Forall_delete.
        - constructor; [reflexivity | constructor]. }
      destruct (10 <? _)%nat; [by apply Forall_shift | assumption].
    + apply save_Forall; [assumption | constructor].
  - unfold handler_logout.
    destruct (negb _); [assumption |]. simpl.
    destruct (cookie_refresh_token req) as [rt |]; [| assumption].
    destruct (truthy rt); [| assumption].
    destruct (findOne_token rt db) as [u |] eqn:Hu; [| assumption].
    apply save_Forall; [assumption |]. simpl.
    apply Forall_List_filter. exact (find_Forall _ _ u db Hdb Hu).
  - assumption.
Qed.

(** X11. Starting from the empty collection, after any run of logins,
    registrations, refreshes, logouts and introspections in which every
    registration is given a fresh [_id], the identifiers are unique and every
    ledger entry is a refresh token (no [email] claim) naming the identity
    that holds it. *)
Theorem run_store_invariants (calls : list (Z * call)) :
  fresh_ids calls [] ->
  unique_ids (run calls []) /\
  ledgers_owned (run calls []) /\
  ledgers_refresh_only (run calls []).
Proof.
  assert (Hgen : forall db,
            fresh_ids calls db ->
            unique_ids db -> ledgers_owned db -> ledgers_refresh_only db ->
            unique_ids (run calls db) /\ ledgers_owned (run calls db) /\
            ledgers_refresh_only (run calls db)).
  { induction calls as [| [now c] rest IH]; intros db Hfresh Hu Ho Hr; simpl.
    - auto.
    - destruct Hfresh as [Hc Hrest]. apply IH.
      + exact Hrest.
      + by apply serve_unique_ids.
      + by apply serve_ledgers_owned.
      + by apply serve_refresh_only. }
  intros Hfresh. apply Hgen; [exact Hfresh | | |].
  - apply NoDup_nil_2.
  - constructor.
  - constructor.
Qed.

(** X12. The administration route answers with the documents only to a
    requester whose stored document is an administrator's; the [isAdmin]
    claim of the token plays no part, and what is then returned is the whole
    collection, password hashes and ledgers included. *)
Theorem admin_users_only_for_stored_admin (now : Z) (req : request) (db : DB) :
  (forall users, handler_admin_users now req db = AllUsers users ->
     users = db /\
     exists u, getUserFromReq now req db = Some u /\ In u db /\ isAdmin u = true) /\
  (forall issued v u,
     authorization req = Some [Jwt.Opaque "Bearer"; generateAccessToken issued v] ->
     now / 1000 < issued / 1000 + 15 * 60 ->
     findById (_id v) db = Some u ->
     isAdmin u = false ->
     handler_admin_users now req db = NotAdmin).
Proof.
  split.
  - intros users. unfold handler_admin_users.
    destruct (getUserFromReq now req db) as [u |] eqn:Hu; [| discriminate].
    destruct (isAdmin u) eqn:Hadmin; [| discriminate]. simpl.
    case_bool_decide; [| discriminate].
    intros [= <-]. split; [reflexivity |]. exists u. split; [reflexivity |].
    split; [| exact Hadmin].
    revert Hu. unfold getUserFromReq.
    destruct (match bearer req with Some _ => _ | None => _ end) as [t |]; [| discriminate].
    destruct (negb (truthy t)); [discriminate |].
    destruct (verifyAccessToken now t); [| discriminate].
    intros Hf. by destruct (findById_Some _ _ _ Hf).
  - intros issued v u Ha Hnow Hf Hadmin. unfold handler_admin_users.
    assert (Hv : verifyAccessToken now (generateAccessToken issued v)
                 = Some (Jwt.Payload
                           (Jwt.Claims (_id v) (Some (email v)) (Some (isAdmin v)))
                           (issued / 1000) (issued / 1000 + ACCESS_TOKEN_EXPIRY))).
    { unfold verifyAccessToken, generateAccessToken. apply verify_sign.
      unfold ACCESS_TOKEN_EXPIRY. exact Hnow. }
    rewrite (getUserFromReq_bearer now req db _ _ Ha Hv). simpl.
    rewrite Hf, Hadmin. reflexivity.
Qed.

End RegistrationFacts.

(** ** The interceptor under arbitrary arrivals *)

Lemma on_rejected_cases (code : option Z) (c : Client.config) (s : Client.coordinator) :
  (Client.on_rejected code c s = (s, [], Client.Rejected)) \/
  (Client.isRefreshing s = true /\
   Client.on_rejected code c s
   = (Client.Coordinator true (Client.refreshSubscribers s ++ [c]), [], Client.Queued)) \/
  (Client.isRefreshing s = false /\
   Client.on_rejected code c s
   = (Client.Coordinator true (Client.refreshSubscribers s), [Client.PostRefresh],
      Client.Awaiting (Client.Config (Client.url c) true))).
Proof.
  destruct (decide (code = Some 401)) as [-> | Hcode].
  - unfold Client.on_rejected.
    destruct (negb (Client._retry c)); [| by left].
    destruct (Client.isRefreshing s) eqn:Hs; [right; left | right; right]; by split.
  - left. by apply on_rejected_other.
Qed.

Lemma loop_step_consistent (e : Loop.event) (s : Loop.state) :
  Loop.consistent s -> Loop.consistent (Loop.step e s).1.
Proof.
  intros Hs. destruct e as [code c | settled]; simpl.
  - destruct (on_rejected_cases code c (Loop.coordinator s))
      as [H | [[Hflag H] | [Hflag H]]]; rewrite H; simpl.
    + destruct s. exact Hs.
    + destruct Hs as [[_ Hc] | [Hf _]]; [| congruence]. left. by split.
    + destruct Hs as [[Hf _] | (_ & Ha & Hq)]; [congruence |].
      left. split; [reflexivity |]. rewrite Ha. by eexists.
  - destruct (Loop.awaiting s) as [| c rest] eqn:Ha; [exact Hs |].
    destruct Hs as [[_ [c' Hc']] | (_ & Hnil & _)]; [| congruence].
    rewrite Ha in Hc'. injection Hc' as -> ->.
    destruct settled as [tok |]; simpl; right; by repeat split.
Qed.

Lemma loop_step_posts (e : Loop.event) (s : Loop.state) :
  Loop.consistent s ->
  match e with
  | Loop.Rejection _ _ =>
      (length (List.filter Client.is_refresh (Loop.step e s).2) + length (Loop.awaiting s)
       = length (Loop.awaiting (Loop.step e s).1))%nat
  | Loop.Settlement _ =>
      List.filter Client.is_refresh (Loop.step e s).2 = [] /\
      (length (Loop.awaiting s) <= 1 + length (Loop.awaiting (Loop.step e s).1))%nat
  end.
Proof.
  intros Hs. destruct e as [code c | settled]; simpl.
  - destruct (on_rejected_cases code c (Loop.coordinator s))
      as [H | [[Hflag H] | [Hflag H]]]; rewrite H; simpl; try lia.
    rewrite length_app. simpl. lia.
  - destruct (Loop.awaiting s) as [| c rest] eqn:Ha; [simpl; split; [reflexivity | lia] |].
    destruct settled as [tok |]; simpl; [| split; [reflexivity | lia]].
    split; [| lia].
    rewrite !List.filter_app, no_refresh_in_replays.
    destruct tok as [t |]; [destruct (truthy t) |]; reflexivity.
Qed.

Lemma loop_run_consistent (events : list Loop.event) (s : Loop.state) :
  Loop.consistent s -> Loop.consistent (Loop.run events s).1.
Proof.
  revert s. induction events as [| e rest IH]; intros s Hs; simpl; [exact Hs |].
  pose proof (loop_step_consistent e s Hs) as Hs1.
  destruct (Loop.step e s) as [s1 e1]. specialize (IH s1 Hs1).
  by destruct (Loop.run rest s1).
Qed.

Lemma loop_single_flight_state (events : list Loop.event) :
  Loop.consistent (Loop.run events Loop.start).1.
Proof. apply loop_run_consistent. right. by repeat split. Qed.

(** X13. Whatever the order in which rejections and settlements arrive,
    starting idle: at most one refresh call is outstanding at any time, one
    is outstanding exactly while [isRefreshing] is set, the subscriber queue
    is empty whenever it is not set, and the refresh calls posted never
    exceed the settlements by more than one. *)
Theorem loop_single_flight (events : list Loop.event) :
  Loop.consistent (Loop.run events Loop.start).1 /\
  (length (Loop.awaiting (Loop.run events Loop.start).1) <= 1)%nat /\
  (length (List.filter Client.is_refresh (Loop.run events Loop.start).2)
   <= Loop.settlements events + 1)%nat.
Proof.
  assert (Hgen : forall s, Loop.consistent s ->
            Loop.consistent (Loop.run events s).1 /\
            (length (List.filter Client.is_refresh (Loop.run events s).2)
             + length (Loop.awaiting s)
             <= Loop.settlements events + length (Loop.awaiting (Loop.run events s).1))%nat).
  { induction events as [| e rest IH]; intros s Hs; simpl.
    - split; [exact Hs | unfold Loop.settlements; simpl; lia].
    - pose proof (loop_step_consistent e s Hs) as Hs1.
      pose proof (loop_step_posts e s Hs) as Hposts.
      destruct (Loop.step e s) as [s1 e1]. simpl in Hs1, Hposts.
      destruct (IH s1 Hs1) as [Hc Hcount].
      destruct (Loop.run rest s1) as [s2 e2]. simpl in *.
      split; [exact Hc |].
      rewrite List.filter_app, length_app.
      destruct e as [code c | settled].
      + change (Loop.settlements (Loop.Rejection code c :: rest))
          with (Loop.settlements rest). lia.
      + change (Loop.settlements (Loop.Settlement settled :: rest))
          with (S (Loop.settlements rest)).
        destruct Hposts as [-> Hle]. simpl. lia. }
  assert (Hstart : Loop.consistent Loop.start) by (right; by repeat split).
  destruct (Hgen Loop.start Hstart) as [Hc Hcount].
  assert (Hlen : (length (Loop.awaiting (Loop.run events Loop.start).1) <= 1)%nat).
  { destruct Hc as [[_ [c ->]] | (_ & -> & _)]; simpl; lia. }
  split; [exact Hc |]. split; [exact Hlen |]. simpl in Hcount. lia.
Qed.

Lemma loop_run_app (e1 e2 : list Loop.event) (s : Loop.state) :
  Loop.run (e1 ++ e2) s
  = ((Loop.run e2 (Loop.run e1 s).1).1,
     (Loop.run e1 s).2 ++ (Loop.run e2 (Loop.run e1 s).1).2).
Proof.
  revert s. induction e1 as [| e rest IH]; intros s; simpl.
  - by destruct (Loop.run e2 s).
  - destruct (Loop.step e s) as [s1 x1]. rewrite IH.
    destruct (Loop.run rest s1) as [s2 x2]. simpl.
    destruct (Loop.run e2 s2) as [s3 x3]. simpl. by rewrite app_assoc.
Qed.

Lemma sent_settled (tok : option token) (queue : list Client.config) (c : Client.config) :
  Client.sent
    (match tok with
     | Some t => if truthy t then [Client.SaveToken t] else []
     | None => []
     end ++ map Client.Send queue ++ [Client.Send c])
  = queue ++ [c].
Proof.
  unfold Client.sent. rewrite !omap_app.
  fold (Client.sent (map Client.Send queue)). rewrite sent_replays.
  destruct tok as [t |]; [destruct (truthy t) |]; reflexivity.
Qed.

(** What a step can replay is held by the state, and what the state holds
    afterwards was held before or is the call just rejected. *)
Lemma loop_step_held (e : Loop.event) (s : Loop.state) :
  let held x := map Client.url (Client.refreshSubscribers (Loop.coordinator x))
                ++ map Client.url (Loop.awaiting x) in
  map Client.url (Client.sent (Loop.step e s).2) ⊆ held s /\
  held (Loop.step e s).1 ⊆ held s ++ Loop.rejected [e].
Proof.
  cbn zeta. destruct e as [code c | settled]; simpl.
  - destruct (on_rejected_cases code c (Loop.coordinator s))
      as [H | [[Hflag H] | [Hflag H]]]; rewrite H; simpl.
    + split; intros x Hx; [by apply elem_of_nil in Hx |].
      apply elem_of_app. by left.
    + split; intros x Hx; [by apply elem_of_nil in Hx |].
      rewrite map_app in Hx. simpl in Hx.
      rewrite !elem_of_app in Hx. rewrite !elem_of_app. tauto.
    + split; intros x Hx; [by apply elem_of_nil in Hx |].
      rewrite map_app in Hx. simpl in Hx.
      rewrite !elem_of_app in Hx. rewrite !elem_of_app. tauto.
  - destruct (Loop.awaiting s) as [| c rest] eqn:Ha; simpl.
    + rewrite Ha. split; intros x Hx; [by apply elem_of_nil in Hx |].
      apply elem_of_app. by left.
    + destruct settled as [tok |]; simpl.
      * rewrite sent_settled, map_app. simpl.
        split; intros x Hx; unfold Loop.rejected; simpl; list_membership.
      * split; intros x Hx; [by apply elem_of_nil in Hx |].
        unfold Loop.rejected. simpl. list_membership.
Qed.

Lemma loop_run_held (events : list Loop.event) (s : Loop.state) :
  map Client.url (Client.sent (Loop.run events s).2)
  ⊆ map Client.url (Client.refreshSubscribers (Loop.coordinator s))
    ++ map Client.url (Loop.awaiting s) ++ Loop.rejected events.
Proof.
  revert s. induction events as [| e rest IH]; intros s; simpl.
  - intros x Hx. by apply elem_of_nil in Hx.
  - destruct (loop_step_held e s) as [Hsent Hheld]. cbn zeta in *.
    specialize (IH (Loop.step e s).1).
    destruct (Loop.step e s) as [s1 x1]. simpl in IH, Hsent, Hheld.
    destruct (Loop.run rest s1) as [s2 x2] eqn:E2. simpl in IH.
    simpl. unfold Client.sent in *. rewrite omap_app, map_app.
    change (Loop.rejected (e :: rest)) with (Loop.rejected [e] ++ Loop.rejected rest).
    intros x Hx. apply elem_of_app in Hx as [Hx | Hx].
    + apply Hsent in Hx. list_membership.
    + apply IH in Hx.
      pose proof (Hheld x) as Hstep.
      apply elem_of_app in Hx as [Hx | Hx].
      * assert (Hin : x ∈ map Client.url (Client.refreshSubscribers (Loop.coordinator s1))
                        ++ map Client.url (Loop.awaiting s1))
          by (apply elem_of_app; by left).
        apply Hstep in Hin. clear Hstep Hheld Hsent IH. destruct e; list_membership.
      * apply elem_of_app in Hx as [Hx | Hx].
        -- assert (Hin : x ∈ map Client.url (Client.refreshSubscribers (Loop.coordinator s1))
                           ++ map Client.url (Loop.awaiting s1))
             by (apply elem_of_app; by right).
           apply Hstep in Hin. clear Hstep Hheld Hsent IH. destruct e; list_membership.
        -- clear Hstep Hheld Hsent IH. destruct e; list_membership.
Qed.

Lemma loop_failure_idle (s : Loop.state) :
  Loop.consistent s ->
  Loop.coordinator (Loop.step (Loop.Settlement None) s).1 = Client.idle /\
  Loop.awaiting (Loop.step (Loop.Settlement None) s).1 = [].
Proof.
  destruct s as [[flag queue] waiting]. unfold Loop.consistent. simpl.
  intros [[_ [c ->]] | (-> & -> & ->)]; simpl; by split.
Qed.

Lemma loop_stuck (later : list Loop.event) (s : Loop.state) :
  Client.isRefreshing (Loop.coordinator s) = true ->
  forallb Loop.is_rejection later = true ->
  (Loop.run later s).2 = [] /\
  Client.isRefreshing (Loop.coordinator (Loop.run later s).1) = true /\
  Loop.awaiting (Loop.run later s).1 = Loop.awaiting s /\
  exists more,
    Client.refreshSubscribers (Loop.coordinator (Loop.run later s).1)
    = Client.refreshSubscribers (Loop.coordinator s) ++ more.
Proof.
  revert s. induction later as [| e rest IH]; intros s Hs Hall.
  - simpl. repeat split; try assumption. exists []. by rewrite app_nil_r.
  - cbn [forallb] in Hall. apply andb_true_iff in Hall as [He Hrest].
    destruct e as [code c | settled]; [| discriminate]. cbn [Loop.run Loop.step].
    destruct (on_rejected_cases code c (Loop.coordinator s))
      as [H | [[_ H] | [Hflag H]]]; [| | congruence]; rewrite H.
    + specialize (IH (Loop.State (Loop.coordinator s) (Loop.awaiting s)) Hs Hrest).
      destruct (Loop.run rest _) as [s2 e2]. exact IH.
    + specialize (IH (Loop.State
                        (Client.Coordinator true
                           (Client.refreshSubscribers (Loop.coordinator s) ++ [c]))
                        (Loop.awaiting s)) eq_refl Hrest).
      destruct (Loop.run rest _) as [s2 e2]. cbn [fst snd Loop.coordinator Loop.awaiting
        Client.refreshSubscribers] in IH |- *.
      destruct IH as (He2 & Hflag2 & Hawait & more & Hqueue).
      rewrite He2. repeat split; try assumption.
      exists (c :: more). by rewrite Hqueue, <- app_assoc.
Qed.

(** X14. How a failed refresh ends.  An error of the refresh call reaches
    the interceptor that awaits it unless it is a 401.  When it does, the
    coordinator is idle with an empty queue, and every call replayed from
    then on is one rejected after the failure: the calls queued or awaiting
    are never replayed.  A refresh call answered 401 while it is in flight
    is queued behind itself instead: [isRefreshing] stays set, the awaiting
    invocation stays suspended, and whatever is rejected from then on,
    nothing is posted, replayed or redirected. *)
Theorem loop_refresh_failure (before after : list Loop.event) :
  (forall code c s,
     code <> Some 401 -> Client.on_rejected code c s = (s, [], Client.Rejected)) /\
  (let failed := (Loop.run (before ++ [Loop.Settlement None]) Loop.start).1 in
   Loop.coordinator failed = Client.idle /\
   Loop.awaiting failed = [] /\
   map Client.url (Client.sent (Loop.run after failed).2) ⊆ Loop.rejected after) /\
  (forall s refresh,
     Client.isRefreshing (Loop.coordinator s) = true ->
     Client._retry refresh = false ->
     forallb Loop.is_rejection after = true ->
     let stuck := Loop.run (Loop.Rejection (Some 401) refresh :: after) s in
     stuck.2 = [] /\
     Client.isRefreshing (Loop.coordinator stuck.1) = true /\
     Loop.awaiting stuck.1 = Loop.awaiting s /\
     exists more,
       Client.refreshSubscribers (Loop.coordinator stuck.1)
       = Client.refreshSubscribers (Loop.coordinator s) ++ refresh :: more).
Proof.
  split; [exact on_rejected_other |]. split.
  - cbn zeta. rewrite loop_run_app. cbn [fst].
    pose proof (loop_single_flight_state before) as Hc.
    assert (Hone : forall e s, (Loop.run [e] s).1 = (Loop.step e s).1)
      by (intros e s; simpl; by destruct (Loop.step e s)).
    rewrite Hone.
    destruct (loop_failure_idle _ Hc) as [Hidle Hnone].
    split; [exact Hidle |]. split; [exact Hnone |].
    pose proof (loop_run_held after
                  (Loop.step (Loop.Settlement None) (Loop.run before Loop.start).1).1)
      as Hheld.
    rewrite Hidle, Hnone in Hheld. exact Hheld.
  - intros s refresh Hs Hretry Hall. cbn zeta. cbn [Loop.run Loop.step].
    unfold Client.on_rejected. rewrite Hretry, Hs. cbn [negb].
    destruct (loop_stuck after
                (Loop.State
                   (Client.Coordinator true
                      (push refresh (Client.refreshSubscribers (Loop.coordinator s))))
                   (Loop.awaiting s)) eq_refl Hall)
      as (Heffects & Hflag & Hawait & more & Hqueue).
    destruct (Loop.run after _) as [s2 e2].
    cbn [fst snd Loop.coordinator Loop.awaiting Client.refreshSubscribers] in *.
    rewrite Heffects. split; [reflexivity |]. split; [exact Hflag |].
    split; [exact Hawait |].
    exists more. rewrite Hqueue. unfold push. by rewrite <- app_assoc.
Qed.

(** ** Regular expressions: matching by derivatives is matching *)

Lemma nullable_spec (r : Regex.re) :
  Regex.nullable r = true <-> Regex.Matches r [].
Proof.
  induction r as [| | p | r1 IH1 r2 IH2 | r1 IH1 r2 IH2 | r IH]; simpl.
  - split; [discriminate | inversion 1].
  - split; [constructor | reflexivity].
  - split; [discriminate | inversion 1].
  - rewrite andb_true_iff, IH1, IH2. split.
    + intros [H1 H2]. exact (Regex.MCat _ _ [] [] H1 H2).
    + inversion 1 as [| | ? ? s1 s2 H1 H2 Heq | | | |]; subst.
      apply app_eq_nil in H3 as [-> ->]. by split.
  - rewrite orb_true_iff, IH1, IH2. split.
    + intros [H | H]; [by apply Regex.MAltL | by apply Regex.MAltR].
    + inversion 1; subst; [by left | by right].
  - split; [constructor | reflexivity].
Qed.

Lemma deriv_sound (c : ascii) (r : Regex.re) (s : list ascii) :
  Regex.Matches (Regex.deriv c r) s -> Regex.Matches r (c :: s).
Proof.
  revert s. induction r as [| | p | r1 IH1 r2 IH2 | r1 IH1 r2 IH2 | r IH]; intros s; simpl.
  - inversion 1.
  - inversion 1.
  - destruct (p c) eqn:Hp; inversion 1; subst. by constructor.
  - destruct (Regex.nullable r1) eqn:Hn.
    + inversion 1 as [| | | ? ? ? Hl | ? ? ? Hr | |]; subst.
      * inversion Hl as [| | ? ? s1 s2 H1 H2 | | | |]; subst.
        exact (Regex.MCat _ _ (c :: s1) s2 (IH1 _ H1) H2).
      * apply nullable_spec in Hn.
        exact (Regex.MCat _ _ [] (c :: s) Hn (IH2 _ Hr)).
    + inversion 1 as [| | ? ? s1 s2 H1 H2 | | | |]; subst.
      exact (Regex.MCat _ _ (c :: s1) s2 (IH1 _ H1) H2).
  - inversion 1; subst; [apply Regex.MAltL | apply Regex.MAltR]; auto.
  - inversion 1 as [| | ? ? s1 s2 H1 H2 | | | |]; subst.
    exact (Regex.MStarCons _ (c :: s1) s2 (IH _ H1) H2).
Qed.

Lemma deriv_complete (c : ascii) (r : Regex.re) (s : list ascii) :
  Regex.Matches r (c :: s) -> Regex.Matches (Regex.deriv c r) s.
Proof.
  intros H. remember (c :: s) as cs eqn:Hcs. revert c s Hcs.
  induction H as [| p d Hp | r1 r2 s1 s2 H1 IH1 H2 IH2 | r1 r2 s0 H0 IH0
                  | r1 r2 s0 H0 IH0 | r | r s1 s2 H1 IH1 H2 IH2];
    intros c s Hcs; simpl.
  - discriminate.
  - injection Hcs as -> <-. rewrite Hp. constructor.
  - destruct s1 as [| d s1'].
    + simpl in Hcs. subst s2.
      assert (Hn : Regex.nullable r1 = true) by (by apply nullable_spec).
      rewrite Hn. apply Regex.MAltR. by apply IH2.
    + injection Hcs as -> <-.
      assert (Hc : Regex.Matches (Regex.Cat (Regex.deriv c r1) r2) (s1' ++ s2))
        by (constructor; [by apply IH1 | assumption]).
      destruct (Regex.nullable r1); [by apply Regex.MAltL | exact Hc].
  - apply Regex.MAltL. by apply IH0.
  - apply Regex.MAltR. by apply IH0.
  - discriminate.
  - destruct s1 as [| d s1'].
    + simpl in Hcs. by apply IH2.
    + injection Hcs as -> <-. constructor; [by apply IH1 | assumption].
Qed.

Lemma matches_spec (r : Regex.re) (s : list ascii) :
  Regex.matches r s = true <-> Regex.Matches r s.
Proof.
  revert r. induction s as [| c rest IH]; intros r; simpl.
  - apply nullable_spec.
  - rewrite IH. split; [apply deriv_sound | apply deriv_complete].
Qed.

Lemma matches_star_class (p : ascii -> bool) (s : list ascii) :
  Regex.Matches (Regex.Star (Regex.Class p)) s <-> Forall (fun c => p c = true) s.
Proof.
  split.
  - intros H. remember (Regex.Star (Regex.Class p)) as r eqn:Hr.
    induction H as [| | | | | r0 | r0 s1 s2 H1 _ H2 IH2]; try discriminate.
    + constructor.
    + injection Hr as ->. inversion H1; subst. simpl.
      constructor; [assumption | by apply IH2].
  - induction 1 as [| c rest Hc _ IH].
    + constructor.
    + exact (Regex.MStarCons _ [c] rest (Regex.MClass p c Hc) IH).
Qed.

Lemma matches_plus_class (p : ascii -> bool) (s : list ascii) :
  Regex.Matches (Regex.Plus (Regex.Class p)) s <->
  s <> [] /\ Forall (fun c => p c = true) s.
Proof.
  unfold Regex.Plus. split.
  - inversion 1 as [| | ? ? s1 s2 H1 H2 | | | |]; subst.
    inversion H1; subst. simpl. split; [discriminate |].
    constructor; [assumption | by apply matches_star_class].
  - intros [Hne Hall]. destruct Hall as [| c rest Hc Hrest]; [contradiction |].
    exact (Regex.MCat _ _ [c] rest (Regex.MClass p c Hc)
             (proj2 (matches_star_class p rest) Hrest)).
Qed.

Lemma matches_repeat_class (n : nat) (p : ascii -> bool) (s : list ascii) :
  Regex.Matches (Regex.Repeat n (Regex.Class p)) s <->
  length s = n /\ Forall (fun c => p c = true) s.
Proof.
  revert s. induction n as [| k IH]; intros s; simpl.
  - split.
    + inversion 1. by split.
    + intros [Hl _]. destruct s; [constructor | discriminate].
  - split.
    + inversion 1 as [| | ? ? s1 s2 H1 H2 | | | |]; subst.
      inversion H1; subst. apply IH in H2 as [Hl Hall]. simpl.
      split; [by rewrite Hl | by constructor].
    + intros [Hl Hall]. destruct Hall as [| c rest Hc Hrest]; [discriminate |].
      simpl in Hl. injection Hl as Hl.
      exact (Regex.MCat _ _ [c] rest (Regex.MClass p c Hc)
               (proj2 (IH rest) (conj Hl Hrest))).
Qed.

Lemma matches_class (p : ascii -> bool) (s : list ascii) :
  Regex.Matches (Regex.Class p) s <-> exists c, s = [c] /\ p c = true.
Proof.
  split.
  - inversion 1; subst. eauto.
  - intros (c & -> & Hc). by constructor.
Qed.

Lemma matches_cat (r1 r2 : Regex.re) (s : list ascii) :
  Regex.Matches (Regex.Cat r1 r2) s <->
  exists s1 s2, s = s1 ++ s2 /\ Regex.Matches r1 s1 /\ Regex.Matches r2 s2.
Proof.
  split.
  - inversion 1; subst. eauto.
  - intros (s1 & s2 & -> & H1 & H2). by constructor.
Qed.

(** ** Strings *)

Lemma list_of_string_of_list (l : list ascii) :
  list_ascii_of_string (string_of_list_ascii l) = l.
Proof. apply list_ascii_of_string_of_list_ascii. Qed.

Lemma string_length_list (s : string) :
  String.length s = length (list_ascii_of_string s).
Proof. induction s as [| c rest IH]; simpl; congruence. Qed.

Lemma string_eqb_empty (s : string) :
  String.eqb s "" = true <-> list_ascii_of_string s = [].
Proof. destruct s; simpl; split; congruence. Qed.

Lemma string_ext (a b : string) :
  list_ascii_of_string a = list_ascii_of_string b -> a = b.
Proof.
  intros H. rewrite <- (string_of_list_ascii_of_string a), H.
  apply string_of_list_ascii_of_string.
Qed.

Lemma is_space_lower (c : ascii) : Js.is_space (Js.lower c) = Js.is_space c.
Proof. by_cases_on_char c. Qed.

Lemma lower_lower (c : ascii) : Js.lower (Js.lower c) = Js.lower c.
Proof. by_cases_on_char c. Qed.

Lemma not_space_or_at_lower (c : ascii) :
  Validation.not_space_or_at (Js.lower c) = Validation.not_space_or_at c.
Proof. by_cases_on_char c. Qed.

Lemma name_char_not_angle (c : ascii) :
  Validation.name_char c = true ->
  negb (Ascii.eqb c "<" || Ascii.eqb c ">") = true.
Proof. by_cases_on_char c. Qed.

Lemma is_space_name_char (c : ascii) :
  Js.is_space c = true -> Validation.name_char c = true.
Proof. by_cases_on_char c. Qed.

Lemma trimStart_split (l : list ascii) :
  exists pre, l = pre ++ Js.trimStart_list l /\
              Forall (fun c => Js.is_space c = true) pre /\
              no_lead (Js.trimStart_list l).
Proof.
  induction l as [| c rest (pre & Hl & Hpre & Hlead)]; simpl.
  - exists []. by repeat split.
  - destruct (Js.is_space c) eqn:Hc.
    + exists (c :: pre). simpl. split; [congruence |]. split; [by constructor | assumption].
    + exists []. by repeat split.
Qed.

Lemma trimStart_spaces (pre m : list ascii) :
  Forall (fun c => Js.is_space c = true) pre -> no_lead m ->
  Js.trimStart_list (pre ++ m) = m.
Proof.
  intros Hpre Hm. induction Hpre as [| c rest Hc _ IH]; simpl.
  - destruct m as [| d m']; simpl in *; [reflexivity | by rewrite Hm].
  - by rewrite Hc.
Qed.

Lemma no_lead_prefix (a b : list ascii) : a <> [] -> no_lead (a ++ b) -> no_lead a.
Proof. destruct a; [contradiction | trivial]. Qed.

Lemma trim_split (l : list ascii) :
  exists pre post,
    l = pre ++ Js.trim_list l ++ post /\
    Forall (fun c => Js.is_space c = true) pre /\
    Forall (fun c => Js.is_space c = true) post /\
    no_lead (Js.trim_list l) /\ no_lead (rev (Js.trim_list l)).
Proof.
  unfold Js.trim_list.
  destruct (trimStart_split l) as (pre & Hl & Hpre & Hlead).
  destruct (trimStart_split (rev (Js.trimStart_list l))) as (q & Hr & Hq & Hlead').
  set (A := Js.trimStart_list l) in *.
  set (B := Js.trimStart_list (rev A)) in *.
  assert (HA : A = rev B ++ rev q).
  { rewrite <- (rev_involutive A), Hr, rev_app_distr. reflexivity. }
  exists pre, (rev q). split; [by rewrite <- HA |].
  split; [assumption |]. split; [by apply Forall_rev |].
  rewrite rev_involutive. split; [| assumption].
  destruct (rev B) as [| c rest] eqn:HB; [exact I |].
  apply (no_lead_prefix (c :: rest) (rev q)); [discriminate |]. by rewrite <- HA.
Qed.

Lemma trim_unique (pre m post : list ascii) :
  Forall (fun c => Js.is_space c = true) pre ->
  Forall (fun c => Js.is_space c = true) post ->
  no_lead m -> no_lead (rev m) ->
  Js.trim_list (pre ++ m ++ post) = m.
Proof.
  intros Hpre Hpost Hm Hrm. unfold Js.trim_list.
  destruct m as [| c m'].
  - simpl. rewrite <- (app_nil_r (pre ++ post)).
    rewrite trimStart_spaces; [reflexivity | | exact I].
    apply Forall_app. by split.
  - rewrite trimStart_spaces; [| assumption | exact Hm].
    rewrite rev_app_distr, trimStart_spaces; [apply rev_involutive | | assumption].
    by apply Forall_rev.
Qed.

Lemma trim_list_idem (l : list ascii) : Js.trim_list (Js.trim_list l) = Js.trim_list l.
Proof.
  destruct (trim_split l) as (pre & post & _ & _ & _ & Hm & Hrm).
  rewrite <- (app_nil_r (Js.trim_list l)) at 1.
  by apply (trim_unique [] _ []).
Qed.

Lemma no_lead_map (f : ascii -> ascii) (l : list ascii) :
  (forall c, Js.is_space (f c) = Js.is_space c) -> no_lead l -> no_lead (map f l).
Proof. intros Hf. destruct l; simpl; [trivial |]. by rewrite Hf. Qed.

Lemma trim_list_map (f : ascii -> ascii) (l : list ascii) :
  (forall c, Js.is_space (f c) = Js.is_space c) ->
  Js.trim_list (map f l) = map f (Js.trim_list l).
Proof.
  intros Hf. destruct (trim_split l) as (pre & post & Hl & Hpre & Hpost & Hm & Hrm).
  rewrite Hl at 1. rewrite !map_app. apply trim_unique.
  - apply Forall_fmap. eapply Forall_impl; [exact Hpre |]. intros c Hc. simpl. by rewrite Hf.
  - apply Forall_fmap. eapply Forall_impl; [exact Hpost |]. intros c Hc. simpl. by rewrite Hf.
  - by apply no_lead_map.
  - rewrite <- map_rev. by apply no_lead_map.
Qed.

Lemma trim_list_Forall (P : ascii -> Prop) (l : list ascii) :
  Forall P l -> Forall P (Js.trim_list l).
Proof.
  destruct (trim_split l) as (pre & post & Hl & _). intros H. rewrite Hl in H.
  apply Forall_app in H as [_ H]. by apply Forall_app in H as [H _].
Qed.

Lemma trim_list_Forall_inv (P : ascii -> Prop) (l : list ascii) :
  (forall c, Js.is_space c = true -> P c) ->
  Forall P (Js.trim_list l) -> Forall P l.
Proof.
  intros Hsp H. destruct (trim_split l) as (pre & post & Hl & Hpre & Hpost & _).
  rewrite Hl. apply Forall_app. split.
  - eapply Forall_impl; [exact Hpre | exact Hsp].
  - apply Forall_app. split; [exact H |]. eapply Forall_impl; [exact Hpost | exact Hsp].
Qed.

Lemma filter_all {A} (p : A -> bool) (l : list A) :
  Forall (fun x => p x = true) l -> List.filter p l = l.
Proof. induction 1 as [| x rest Hx _ IH]; simpl; [reflexivity |]. by rewrite Hx, IH. Qed.

Lemma filter_Forall {A} (p : A -> bool) (l : list A) :
  Forall (fun x => p x = true) (List.filter p l).
Proof.
  induction l as [| x rest IH]; simpl; [constructor |].
  destruct (p x) eqn:Hx; [by constructor | assumption].
Qed.

Lemma trim_trim (s : string) : Js.trim (Js.trim s) = Js.trim s.
Proof. unfold Js.trim. by rewrite list_of_string_of_list, trim_list_idem. Qed.

(** ** utils/validation.js *)

Lemma email_regex_spec (l : list ascii) :
  Regex.Matches Validation.emailRegex l <->
  exists name domain tld,
    l = name ++ "@"%char :: domain ++ "."%char :: tld /\
    name <> [] /\ domain <> [] /\ tld <> [] /\
    Forall (fun c => Validation.not_space_or_at c = true) name /\
    Forall (fun c => Validation.not_space_or_at c = true) domain /\
    Forall (fun c => Validation.not_space_or_at c = true) tld.
Proof.
  unfold Validation.emailRegex. split.
  - intros H.
    apply matches_cat in H as (a & r1 & -> & Ha & H).
    apply matches_cat in H as (x & r2 & -> & Hx & H).
    apply matches_cat in H as (b & r3 & -> & Hb & H).
    apply matches_cat in H as (y & c & -> & Hy & Hc).
    apply matches_plus_class in Ha as [Ha1 Ha2].
    apply matches_plus_class in Hb as [Hb1 Hb2].
    apply matches_plus_class in Hc as [Hc1 Hc2].
    apply matches_class in Hx as (x0 & -> & Hx0). apply Ascii.eqb_eq in Hx0. subst x0.
    apply matches_class in Hy as (y0 & -> & Hy0). apply Ascii.eqb_eq in Hy0. subst y0.
    exists a, b, c. by repeat split.
  - intros (a & b & c & -> & Ha1 & Hb1 & Hc1 & Ha2 & Hb2 & Hc2).
    apply matches_cat. exists a, ("@"%char :: b ++ "."%char :: c).
    split; [reflexivity |]. split; [by apply matches_plus_class |].
    apply matches_cat. exists ["@"%char], (b ++ "."%char :: c).
    split; [reflexivity |]. split; [apply matches_class; by exists "@"%char |].
    apply matches_cat. exists b, ("."%char :: c).
    split; [reflexivity |]. split; [by apply matches_plus_class |].
    apply matches_cat. exists ["."%char], c.
    split; [reflexivity |]. split; [apply matches_class; by exists "."%char |].
    by apply matches_plus_class.
Qed.

Lemma email_regex_lower (l : list ascii) :
  Regex.Matches Validation.emailRegex l ->
  Regex.Matches Validation.emailRegex (map Js.lower l).
Proof.
  rewrite !email_regex_spec.
  intros (a & b & c & -> & Ha1 & Hb1 & Hc1 & Ha2 & Hb2 & Hc2).
  exists (map Js.lower a), (map Js.lower b), (map Js.lower c).
  split; [by rewrite !map_app, !map_cons, !map_app, !map_cons |].
  assert (Hne : forall x : list ascii, x <> [] -> map Js.lower x <> [])
    by (intros [| ? ?] ?; [contradiction | discriminate]).
  assert (Hall : forall x, Forall (fun c => Validation.not_space_or_at c = true) x ->
                 Forall (fun c => Validation.not_space_or_at c = true) (map Js.lower x)).
  { intros x Hx. apply Forall_fmap. eapply Forall_impl; [exact Hx |].
    intros d Hd. simpl. by rewrite not_space_or_at_lower. }
  repeat split; auto.
Qed.

(** X15. [isValidEmail] accepts exactly the strings that, once trimmed, read
    [name@domain.tld] with the three parts non-empty and free of white space
    and of [@]; in particular the address has exactly one [@]. *)
Theorem isValidEmail_shape (s : string) :
  Validation.isValidEmail (Some s) = true <->
  exists name domain tld,
    list_ascii_of_string (Js.trim s) = name ++ "@"%char :: domain ++ "."%char :: tld /\
    name <> [] /\ domain <> [] /\ tld <> [] /\
    Forall (fun c => Validation.not_space_or_at c = true) name /\
    Forall (fun c => Validation.not_space_or_at c = true) domain /\
    Forall (fun c => Validation.not_space_or_at c = true) tld.
Proof.
  unfold Validation.isValidEmail, Regex.test.
  destruct (String.eqb s "") eqn:Hs.
  - split; [discriminate |].
    intros (a & b & c & Hl & Ha & _). exfalso.
    apply String.eqb_eq in Hs. subst s. destruct a; [contradiction | discriminate].
  - rewrite matches_spec. apply email_regex_spec.
Qed.

Lemma sanitizeEmail_list (s : string) :
  list_ascii_of_string (Validation.sanitizeEmail (Some s))
  = map Js.lower (Js.trim_list (list_ascii_of_string s)).
Proof.
  unfold Validation.sanitizeEmail, Js.toLowerCase, Js.trim.
  by rewrite !list_of_string_of_list.
Qed.

Lemma sanitizeEmail_fixed (s : string) :
  Js.trim (Validation.sanitizeEmail (Some s)) = Validation.sanitizeEmail (Some s) /\
  Js.toLowerCase (Validation.sanitizeEmail (Some s)) = Validation.sanitizeEmail (Some s).
Proof.
  split; apply string_ext.
  - unfold Js.trim at 1. rewrite list_of_string_of_list, sanitizeEmail_list.
    rewrite trim_list_map by apply is_space_lower. by rewrite trim_list_idem.
  - unfold Js.toLowerCase at 1. rewrite list_of_string_of_list, sanitizeEmail_list.
    rewrite map_map. apply map_ext. intros c. apply lower_lower.
Qed.

Lemma sanitizeEmail_matches (s : string) :
  Validation.isValidEmail (Some s) = true ->
  Regex.test Validation.emailRegex (Validation.sanitizeEmail (Some s)) = true /\
  String.eqb (Validation.sanitizeEmail (Some s)) "" = false.
Proof.
  unfold Validation.isValidEmail.
  destruct (String.eqb s ""); [discriminate |].
  unfold Regex.test. rewrite !matches_spec, sanitizeEmail_list.
  unfold Js.trim. rewrite list_of_string_of_list. intros H.
  apply email_regex_lower in H. split; [exact H |].
  apply not_true_is_false. intros He. apply string_eqb_empty in He.
  rewrite sanitizeEmail_list in He. rewrite He in H.
  apply email_regex_spec in H as (a & b & c & Hl & Ha & _).
  destruct a; [contradiction | discriminate].
Qed.

(** X16. Sanitizing an address that [isValidEmail] accepts gives an address
    it accepts again, that sanitizing leaves unchanged, and that matches the
    address pattern as it stands (the pattern the schemas apply untrimmed). *)
Theorem sanitizeEmail_stable (s : string) :
  Validation.isValidEmail (Some s) = true ->
  let e := Validation.sanitizeEmail (Some s) in
  Validation.isValidEmail (Some e) = true /\
  Validation.sanitizeEmail (Some e) = e /\
  Regex.test Validation.emailRegex e = true /\
  schema_accepts_email e = true.
Proof.
  intros Hs. cbn zeta.
  destruct (sanitizeEmail_matches s Hs) as [Hm Hne].
  destruct (sanitizeEmail_fixed s) as [Ht Hl].
  set (e := Validation.sanitizeEmail (Some s)) in *.
  split; [| split; [| split]].
  - unfold Validation.isValidEmail. by rewrite Hne, Ht.
  - unfold Validation.sanitizeEmail. by rewrite Ht, Hl.
  - exact Hm.
  - unfold schema_accepts_email. by rewrite Hl, Ht, Hne, Hm.
Qed.

(** X17. [isValidObjectId] accepts exactly the strings of 24 hexadecimal
    digits, in either case. *)
Theorem isValidObjectId_shape (s : string) :
  Validation.isValidObjectId (Some s) = true <->
  String.length s = 24%nat /\
  Forall (fun c => Validation.hex_digit c = true) (list_ascii_of_string s).
Proof.
  unfold Validation.isValidObjectId, Validation.objectIdRegex, Regex.test.
  cbn [Js.present default].
  rewrite andb_true_iff, matches_spec, matches_repeat_class, string_length_list.
  split; [tauto |]. intros [Hl Hall]. split; [| by split].
  destruct s; [discriminate | reflexivity].
Qed.

(** X18. [sanitizeString] returns a string without [<] or [>] and without
    white space at either end, and sanitizing its result changes nothing. *)
Theorem sanitizeString_clean (s : string) :
  let r := Validation.sanitizeString (Some s) in
  Forall (fun c => c <> "<"%char /\ c <> ">"%char) (list_ascii_of_string r) /\
  no_lead (list_ascii_of_string r) /\
  no_lead (rev (list_ascii_of_string r)) /\
  Validation.sanitizeString (Some r) = r.
Proof.
  cbn zeta. unfold Validation.sanitizeString, Js.trim, Js.strip_angles.
  rewrite !list_of_string_of_list.
  set (p := fun c : ascii => negb (Ascii.eqb c "<" || Ascii.eqb c ">")).
  set (l := List.filter p (list_ascii_of_string s)).
  assert (Hp : Forall (fun c => p c = true) (Js.trim_list l)).
  { apply trim_list_Forall. apply filter_Forall. }
  destruct (trim_split l) as (pre & post & _ & _ & _ & Hm & Hrm).
  split; [| split; [exact Hm | split; [exact Hrm |]]].
  - eapply Forall_impl; [exact Hp |]. intros c Hc. unfold p in Hc.
    apply negb_true_iff, orb_false_elim in Hc as [H1 H2].
    apply Ascii.eqb_neq in H1, H2. by split.
  - by rewrite (filter_all p _ Hp), trim_list_idem.
Qed.

Lemma isEmpty_app3 {A} (a b c : list A) :
  Validation.isEmpty (a ++ b ++ c) = true -> a = [] /\ b = [] /\ c = [].
Proof. destruct a, b, c; simpl; try discriminate. by repeat split. Qed.

Lemma isEmpty_app2 {A} (a b : list A) :
  Validation.isEmpty (a ++ b) = true -> a = [] /\ b = [].
Proof. destruct a, b; simpl; try discriminate. by split. Qed.

Lemma email_check_passed (v : option string) :
  (if negb (Js.present v) || negb (Validation.isValidEmail v)
   then ["Valid email is required"%string] else []) = [] ->
  exists s, v = Some s /\ Validation.isValidEmail (Some s) = true.
Proof.
  destruct v as [s |]; [| discriminate].
  destruct (negb (Js.present (Some s)) || negb (Validation.isValidEmail (Some s))) eqn:H;
    [discriminate |].
  apply orb_false_elim in H as [_ H]. apply negb_false_iff in H. eauto.
Qed.

Lemma registration_valid (data : form) (n e p : string) :
  Validation.validateRegistration data = Valid (n, e, p) ->
  exists sn se,
    f_name data = Some sn /\ f_email data = Some se /\ f_password data = Some p /\
    n = Validation.sanitizeString (Some sn) /\
    e = Validation.sanitizeEmail (Some se) /\
    Validation.validateName (Some sn) = [] /\
    Validation.isValidEmail (Some se) = true /\
    Validation.validatePassword (Some p) = [].
Proof.
  unfold Validation.validateRegistration. cbn zeta.
  destruct (Validation.isEmpty _) eqn:Hempty; [| discriminate].
  apply isEmpty_app3 in Hempty as (Hn & He & Hp).
  apply email_check_passed in He as (se & Hse & Hvalid).
  destruct (f_name data) as [sn |]; [| discriminate Hn].
  destruct (f_password data) as [pw |]; [| discriminate Hp].
  rewrite Hse. simpl. intros [= <- <- <-].
  exists sn, se. by repeat split.
Qed.

Lemma validateName_passed (sn : string) :
  Validation.validateName (Some sn) = [] ->
  (2 <= String.length (Js.trim sn))%nat /\
  (String.length (Js.trim sn) <= 100)%nat /\
  Regex.test Validation.nameRegex (Js.trim sn) = true.
Proof.
  unfold Validation.validateName. change (default "" (Some sn)) with sn.
  destruct (negb (Js.present (Some sn))); [discriminate |]. cbn zeta.
  destruct (Nat.ltb_spec (String.length (Js.trim sn)) 2); [simpl; discriminate |].
  destruct (Nat.ltb_spec 100 (String.length (Js.trim sn))); [simpl; discriminate |].
  destruct (Regex.test Validation.nameRegex (Js.trim sn)); [| simpl; discriminate].
  intros _. repeat split; lia.
Qed.

Lemma validatePassword_passed (p : string) :
  Validation.validatePassword (Some p) = [] ->
  Js.present (Some p) = true /\
  (6 <= String.length (Js.trim p))%nat /\ (String.length (Js.trim p) <= 128)%nat.
Proof.
  unfold Validation.validatePassword. change (default "" (Some p)) with p.
  destruct (Js.present (Some p)); [| discriminate]. cbn [negb]. cbn zeta.
  destruct (Nat.ltb_spec (String.length (Js.trim p)) 6); [simpl; discriminate |].
  destruct (Nat.ltb_spec 128 (String.length (Js.trim p))); [simpl; discriminate |].
  intros _. repeat split; lia.
Qed.

(** X19. The fields [validateRegistration] hands to [User.create] pass the
    validators of the User schema: the name is between 2 and 100 code units
    of letters, white space, hyphens and apostrophes, and the email matches
    the address pattern; the password is the one submitted, untrimmed. *)
Theorem registration_passes_schema (data : form) (n e p : string) :
  Validation.validateRegistration data = Valid (n, e, p) ->
  schema_accepts_name n = true /\
  schema_accepts_email e = true /\
  f_password data = Some p.
Proof.
  intros H. apply registration_valid in H
    as (sn & se & Hn & He & Hp & -> & -> & Hname & Hemail & Hpw).
  split; [| split; [| exact Hp]].
  - apply validateName_passed in Hname as (Hlo & Hhi & Hre).
    assert (Hsame : Validation.sanitizeString (Some sn) = Js.trim sn).
    { unfold Validation.sanitizeString. f_equal. apply string_ext.
      unfold Js.strip_angles. rewrite list_of_string_of_list. apply filter_all.
      assert (Hall : Forall (fun c => Validation.name_char c = true)
                       (list_ascii_of_string sn)).
      { apply trim_list_Forall_inv; [apply is_space_name_char |].
        unfold Regex.test, Validation.nameRegex in Hre.
        apply matches_spec, matches_plus_class in Hre as [_ Hre].
        unfold Js.trim in Hre. by rewrite list_of_string_of_list in Hre. }
      eapply Forall_impl; [exact Hall |]. intros c. apply name_char_not_angle. }
    unfold schema_accepts_name. rewrite Hsame, trim_trim, Hre.
    destruct (Nat.leb_spec 2 (String.length (Js.trim sn))); [| lia].
    destruct (Nat.leb_spec (String.length (Js.trim sn)) 100); [reflexivity | lia].
  - destruct (sanitizeEmail_matches se Hemail) as [Hm Hne].
    destruct (sanitizeEmail_fixed se) as [Ht Hl].
    unfold schema_accepts_email. by rewrite Hl, Ht, Hne, Hm.
Qed.

Lemma registration_valid_login (data : form) (n e p : string) :
  Validation.validateRegistration data = Valid (n, e, p) ->
  Validation.validateLogin data = Valid (e, p).
Proof.
  intros H. apply registration_valid in H
    as (sn & se & Hn & He & Hp & _ & -> & _ & Hemail & Hpw).
  apply validatePassword_passed in Hpw as (Hpresent & Hlo & _).
  unfold Validation.validateLogin. rewrite He, Hp. cbn zeta.
  change (default "" (Some p)) with p.
  rewrite Hemail, Hpresent.
  assert (Hse : Js.present (Some se) = true).
  { unfold Validation.isValidEmail in Hemail. simpl.
    destruct (String.eqb se ""); [discriminate | reflexivity]. }
  rewrite Hse. simpl.
  destruct (Nat.eqb_spec (String.length (Js.trim p)) 0); [lia | reflexivity].
Qed.

(** X20. Whatever [validateRegistration] accepts, [validateLogin] accepts
    too, with the same sanitized email and the same password: nobody can
    register credentials that the login form would refuse. *)
Theorem registration_valid_is_login_valid (data : form) (n e p : string) :
  Validation.validateRegistration data = Valid (n, e, p) ->
  Validation.validateLogin data = Valid (e, p) /\
  (6 <= String.length (Js.trim p))%nat /\
  (String.length (Js.trim p) <= 128)%nat.
Proof.
  intros H. split; [by apply (registration_valid_login data n) |].
  apply registration_valid in H as (sn & se & _ & _ & _ & _ & _ & _ & _ & Hpw).
  by apply validatePassword_passed in Hpw as (_ & Hlo & Hhi).
Qed.

Lemma save_elems (u v : user) (db : DB) : In v (save u db) -> v = u \/ In v db.
Proof.
  induction db as [| d rest IH]; simpl; [tauto |].
  case_bool_decide; simpl; intros [Hv | Hv]; auto. destruct (IH Hv); auto.
Qed.

(** X21. With the validation of utils/validation.js and a [bcrypt.compare]
    that accepts a password against its own hash, a registration answered 200
    can be followed by a login with the same body, at any time, and that
    login is answered 200. *)
Theorem register_then_login (secret : string) (compare : string -> string -> bool)
    (hash : string -> string) (now later : Z) (oid : string) (req : request)
    (db db' : DB) (r : response) :
  (forall pw, compare pw (hash pw) = true) ->
  handler_register (env := app_env secret compare hash) now oid req db = (r, db') ->
  status r = 200 ->
  status (handler_login (env := app_env secret compare hash) later req db').1 = 200.
Proof.
  intros Hbcrypt. unfold handler_register. cbn [validateRegistration app_env bcrypt_hash].
  destruct (negb (bool_decide (method req = "POST"%string))) eqn:Hm;
    [intros [= <- <-]; discriminate |].
  destruct (Validation.validateRegistration (payload req)) as [[[n e] pw] | errs] eqn:Hval;
    [| intros [= <- <-]; discriminate].
  destruct (findOne_email e db) as [x |] eqn:He; [intros [= <- <-]; discriminate |].
  cbn zeta. intros [= <- <-] _.
  set (u := User oid n e (hash pw) false []).
  set (u' := set_refreshTokens u _).
  unfold handler_login. cbn [validateLogin app_env bcrypt_compare].
  rewrite Hm, (registration_valid_login _ _ _ _ Hval).
  assert (Hin : In u' (save u' (db ++ [u]))).
  { apply save_In. exists u. split; [apply in_or_app; right; by left | reflexivity]. }
  destruct (findOne_email e (save u' (db ++ [u]))) as [v |] eqn:Hv.
  - unfold findOne_email in Hv. apply find_some in Hv as [Hvin Hve].
    apply bool_decide_eq_true in Hve.
    assert (Hhash : passwordHash v = hash pw).
    { apply save_elems in Hvin as [-> | Hvin]; [reflexivity |].
      apply in_app_or in Hvin as [Hvin | [<- | []]]; [| reflexivity].
      unfold findOne_email in He. pose proof (find_none _ _ He v Hvin) as Hno.
      simpl in Hno. apply bool_decide_eq_false in Hno. contradiction. }
    rewrite Hhash, Hbcrypt. reflexivity.
  - exfalso. unfold findOne_email in Hv.
    pose proof (find_none _ _ Hv u' Hin) as Hno. simpl in Hno.
    apply bool_decide_eq_false in Hno. by apply Hno.
Qed.

(** ** Password reset *)

Section ResetFacts.

Context {env : Env} {mail : Reset.Mail}.

Lemma reset_save_map (x : Reset.account) (s : Reset.store) :
  NoDup (Reset.ids s) ->
  Reset.save x s
  = map (fun b => if bool_decide (_id (Reset.doc b) = _id (Reset.doc x)) then x else b) s.
Proof.
  unfold Reset.ids. induction s as [| b rest IH]; simpl; [reflexivity |].
  intros Hnd. apply NoDup_cons in Hnd as [Hb Hrest].
  case_bool_decide as Hid.
  - f_equal. symmetry. rewrite <- (map_id rest) at 2. apply map_ext_in.
    intros c Hc. rewrite bool_decide_false; [reflexivity |].
    intros Hcid. apply Hb. rewrite Hid, <- Hcid.
    apply list_elem_of_fmap. exists c. split; [reflexivity | by apply list_elem_of_In].
  - f_equal. by apply IH.
Qed.

Lemma reset_save_ids (x : Reset.account) (s : Reset.store) :
  Reset.ids (Reset.save x s) = Reset.ids s.
Proof.
  unfold Reset.ids. induction s as [| b rest IH]; simpl; [reflexivity |].
  case_bool_decide as Hid; simpl; congruence.
Qed.

Lemma reset_find_email (e : string) (s : Reset.store) (a : Reset.account) :
  Reset.findOne_email e s = Some a -> In a s.
Proof. unfold Reset.findOne_email. intros H. by apply find_some in H as [H _]. Qed.

(** X22. With mail configured and delivered, the answer of the
    forgot-password route is the same whatever accounts exist: it does not
    tell a registered address from an unregistered one. *)
Theorem forgot_password_hides_accounts (now : Z) (resetToken method : string)
    (address : option string) (s1 s2 : Reset.store) :
  Reset.smtp_configured = true ->
  (Reset.forgot_password now resetToken true method address s1).1.1
  = (Reset.forgot_password now resetToken true method address s2).1.1.
Proof.
  intros Hsmtp. unfold Reset.forgot_password. rewrite Hsmtp.
  destruct (negb (bool_decide (method = "POST"%string))); [reflexivity |].
  destruct (negb (Js.present address)); [reflexivity |].
  destruct (negb (Validation.isValidEmail address)); [reflexivity |].
  destruct (Reset.findOne_email _ s1), (Reset.findOne_email _ s2); reflexivity.
Qed.

(** X23. Without mail configured the route tells the two apart, answering
    500 for a registered address and 200 for an unregistered one, and for the
    registered address the reset token is stored all the same, valid for an
    hour, although nothing was mailed. *)
Theorem forgot_password_unconfigured (now : Z) (resetToken : string) (delivers : bool)
    (address : string) (s : Reset.store) :
  Reset.smtp_configured = false ->
  Validation.isValidEmail (Some address) = true ->
  match Reset.findOne_email (Validation.sanitizeEmail (Some address)) s with
  | None =>
      Reset.forgot_password now resetToken delivers "POST" (Some address) s
      = (Reset.Success Reset.enumeration_safe_message, s, None)
  | Some a =>
      Reset.forgot_password now resetToken delivers "POST" (Some address) s
      = (Reset.Failure 500 "Email service not configured" [],
         Reset.save (Reset.Account (Reset.doc a) (Some (Reset.sha256 resetToken))
                       (Some (now + 3600000))) s,
         None)
  end.
Proof.
  intros Hsmtp Hvalid. unfold Reset.forgot_password. rewrite Hsmtp, Hvalid.
  assert (Hpresent : Js.present (Some address) = true).
  { unfold Validation.isValidEmail in Hvalid. simpl.
    destruct (String.eqb address ""); [discriminate | reflexivity]. }
  rewrite Hpresent. simpl.
  destruct (Reset.findOne_email _ s); reflexivity.
Qed.

End ResetFacts.

Section ResetRoundTrip.

Context {env : Env} {mail : Reset.Mail}.

Lemma reset_users_save (x : Reset.account) (s : Reset.store) :
  Reset.users (Reset.save x s) = save (Reset.doc x) (Reset.users s).
Proof.
  unfold Reset.users. induction s as [| b rest IH]; simpl; [reflexivity |].
  case_bool_decide; simpl; congruence.
Qed.

Lemma find_only {A} (p : A -> bool) (x : A) (l : list A) :
  In x l -> p x = true -> (forall y, In y l -> p y = true -> y = x) ->
  List.find p l = Some x.
Proof.
  intros Hin Hp Honly. destruct (List.find p l) as [y |] eqn:Hy.
  - apply find_some in Hy as [Hyin Hyp]. f_equal. by apply Honly.
  - pose proof (find_none _ _ Hy x Hin). congruence.
Qed.

(** The store after a token was issued to [a], in a collection with unique
    identifiers where nobody held the digest. *)
Lemma issued_then_find (now later : Z) (resetToken : string) (a : Reset.account)
    (s : Reset.store) :
  NoDup (Reset.ids s) ->
  In a s ->
  Forall (fun b => Reset.resetPasswordToken b <> Some (Reset.sha256 resetToken)) s ->
  let a1 := Reset.generatePasswordResetToken now resetToken a in
  Reset.findOne_reset (Reset.sha256 resetToken) later (Reset.save a1 s)
  = if later <? now + 3600000 then Some a1 else None.
Proof.
  intros Hnd Hin Hfresh. cbn zeta.
  set (a1 := Reset.generatePasswordResetToken now resetToken a).
  rewrite (reset_save_map a1 s Hnd). unfold Reset.findOne_reset.
  assert (Hothers : forall y,
            In y (map (fun b => if bool_decide (_id (Reset.doc b) = _id (Reset.doc a1))
                                then a1 else b) s) ->
            Reset.redeemable (Reset.sha256 resetToken) later y = true -> y = a1).
  { intros y Hy Hred. apply in_map_iff in Hy as (b & <- & Hb).
    case_bool_decide; [reflexivity |].
    rewrite Forall_forall in Hfresh. apply list_elem_of_In, Hfresh in Hb.
    unfold Reset.redeemable in Hred. apply andb_true_iff in Hred as [Hred _].
    apply bool_decide_eq_true in Hred. contradiction. }
  assert (Hin1 : In a1 (map (fun b => if bool_decide (_id (Reset.doc b) = _id (Reset.doc a1))
                                      then a1 else b) s)).
  { apply in_map_iff. exists a. split; [| exact Hin].
    by rewrite bool_decide_true. }
  destruct (Z.ltb_spec later (now + 3600000)) as [Hlt | Hge].
  - apply find_only; [exact Hin1 | | exact Hothers].
    unfold Reset.redeemable, a1. simpl. rewrite bool_decide_true by reflexivity.
    simpl. by apply Z.ltb_lt.
  - destruct (List.find _ _) as [y |] eqn:Hy; [| reflexivity].
    apply find_some in Hy as [Hyin Hred].
    rewrite (Hothers y Hyin Hred) in Hred.
    unfold Reset.redeemable, a1 in Hred. simpl in Hred.
    rewrite bool_decide_true in Hred by reflexivity. simpl in Hred.
    apply Z.ltb_lt in Hred. lia.
Qed.

Lemma forgot_issues (now : Z) (resetToken : string) (delivers : bool) (address : string)
    (a : Reset.account) (s : Reset.store) :
  Validation.isValidEmail (Some address) = true ->
  Reset.findOne_email (Validation.sanitizeEmail (Some address)) s = Some a ->
  (Reset.smtp_configured = true -> delivers = true) ->
  (Reset.forgot_password now resetToken delivers "POST" (Some address) s).1.2
  = Reset.save (Reset.generatePasswordResetToken now resetToken a) s.
Proof.
  intros Hvalid Hfind Hsent. unfold Reset.forgot_password. rewrite Hvalid, Hfind.
  assert (Hpresent : Js.present (Some address) = true).
  { unfold Validation.isValidEmail in Hvalid. simpl.
    destruct (String.eqb address ""); [discriminate | reflexivity]. }
  rewrite Hpresent. simpl.
  destruct Reset.smtp_configured; simpl; [| reflexivity].
  by rewrite Hsent.
Qed.

Lemma reset_with_token (later : Z) (resetToken password : string) (s : Reset.store) :
  Js.trim resetToken <> ""%string ->
  Validation.validatePassword (Some password) = [] ->
  Reset.reset_password later "POST" (Some resetToken) (Some password) s
  = match Reset.findOne_reset (Reset.sha256 resetToken) later s with
    | None => (Reset.Failure 400 "Invalid or expired token" [], s)
    | Some a =>
        (Reset.Success
           "Password has been reset successfully. You can now login with your new password.",
         Reset.save
           (Reset.Account
              (User (_id (Reset.doc a)) (name (Reset.doc a)) (email (Reset.doc a))
                 (bcrypt_hash password) (isAdmin (Reset.doc a))
                 (refreshTokens (Reset.doc a)))
              None None) s)
    end.
Proof.
  intros Htok Hpw. unfold Reset.reset_password.
  change (default "" (Some resetToken)) with resetToken.
  change (default "" (Some password)) with password.
  rewrite Hpw.
  assert (Hblank : String.eqb (Js.trim resetToken) "" = false)
    by (by apply String.eqb_neq).
  assert (Htoken : Js.present (Some resetToken) = true).
  { simpl. destruct resetToken; [| reflexivity]. exfalso. by apply Htok. }
  assert (Hpresent : Js.present (Some password) = true)
    by (by apply validatePassword_passed in Hpw as [H _]).
  rewrite Htoken, Hblank, Hpresent. reflexivity.
Qed.

(** X24. A reset token issued to an account (mailed, or stored without mail
    where mail is not configured) can be redeemed once within the hour: the
    reset route then stores the hash of the new password, clears the token
    and leaves name, email, rights and refresh tokens as they were; redeeming
    the same token again is answered 400 and changes nothing. *)
Theorem reset_round_trip (now later again : Z) (resetToken address password retry : string)
    (delivers : bool) (a : Reset.account) (s : Reset.store) :
  NoDup (Reset.ids s) ->
  Forall (fun b => Reset.resetPasswordToken b <> Some (Reset.sha256 resetToken)) s ->
  Validation.isValidEmail (Some address) = true ->
  Reset.findOne_email (Validation.sanitizeEmail (Some address)) s = Some a ->
  (Reset.smtp_configured = true -> delivers = true) ->
  Js.trim resetToken <> ""%string ->
  Validation.validatePassword (Some password) = [] ->
  Validation.validatePassword (Some retry) = [] ->
  later < now + 3600000 ->
  let s1 := (Reset.forgot_password now resetToken delivers "POST" (Some address) s).1.2 in
  let redeemed := Reset.reset_password later "POST" (Some resetToken) (Some password) s1 in
  redeemed.1
  = Reset.Success
      "Password has been reset successfully. You can now login with your new password." /\
  findById (_id (Reset.doc a)) (Reset.users redeemed.2)
  = Some (User (_id (Reset.doc a)) (name (Reset.doc a)) (email (Reset.doc a))
            (bcrypt_hash password) (isAdmin (Reset.doc a))
            (refreshTokens (Reset.doc a))) /\
  Forall (fun b => Reset.resetPasswordToken b <> Some (Reset.sha256 resetToken)) redeemed.2 /\
  Reset.reset_password again "POST" (Some resetToken) (Some retry) redeemed.2
  = (Reset.Failure 400 "Invalid or expired token" [], redeemed.2).
Proof.
  intros Hnd Hfresh Hvalid Hfind Hsent Htok Hpw Hretry Hlater. cbn zeta.
  pose proof (reset_find_email _ _ _ Hfind) as Hin.
  rewrite (forgot_issues now resetToken delivers address a s Hvalid Hfind Hsent).
  rewrite (reset_with_token later resetToken password _ Htok Hpw).
  rewrite (issued_then_find now later resetToken a s Hnd Hin Hfresh).
  set (a1 := Reset.generatePasswordResetToken now resetToken a).
  destruct (Z.ltb_spec later (now + 3600000)) as [_ | ?]; [| lia].
  cbn [fst snd Reset.doc a1 Reset.generatePasswordResetToken].
  set (u' := User _ _ _ (bcrypt_hash password) _ _).
  set (a2 := Reset.Account u' None None).
  assert (Hnd1 : NoDup (Reset.ids (Reset.save a1 s))) by (by rewrite reset_save_ids).
  assert (Hclean : Forall (fun b => Reset.resetPasswordToken b
                                    <> Some (Reset.sha256 resetToken))
                     (Reset.save a2 (Reset.save a1 s))).
  { rewrite (reset_save_map a2 _ Hnd1), (reset_save_map a1 s Hnd).
    rewrite map_map. apply Forall_forall. intros y Hy.
    apply list_elem_of_In, in_map_iff in Hy as (b & <- & Hb).
    rewrite Forall_forall in Hfresh. apply list_elem_of_In, Hfresh in Hb.
    repeat case_bool_decide; simpl; try discriminate; try assumption.
    exfalso. by simpl in *. }
  split; [reflexivity |]. split; [| split; [exact Hclean |]].
  - rewrite !reset_users_save. simpl.
    assert (Hf : findById (_id (Reset.doc a)) (Reset.users s) = Some (Reset.doc a)).
    { apply findById_unique.
      - unfold unique_ids, Reset.users. rewrite map_map. exact Hnd.
      - unfold Reset.users. by apply in_map. }
    rewrite findById_save. simpl. rewrite bool_decide_true by reflexivity.
    rewrite findById_save. simpl. rewrite bool_decide_true by reflexivity.
    by rewrite Hf.
  - rewrite (reset_with_token again resetToken retry _ Htok Hretry).
    destruct (Reset.findOne_reset _ again _) as [y |] eqn:Hy; [| reflexivity].
    exfalso. unfold Reset.findOne_reset in Hy. apply find_some in Hy as [Hyin Hred].
    rewrite Forall_forall in Hclean. apply list_elem_of_In, Hclean in Hyin.
    unfold Reset.redeemable in Hred. apply andb_true_iff in Hred as [Hred _].
    by apply bool_decide_eq_true in Hred.
Qed.

(** X25. The hour is exact: at the instant [now + 3 600 000] ms and at any
    later one the token is refused with 400 and the store is unchanged. *)
Theorem reset_token_expires (now later : Z) (resetToken address password : string)
    (delivers : bool) (a : Reset.account) (s : Reset.store) :
  NoDup (Reset.ids s) ->
  Forall (fun b => Reset.resetPasswordToken b <> Some (Reset.sha256 resetToken)) s ->
  Validation.isValidEmail (Some address) = true ->
  Reset.findOne_email (Validation.sanitizeEmail (Some address)) s = Some a ->
  (Reset.smtp_configured = true -> delivers = true) ->
  Js.trim resetToken <> ""%string ->
  Validation.validatePassword (Some password) = [] ->
  now + 3600000 <= later ->
  let s1 := (Reset.forgot_password now resetToken delivers "POST" (Some address) s).1.2 in
  Reset.reset_password later "POST" (Some resetToken) (Some password) s1
  = (Reset.Failure 400 "Invalid or expired token" [], s1).
Proof.
  intros Hnd Hfresh Hvalid Hfind Hsent Htok Hpw Hlater. cbn zeta.
  pose proof (reset_find_email _ _ _ Hfind) as Hin.
  rewrite (forgot_issues now resetToken delivers address a s Hvalid Hfind Hsent).
  rewrite (reset_with_token later resetToken password _ Htok Hpw).
  rewrite (issued_then_find now later resetToken a s Hnd Hin Hfresh).
  destruct (Z.ltb_spec later (now + 3600000)); [lia | reflexivity].
Qed.

End ResetRoundTrip.

Section ResetInvariants.

Context {env : Env} {mail : Reset.Mail}.


Lemma reset_users_save_same (x a : Reset.account) (s : Reset.store) (f : user -> user) :
  NoDup (Reset.ids s) -> In a s ->
  _id (Reset.doc x) = _id (Reset.doc a) ->
  Reset.users (Reset.save x s)
  = map (fun u => if bool_decide (_id u = _id (Reset.doc a)) then Reset.doc x else u)
      (Reset.users s).
Proof.
  intros Hnd Hin Hid. rewrite (reset_save_map x s Hnd). unfold Reset.users.
  rewrite !map_map. apply map_ext. intros b. rewrite Hid.
  by case_bool_decide.
Qed.


(** X27. When the mail cannot be sent the route answers 500 and clears the
    account's reset fields: the token just issued cannot be redeemed, and
    neither can a link mailed earlier for the same account. *)
Theorem forgot_password_send_failure (now later : Z) (resetToken address any password : string)
    (a : Reset.account) (s : Reset.store) :
  NoDup (Reset.ids s) ->
  Reset.smtp_configured = true ->
  Validation.isValidEmail (Some address) = true ->
  Reset.findOne_email (Validation.sanitizeEmail (Some address)) s = Some a ->
  Js.trim any <> ""%string ->
  Validation.validatePassword (Some password) = [] ->
  Forall (fun b => _id (Reset.doc b) <> _id (Reset.doc a) ->
                   Reset.resetPasswordToken b <> Some (Reset.sha256 any)) s ->
  let failed := Reset.forgot_password now resetToken false "POST" (Some address) s in
  failed.1.1 = Reset.Failure 500 "Failed to send email" [] /\
  failed.2 = None /\
  Reset.reset_password later "POST" (Some any) (Some password) failed.1.2
  = (Reset.Failure 400 "Invalid or expired token" [], failed.1.2).
Proof.
  intros Hnd Hsmtp Hvalid Hfind Hany Hpw Hothers. cbn zeta.
  pose proof (reset_find_email _ _ _ Hfind) as Hin.
  unfold Reset.forgot_password. rewrite Hvalid, Hfind, Hsmtp.
  assert (Hpresent : Js.present (Some address) = true).
  { unfold Validation.isValidEmail in Hvalid. simpl.
    destruct (String.eqb address ""); [discriminate | reflexivity]. }
  rewrite Hpresent. simpl. split; [reflexivity |]. split; [reflexivity |].
  rewrite (reset_with_token later any password _ Hany Hpw).
  set (a1 := Reset.generatePasswordResetToken now resetToken a).
  set (a0 := Reset.Account (Reset.doc a) None None).
  destruct (Reset.findOne_reset _ later _) as [y |] eqn:Hy; [| reflexivity].
  exfalso. unfold Reset.findOne_reset in Hy. apply find_some in Hy as [Hyin Hred].
  assert (Hnd1 : NoDup (Reset.ids (Reset.save a1 s))) by (by rewrite reset_save_ids).
  rewrite (reset_save_map a0 _ Hnd1), (reset_save_map a1 s Hnd), map_map in Hyin.
  apply in_map_iff in Hyin as (b & <- & Hb).
  rewrite Forall_forall in Hothers.
  pose proof (Hothers b (proj2 (list_elem_of_In _ _) Hb)) as Hb'.
  unfold Reset.redeemable in Hred. apply andb_true_iff in Hred as [Hred _].
  apply bool_decide_eq_true in Hred. revert Hred.
  destruct (decide (_id (Reset.doc b) = _id (Reset.doc a))) as [Hsame | Hdiff].
  - rewrite (bool_decide_true (_id (Reset.doc b) = _id (Reset.doc a1))) by exact Hsame.
    rewrite bool_decide_true by reflexivity. discriminate.
  - rewrite (bool_decide_false (_id (Reset.doc b) = _id (Reset.doc a1))) by exact Hdiff.
    rewrite bool_decide_false by exact Hdiff. by apply Hb'.
Qed.

End ResetInvariants.

(** ** Instances on the example data *)


Lemma rotation_ledger_length_witness :
  exists t p,
    cookie_refresh_token (with_refresh_cookie alice_refresh) = Some t /\
    verifyRefreshToken (env := example_env) 5000 t = Some p /\
    let before := length (ledger (Jwt.userId (Jwt.data p)) example_db) in
    (1 <= before)%nat /\
    length (ledger (Jwt.userId (Jwt.data p))
              (handler_refresh (env := example_env) 5000
                 (with_refresh_cookie alice_refresh) example_db).2)
    = if (10 <? before)%nat then (before - 1)%nat else before.
Proof.
  apply (rotation_ledger_length (env := example_env) 5000
           (with_refresh_cookie alice_refresh) example_db
           (handler_refresh (env := example_env) 5000
              (with_refresh_cookie alice_refresh) example_db).2
           (handler_refresh (env := example_env) 5000
              (with_refresh_cookie alice_refresh) example_db).1).
  - by vm_compute.
  - by vm_compute.
Defined.

(** [alice]'s refresh token of a later second, which her ledger does not hold. *)
Lemma reuse_clears_one_ledger_witness :
  let t := generateRefreshToken (env := example_env) 2000 alice in
  let req := with_refresh_cookie t in
  (handler_refresh (env := example_env) 5000 req example_db).1
    = Response 403 Cleared (Error "Refresh token reuse detected") /\
  ledger (_id alice) (handler_refresh (env := example_env) 5000 req example_db).2 = [] /\
  (forall id, id <> _id alice ->
     ledger id (handler_refresh (env := example_env) 5000 req example_db).2
     = ledger id example_db) /\
  map _id (handler_refresh (env := example_env) 5000 req example_db).2 = map _id example_db.
Proof.
  apply (reuse_clears_one_ledger (env := example_env) 5000
           (with_refresh_cookie (generateRefreshToken (env := example_env) 2000 alice))
           example_db (generateRefreshToken (env := example_env) 2000 alice)
           (Jwt.Payload (Jwt.Claims (_id alice) None None) 2 604802) alice_logged_in);
    by vm_compute.
Defined.

Lemma access_token_as_refresh_witness :
  (handler_refresh (env := example_env) 5000 (with_refresh_cookie alice_access) example_db).1
    = Response 403 Cleared (Error "Refresh token reuse detected") /\
  ledger (_id alice)
    (handler_refresh (env := example_env) 5000 (with_refresh_cookie alice_access)
       example_db).2 = [].
Proof.
  apply (access_token_as_refresh (env := example_env) 1000 5000
           (with_refresh_cookie alice_access) example_db alice alice_logged_in).
  - reflexivity.
  - reflexivity.
  - by vm_compute.
  - by vm_compute.
  - repeat constructor.
Defined.


(** The forged token above is answered 500 by the refresh route and by
    [/api/auth/me], and is turned down by [getUserFromReq]. *)
Example cast_error_answers :
  let forged := Jwt.sign 1000 (Jwt.Claims "not-an-id" None None) "devsecret"
                  (7 * 24 * 60 * 60) in
  handler_refresh (env := example_env) 5000 (with_refresh_cookie forged) example_db
  = (internal_error, example_db) /\
  handler_me (env := example_env) 5000 (with_access_cookie forged) example_db
  = internal_error /\
  handler_user_me (env := example_env) 5000 (with_bearer forged) example_db
  = Response 401 Untouched (Error "unauth").
Proof. by vm_compute. Qed.

Lemma logout_then_refresh_witness :
  let req := with_refresh_cookie alice_refresh in
  let db1 := (handler_logout req [alice_two_sessions; bob]).2 in
  (handler_refresh (env := example_env) 5000 req db1).1
    = Response 403 Cleared (Error "Refresh token reuse detected") /\
  ledger (_id alice) (handler_refresh (env := example_env) 5000 req db1).2 = [].
Proof.
  apply (logout_then_refresh (env := example_env) 5000
           (with_refresh_cookie alice_refresh) (with_refresh_cookie alice_refresh)
           [alice_two_sessions; bob] alice_refresh alice_refresh_payload
           alice_two_sessions).
  - apply (bool_decide_unpack _). by vm_compute.
  - unfold ledgers_owned. repeat constructor.
  - reflexivity.
  - reflexivity.
  - reflexivity.
  - reflexivity.
  - by vm_compute.
  - by vm_compute.
Defined.

Lemma login_then_me_witness :
  let a := generateAccessToken (env := example_env) 5000 alice_logged_in in
  let db' := (handler_login (env := example_env) 5000 login_alice example_db).2 in
  handler_me (env := example_env) 904999 (with_access_cookie a) db'
    = Response 200 Untouched (UserDoc (summary_of alice)) /\
  handler_user_me (env := example_env) 904999 (with_bearer a) db'
    = Response 200 Untouched (Me (summary_of alice)).
Proof.
  apply (login_then_me (env := example_env) 5000 904999 login_alice
           (with_access_cookie (generateAccessToken (env := example_env) 5000 alice_logged_in))
           (with_bearer (generateAccessToken (env := example_env) 5000 alice_logged_in))
           example_db
           (handler_login (env := example_env) 5000 login_alice example_db).2
           (summary_of alice)
           (generateAccessToken (env := example_env) 5000 alice_logged_in)
           (AuthCookies (generateAccessToken (env := example_env) 5000 alice_logged_in)
              (generateRefreshToken (env := example_env) 5000 alice_logged_in))).
  - apply (bool_decide_unpack _). by vm_compute.
  - by vm_compute.
  - by vm_compute.
  - reflexivity.
  - reflexivity.
  - reflexivity.
  - reflexivity.
Defined.

(** An expired bearer token next to a valid cookie, and a header with the
    wrong scheme next to the same cookie. *)
Lemma bearer_shadows_cookie_witness :
  getUserFromReq (env := example_env) 1000000
    (Request "GET" (Some [Jwt.Opaque "Bearer"; alice_access])
       (Some (generateAccessToken (env := example_env) 999000 alice)) None no_form)
    example_db = None /\
  getUserFromReq (env := example_env) 1000000
    (Request "GET" (Some [Jwt.Opaque "Basic"; alice_access])
       (Some (generateAccessToken (env := example_env) 999000 alice)) None no_form)
    example_db = Some alice_logged_in.
Proof.
  split.
  - apply (proj1 (bearer_shadows_cookie (env := example_env) 1000000
                    (Request "GET" (Some [Jwt.Opaque "Bearer"; alice_access])
                       (Some (generateAccessToken (env := example_env) 999000 alice))
                       None no_form) example_db) alice_access);
      by vm_compute.
  - rewrite (proj2 (bearer_shadows_cookie (env := example_env) 1000000
                      (Request "GET" (Some [Jwt.Opaque "Basic"; alice_access])
                         (Some (generateAccessToken (env := example_env) 999000 alice))
                         None no_form) example_db)).
    + by vm_compute.
    + intros t. discriminate.
Defined.

Lemma refresh_token_as_access_witness :
  handler_me (env := example_env) 604800999 (with_access_cookie alice_refresh) [alice; bob]
    = Response 200 Untouched (UserDoc (summary_of alice)) /\
  getUserFromReq (env := example_env) 604800999 (with_bearer alice_refresh) [alice; bob]
    = Some alice.
Proof.
  apply (refresh_token_as_access (env := example_env) 1000 604800999 alice alice
           [alice; bob] (with_access_cookie alice_refresh) (with_bearer alice_refresh));
    by vm_compute.
Defined.

Lemma register_effect_witness :
  let out := handler_register (env := example_app_env) 5000 carol_id register_carol
               example_db in
  (exists u, _id u = carol_id /\ isAdmin u = false /\ out.2 = example_db ++ [u] /\
     refresh_cookie_of out.1 = Some (generateRefreshToken (env := example_app_env) 5000 u) /\
     refreshTokens u
     = [TokenEntry (generateRefreshToken (env := example_app_env) 5000 u) 5000]) /\
  (forall id, id <> carol_id -> ledger id out.2 = ledger id example_db) /\
  (forall now' oid',
     handler_register (env := example_app_env) now' oid' register_carol out.2
     = (Response 400 Untouched (Error "User with this email already exists"), out.2)).
Proof.
  apply (register_effect (env := example_app_env) 5000 carol_id register_carol example_db).
  - apply (bool_decide_unpack _). by vm_compute.
  - by vm_compute.
  - by vm_compute.
Defined.

Lemma run_store_invariants_witness :
  unique_ids (run (env := example_app_env) example_run []) /\
  ledgers_owned (run (env := example_app_env) example_run []) /\
  ledgers_refresh_only (run (env := example_app_env) example_run []).
Proof.
  apply (run_store_invariants (env := example_app_env) example_run).
  unfold example_run. simpl. repeat split; try discriminate.
  intros oid req [= <- _]. apply not_elem_of_nil.
Defined.

Lemma admin_users_only_for_stored_admin_witness :
  (exists u,
     getUserFromReq (env := example_env) 5000
       (with_bearer (generateAccessToken (env := example_env) 1000 root)) [alice; root]
     = Some u /\ In u [alice; root] /\ isAdmin u = true) /\
  handler_admin_users (env := example_env) 5000
    (with_bearer (generateAccessToken (env := example_env) 1000 root))
    [alice; User (_id root) (name root) (email root) (passwordHash root) false []]
  = NotAdmin.
Proof.
  split.
  - assert (H : handler_admin_users (env := example_env) 5000
                  (with_bearer (generateAccessToken (env := example_env) 1000 root))
                  [alice; root] = AllUsers [alice; root]) by (by vm_compute).
    exact (proj2 (proj1 (admin_users_only_for_stored_admin (env := example_env) 5000
                           (with_bearer (generateAccessToken (env := example_env) 1000 root))
                           [alice; root]) [alice; root] H)).
  - apply (proj2 (admin_users_only_for_stored_admin (env := example_env) 5000
                    (with_bearer (generateAccessToken (env := example_env) 1000 root))
                    [alice; User (_id root) (name root) (email root) (passwordHash root)
                              false []])
             1000 root
             (User (_id root) (name root) (email root) (passwordHash root) false []));
      by vm_compute.
Defined.

Lemma sanitizeEmail_stable_witness :
  let e := Validation.sanitizeEmail (Some " Carol@Example.COM "%string) in
  e = "carol@example.com"%string /\
  Validation.isValidEmail (Some e) = true /\
  Validation.sanitizeEmail (Some e) = e /\
  Regex.test Validation.emailRegex e = true /\
  schema_accepts_email e = true.
Proof.
  split; [by vm_compute |].
  apply (sanitizeEmail_stable " Carol@Example.COM "). by vm_compute.
Defined.

Lemma registration_passes_schema_witness :
  schema_accepts_name "Carol O'Neil" = true /\
  schema_accepts_email "carol@example.com" = true /\
  f_password carol_form = Some "tr0ub4dor&3"%string.
Proof.
  apply (registration_passes_schema carol_form "Carol O'Neil" "carol@example.com"
           "tr0ub4dor&3").
  by vm_compute.
Defined.

Lemma registration_valid_is_login_valid_witness :
  Validation.validateLogin carol_form
  = Valid ("carol@example.com"%string, "tr0ub4dor&3"%string) /\
  (6 <= String.length (Js.trim "tr0ub4dor&3"))%nat /\
  (String.length (Js.trim "tr0ub4dor&3") <= 128)%nat.
Proof.
  apply (registration_valid_is_login_valid carol_form "Carol O'Neil" "carol@example.com"
           "tr0ub4dor&3").
  by vm_compute.
Defined.

Lemma register_then_login_witness :
  status (handler_login (env := example_app_env) 9000 register_carol
            (handler_register (env := example_app_env) 5000 carol_id register_carol
               example_db).2).1 = 200.
Proof.
  apply (register_then_login "devsecret" (bcrypt_compare (Env := example_env))
           (bcrypt_hash (Env := example_env)) 5000 9000 carol_id register_carol example_db
           (handler_register (env := example_app_env) 5000 carol_id register_carol
              example_db).2
           (handler_register (env := example_app_env) 5000 carol_id register_carol
              example_db).1).
  - intros pw. simpl. by apply bool_decide_eq_true.
  - by vm_compute.
  - by vm_compute.
Defined.

Lemma forgot_password_hides_accounts_witness :
  (Reset.forgot_password (mail := example_mail) 1000 example_reset_token true "POST"
     (Some "alice@example.com"%string) example_accounts).1.1
  = (Reset.forgot_password (mail := example_mail) 1000 example_reset_token true "POST"
       (Some "alice@example.com"%string) []).1.1.
Proof.
  apply (forgot_password_hides_accounts (mail := example_mail)). reflexivity.
Defined.

Lemma forgot_password_unconfigured_witness :
  Reset.forgot_password (mail := example_no_mail) 1000 example_reset_token true "POST"
    (Some "alice@example.com"%string) example_accounts
  = (Reset.Failure 500 "Email service not configured" [],
     [Reset.Account alice_logged_in (Some ("sha256:" +:+ example_reset_token)%string)
        (Some 3601000);
      Reset.Account bob None None],
     None) /\
  Reset.forgot_password (mail := example_no_mail) 1000 example_reset_token true "POST"
    (Some "nobody@example.com"%string) example_accounts
  = (Reset.Success Reset.enumeration_safe_message, example_accounts, None).
Proof.
  split.
  - exact (forgot_password_unconfigured (mail := example_no_mail) 1000 example_reset_token
             true "alice@example.com" example_accounts eq_refl eq_refl).
  - exact (forgot_password_unconfigured (mail := example_no_mail) 1000 example_reset_token
             true "nobody@example.com" example_accounts eq_refl eq_refl).
Defined.

Lemma reset_round_trip_witness :
  let s1 := (Reset.forgot_password (mail := example_mail) 1000
               example_reset_token true "POST" (Some " Alice@Example.com "%string)
               example_accounts).1.2 in
  let redeemed := Reset.reset_password (env := example_env) (mail := example_mail) 3600999
                    "POST" (Some example_reset_token) (Some "tr0ub4dor&3"%string) s1 in
  redeemed.1
  = Reset.Success
      "Password has been reset successfully. You can now login with your new password." /\
  findById (_id alice) (Reset.users redeemed.2)
  = Some (User (_id alice) (name alice) (email alice) "$2a$tr0ub4dor&3" false
            (refreshTokens alice_logged_in)) /\
  Forall (fun b => Reset.resetPasswordToken b
                   <> Some (Reset.sha256 (Mail := example_mail) example_reset_token))
    redeemed.2 /\
  Reset.reset_password (env := example_env) (mail := example_mail) 3601000 "POST"
    (Some example_reset_token) (Some "c0rrect-h0rse"%string) redeemed.2
  = (Reset.Failure 400 "Invalid or expired token" [], redeemed.2).
Proof.
  apply (reset_round_trip (env := example_env) (mail := example_mail) 1000 3600999 3601000
           example_reset_token " Alice@Example.com " "tr0ub4dor&3" "c0rrect-h0rse" true
           (Reset.Account alice_logged_in None None) example_accounts).
  - apply (bool_decide_unpack _). by vm_compute.
  - repeat constructor; discriminate.
  - by vm_compute.
  - by vm_compute.
  - reflexivity.
  - by vm_compute.
  - by vm_compute.
  - by vm_compute.
  - reflexivity.
Defined.

Lemma reset_token_expires_witness :
  let s1 := (Reset.forgot_password (mail := example_mail) 1000
               example_reset_token true "POST" (Some " Alice@Example.com "%string)
               example_accounts).1.2 in
  Reset.reset_password (env := example_env) (mail := example_mail) 3601000 "POST"
    (Some example_reset_token) (Some "tr0ub4dor&3"%string) s1
  = (Reset.Failure 400 "Invalid or expired token" [], s1).
Proof.
  apply (reset_token_expires (env := example_env) (mail := example_mail) 1000 3601000
           example_reset_token " Alice@Example.com " "tr0ub4dor&3" true
           (Reset.Account alice_logged_in None None) example_accounts).
  - apply (bool_decide_unpack _). by vm_compute.
  - repeat constructor; discriminate.
  - by vm_compute.
  - by vm_compute.
  - reflexivity.
  - by vm_compute.
  - by vm_compute.
  - by vm_compute.
Defined.


Lemma forgot_password_send_failure_witness :
  let failed := Reset.forgot_password (mail := example_mail) 1000
                  example_reset_token false "POST" (Some "alice@example.com"%string)
                  example_accounts in
  failed.1.1 = Reset.Failure 500 "Failed to send email" [] /\
  failed.2 = None /\
  Reset.reset_password (env := example_env) (mail := example_mail) 2000 "POST"
    (Some example_reset_token) (Some "tr0ub4dor&3"%string) failed.1.2
  = (Reset.Failure 400 "Invalid or expired token" [], failed.1.2).
Proof.
  apply (forgot_password_send_failure (env := example_env) (mail := example_mail) 1000 2000
           example_reset_token "alice@example.com" example_reset_token "tr0ub4dor&3"
           (Reset.Account alice_logged_in None None) example_accounts).
  - apply (bool_decide_unpack _). by vm_compute.
  - reflexivity.
  - by vm_compute.
  - by vm_compute.
  - by vm_compute.
  - by vm_compute.
  - repeat constructor; discriminate.
Defined.

(** ** The request interceptor and the replay of a request *)

Section ReplayFacts.

Context {env : Env}.

Lemma access_token_expired (issued now : Z) (u : user) :
  issued / 1000 + ACCESS_TOKEN_EXPIRY <= now / 1000 ->
  verifyAccessToken now (generateAccessToken issued u) = None.
Proof.
  intros H. unfold verifyAccessToken, generateAccessToken, Jwt.sign, Jwt.verify.
  rewrite bool_decide_true by reflexivity. cbn [Jwt.exp].
  destruct (Z.geb_spec (now / 1000) (issued / 1000 + ACCESS_TOKEN_EXPIRY)); [reflexivity | lia].
Qed.

Lemma interceptor_stamps (issued : Z) (u : user) (c : Axios.config) :
  Axios.no_header (Axios.Authorization c) = true ->
  Axios.requestInterceptor (Some (generateAccessToken issued u)) c
  = Axios.Config (Axios.originalRequest c)
      (Some [Jwt.Opaque "Bearer"; generateAccessToken issued u]).
Proof.
  intros Hc. unfold Axios.requestInterceptor, generateAccessToken, Jwt.sign.
  cbn [truthy andb Axios.header_parts]. by rewrite Hc.
Qed.

(** X28. The request interceptor writes the [Authorization] header only on a
    configuration that has none.  Applied again, whatever [localStorage]
    holds by then, to a configuration it stamped with an issued access token,
    it leaves the configuration as it is; and once that token has expired
    [getUserFromReq] turns down every request carrying that header, whatever
    its [access_token] cookie holds. *)
Theorem stale_header_survives_replay (issued now : Z) (u : user) (db : DB)
    (stored : option token) (c : Axios.config) :
  Axios.no_header (Axios.Authorization c) = true ->
  issued / 1000 + ACCESS_TOKEN_EXPIRY <= now / 1000 ->
  let sent := Axios.requestInterceptor (Some (generateAccessToken issued u)) c in
  Axios.requestInterceptor stored sent = sent /\
  forall req, authorization req = Axios.Authorization sent ->
              getUserFromReq now req db = None.
Proof.
  intros Hc Hexp. cbn zeta. rewrite (interceptor_stamps issued u c Hc).
  split.
  - unfold Axios.requestInterceptor. destruct stored as [t |]; [| reflexivity].
    cbn [Axios.Authorization Axios.no_header].
    unfold generateAccessToken, Jwt.sign. by rewrite andb_false_r.
  - intros req Ha. cbn [Axios.Authorization] in Ha.
    unfold getUserFromReq, bearer. rewrite Ha.
    rewrite bool_decide_true by reflexivity.
    assert (Ht : truthy (generateAccessToken issued u) = true) by reflexivity.
    rewrite Ht. cbn [negb].
    by rewrite Ht, (access_token_expired issued now u Hexp).
Qed.

End ReplayFacts.

(** ** Tracking who opened the notification of a note *)

Lemma same_object_id_refl (a : string) : Notes.same_object_id a a = true.
Proof. unfold Notes.same_object_id. apply String.eqb_refl. Qed.

Lemma same_object_id_trans (a b c : string) :
  Notes.same_object_id a b = true -> Notes.same_object_id b c = true ->
  Notes.same_object_id a c = true.
Proof.
  unfold Notes.same_object_id. rewrite !String.eqb_eq. congruence.
Qed.

Lemma same_object_id_sym (a b : string) :
  Notes.same_object_id a b = Notes.same_object_id b a.
Proof. unfold Notes.same_object_id. apply String.eqb_sym. Qed.

Lemma notes_findById_same (id : string) (n : Notes.note) (notes : list Notes.note) :
  Notes.findById id notes = Some n ->
  n ∈ notes /\ Notes.same_object_id (Notes._id n) id = true.
Proof.
  unfold Notes.findById. intros H. apply List.find_some in H as [Hin Hid].
  split; [by apply list_elem_of_In | exact Hid].
Qed.

Lemma notes_findById_save (id : string) (n n' : Notes.note) (notes : list Notes.note) :
  Notes.findById id notes = Some n ->
  Notes._id n' = Notes._id n ->
  Notes.findById id (Notes.save n' notes) = Some n'.
Proof.
  intros Hf Hid. pose proof (notes_findById_same _ _ _ Hf) as [_ Hsame].
  revert Hf. unfold Notes.findById. induction notes as [| m rest IH]; [discriminate |].
  cbn [List.find Notes.save]. destruct (Notes.same_object_id (Notes._id m) id) eqn:Hm.
  - intros [= ->]. rewrite Hid, same_object_id_refl. cbn [List.find].
    by rewrite Hid, Hsame.
  - intros Hf. destruct (Notes.same_object_id (Notes._id m) (Notes._id n')) eqn:Hm'.
    + rewrite Hid in Hm'.
      by rewrite (same_object_id_trans _ _ _ Hm' Hsame) in Hm.
    + cbn [List.find]. rewrite Hm. by apply IH.
Qed.

Lemma notes_save_Forall (P : Notes.note -> Prop) (n : Notes.note) (notes : list Notes.note) :
  Forall P notes -> P n -> Forall P (Notes.save n notes).
Proof.
  intros Hall Hn. induction Hall as [| m rest Hm Hrest IH]; [constructor |].
  cbn [Notes.save]. destruct (Notes.same_object_id (Notes._id m) (Notes._id n));
    by constructor.
Qed.

Lemma notes_save_found (id : string) (n n' : Notes.note) (notes : list Notes.note) :
  Notes.findById id notes = Some n ->
  Notes._id n' = Notes._id n ->
  exists before after,
    notes = before ++ n :: after /\ Notes.save n' notes = before ++ n' :: after.
Proof.
  intros Hf Hid. pose proof (notes_findById_same _ _ _ Hf) as [_ Hsame].
  revert Hf. unfold Notes.findById. induction notes as [| m rest IH]; [discriminate |].
  cbn [List.find Notes.save]. destruct (Notes.same_object_id (Notes._id m) id) eqn:Hm.
  - intros [= ->]. rewrite Hid, same_object_id_refl. by exists [], rest.
  - intros Hf. destruct (Notes.same_object_id (Notes._id m) (Notes._id n')) eqn:Hm'.
    + rewrite Hid in Hm'.
      by rewrite (same_object_id_trans _ _ _ Hm' Hsame) in Hm.
    + destruct (IH Hf) as (before & after & -> & ->).
      by exists (m :: before), after.
Qed.

Lemma notes_save_map {A} (f : Notes.note -> A) (id : string) (n n' : Notes.note)
    (notes : list Notes.note) :
  Notes.findById id notes = Some n ->
  Notes._id n' = Notes._id n ->
  f n' = f n ->
  map f (Notes.save n' notes) = map f notes.
Proof.
  intros Hf Hid Hfn. destruct (notes_save_found _ _ _ _ Hf Hid) as (before & after & -> & ->).
  rewrite !map_app. cbn [map]. by rewrite Hfn.
Qed.

Lemma same_address_found (se : string) (l : list string) :
  existsb (Notes.same_address se) l = true ->
  exists c, List.find (Notes.same_address se) l = Some c /\ c ∈ l
            /\ Notes.same_address se c = true.
Proof.
  intros H. destruct (List.find (Notes.same_address se) l) as [c |] eqn:Hf.
  - apply List.find_some in Hf as [Hin Hc]. exists c.
    split; [reflexivity |]. split; [by apply list_elem_of_In | exact Hc].
  - apply existsb_exists in H as (c & Hin & Hc).
    by rewrite (List.find_none _ _ Hf c Hin) in Hc.
Qed.

Lemma same_address_sanitized (se c : string) :
  Notes.same_address se c = true -> Validation.sanitizeEmail (Some c) = se.
Proof.
  unfold Notes.same_address. intros H. apply andb_true_iff in H as [_ H].
  by apply String.eqb_eq in H.
Qed.

Lemma same_address_absent (se : string) (l : list string) :
  se <> ""%string ->
  existsb (Notes.same_address se) l = false ->
  se ∉ map (fun e => Validation.sanitizeEmail (Some e)) l.
Proof.
  intros Hne H Hin. apply list_elem_of_fmap in Hin as (e & He & Hin).
  assert (Hfalse : Notes.same_address se e = false).
  { destruct (Notes.same_address se e) eqn:E; [| reflexivity].
    rewrite <- H. symmetry. apply existsb_exists. exists e.
    split; [by apply list_elem_of_In | exact E]. }
  unfold Notes.same_address in Hfalse. rewrite <- He, String.eqb_refl, andb_true_r in Hfalse.
  apply negb_false_iff, String.eqb_eq in Hfalse. subst e. by apply Hne.
Qed.

Section TrackingFacts.

Context {env : Env}.

(** X29. Tracking is idempotent up to letter case and surrounding white
    space: once an address has been tracked on a note, tracking any address
    with the same sanitized form on that note again, by whichever
    authenticated caller, answers with the same list and writes nothing. *)
Theorem track_email_open_idempotent (now1 now2 : Z) (req1 req2 : request)
    (id address1 address2 : option string) (db1 db2 : DB)
    (notes notes' : list Notes.note) (l : list string) :
  Notes.track_email_open now1 req1 id address1 db1 notes = (Notes.Tracked l, notes') ->
  method req2 = "POST"%string ->
  getUserFromReq now2 req2 db2 <> None ->
  Validation.isValidEmail address2 = true ->
  Validation.sanitizeEmail address2 = Validation.sanitizeEmail address1 ->
  Notes.track_email_open now2 req2 id address2 db2 notes' = (Notes.Tracked l, notes').
Proof.
  intros H Hm2 Hu2 Hv2 Hs.
  assert (Hp2 : Js.present address2 = true).
  { destruct address2 as [s |]; [| discriminate]. unfold Validation.isValidEmail in Hv2.
    unfold Js.present. destruct (String.eqb s ""); [discriminate | reflexivity]. }
  unfold Notes.track_email_open in H |- *.
  rewrite Hm2, bool_decide_true by reflexivity. cbn [negb].
  destruct (getUserFromReq now2 req2 db2) as [u2 |]; [clear Hu2 | by destruct Hu2].
  destruct (negb (bool_decide (method req1 = "POST"%string))); [discriminate |].
  destruct (getUserFromReq now1 req1 db1) as [u1 |]; [| discriminate].
  destruct (negb (Js.present id) || negb (Validation.isValidObjectId id)); [discriminate |].
  destruct (negb (Js.present address1)); [discriminate |].
  destruct (negb (Validation.isValidEmail address1)); [discriminate |].
  rewrite Hp2, Hv2. cbn [negb]. cbn zeta in H |- *. rewrite Hs.
  set (se := Validation.sanitizeEmail address1) in *.
  destruct (Notes.findById (default ""%string id) notes) as [n |] eqn:Hf; [| discriminate].
  destruct (existsb (Notes.same_address se) (Notes.collaborators n)) eqn:Hc;
    [| discriminate].
  cbn [negb] in H.
  destruct (existsb (Notes.same_address se) (Notes.emailOpenedBy n)) eqn:Ht.
  - injection H as <- <-. by rewrite Hf, Hc, Ht.
  - destruct (same_address_found _ _ Hc) as (c & Hfind & _ & Hsame).
    rewrite Hfind in H. change (default se (Some c)) with c in H.
    cbn [Notes.emailOpenedBy] in H.
    injection H as <- <-.
    rewrite (notes_findById_save _ n
               (Notes.Note (Notes._id n) (Notes.owner n) (Notes.title n) (Notes.content n)
                  (Notes.collaborators n) (push c (Notes.emailOpenedBy n))) _ Hf eq_refl).
    cbn [Notes.collaborators Notes.emailOpenedBy]. rewrite Hc. cbn [negb].
    unfold push. rewrite existsb_app. cbn [existsb]. rewrite Hsame.
    by rewrite orb_true_r.
Qed.

(** X30. What tracking writes: the identifiers and the collaborators of the
    notes stay as they are; a list answered with success holds the tracked
    address in its sanitized form; and if in every note the addresses
    recorded as having opened the notification are collaborators of that
    note, no two of them equal once sanitized, this is so afterwards. *)
Theorem track_email_open_keeps_invariant (now : Z) (req : request)
    (id address : option string) (db : DB) (notes : list Notes.note) :
  let after := Notes.track_email_open now req id address db notes in
  map Notes._id after.2 = map Notes._id notes /\
  map Notes.collaborators after.2 = map Notes.collaborators notes /\
  (forall l, after.1 = Notes.Tracked l ->
             Validation.sanitizeEmail address
             ∈ map (fun e => Validation.sanitizeEmail (Some e)) l) /\
  (Forall Notes.opened_by_collaborators notes ->
   Forall Notes.opened_by_collaborators after.2).
Proof.
  cbn zeta. unfold Notes.track_email_open.
  destruct (negb (bool_decide (method req = "POST"%string)));
    [by repeat split |].
  destruct (getUserFromReq now req db) as [u |]; [| by repeat split].
  destruct (negb (Js.present id) || negb (Validation.isValidObjectId id));
    [by repeat split |].
  destruct (negb (Js.present address)); [by repeat split |].
  destruct (Validation.isValidEmail address) eqn:Hv; [| by repeat split].
  cbn [negb]. cbn zeta.
  destruct address as [a |]; [| discriminate].
  destruct (sanitizeEmail_matches a Hv) as [_ Hne].
  set (se := Validation.sanitizeEmail (Some a)) in *.
  destruct (Notes.findById (default ""%string id) notes) as [n |] eqn:Hf;
    [| by repeat split].
  destruct (notes_findById_same _ _ _ Hf) as [Hin Hsame].
  destruct (existsb (Notes.same_address se) (Notes.collaborators n)) eqn:Hc;
    [| by repeat split].
  cbn [negb].
  destruct (existsb (Notes.same_address se) (Notes.emailOpenedBy n)) eqn:Ht.
  - cbn [fst snd]. repeat split; try done.
    intros l [= <-]. apply existsb_exists in Ht as (e & He & Hse).
    apply list_elem_of_fmap. exists e.
    split; [symmetry; by apply same_address_sanitized | by apply list_elem_of_In].
  - destruct (same_address_found _ _ Hc) as (c & Hfind & Hcin & Hcs).
    rewrite Hfind. change (default se (Some c)) with c.
    cbn [fst snd Notes.emailOpenedBy].
    pose proof (same_address_sanitized _ _ Hcs) as Hcse.
    split; [| split; [| split]].
    + by apply (notes_save_map Notes._id (default ""%string id) n).
    + by apply (notes_save_map Notes.collaborators (default ""%string id) n).
    + intros l [= <-]. unfold push. rewrite map_app. apply elem_of_app. right.
      cbn [map]. rewrite Hcse. by left.
    + intros Hall. apply notes_save_Forall; [exact Hall |].
      rewrite Forall_forall in Hall. destruct (Hall n Hin) as [Hsub Hnd].
      split; cbn [Notes.collaborators Notes.emailOpenedBy].
      * unfold push. apply Forall_app. split; [exact Hsub |]. by repeat constructor.
      * unfold Notes.distinct_addresses, push. rewrite map_app. apply NoDup_app.
        split; [exact Hnd |]. split; [| cbn [map]; apply NoDup_singleton].
        intros x Hx Hx'. cbn [map] in Hx'. apply list_elem_of_singleton in Hx'.
        subst x. rewrite Hcse in Hx.
        apply (same_address_absent se (Notes.emailOpenedBy n)); [| exact Ht | exact Hx].
        intros He. rewrite He in Hne. discriminate.
Qed.

End TrackingFacts.

Lemma stale_header_survives_replay_witness :
  let fresh := generateAccessToken (env := example_env) 2000000 alice in
  let sent := Axios.requestInterceptor (Some alice_access) example_config in
  Axios.requestInterceptor (Some fresh) sent = sent /\
  getUserFromReq (env := example_env) 2000000
    (Request "GET" (Axios.Authorization sent) (Some fresh) None no_form) example_db = None /\
  getUserFromReq (env := example_env) 2000000 (with_access_cookie fresh) example_db
  = Some alice_logged_in.
Proof.
  destruct (stale_header_survives_replay (env := example_env) 1000 2000000 alice example_db
              (Some (generateAccessToken (env := example_env) 2000000 alice))
              example_config eq_refl) as [Hreplay Hrejected].
  - by vm_compute.
  - cbn zeta. split; [exact Hreplay |]. split; [| by vm_compute].
    apply Hrejected. reflexivity.
Defined.

Lemma track_email_open_idempotent_witness :
  let first := Notes.track_email_open (env := example_env) 2000 (track_with_cookie alice_access)
                 (Some "65b0000000000000000000d4"%string) (Some " BOB@example.com "%string)
                 example_db [example_note] in
  first.1 = Notes.Tracked ["Bob@Example.com"%string] /\
  Notes.track_email_open (env := example_env) 3000 (track_with_cookie alice_access)
    (Some "65B0000000000000000000D4"%string) (Some "bob@EXAMPLE.com"%string)
    example_db first.2
  = (Notes.Tracked ["Bob@Example.com"%string], first.2).
Proof.
  cbn zeta. split; [by vm_compute |].
  assert (Hid : Notes.track_email_open (env := example_env) 3000
                  (track_with_cookie alice_access)
                  (Some "65B0000000000000000000D4"%string) (Some "bob@EXAMPLE.com"%string)
                  example_db
                  (Notes.track_email_open (env := example_env) 2000
                     (track_with_cookie alice_access)
                     (Some "65B0000000000000000000D4"%string)
                     (Some " BOB@example.com "%string) example_db [example_note]).2
                = (Notes.Tracked ["Bob@Example.com"%string],
                   (Notes.track_email_open (env := example_env) 2000
                      (track_with_cookie alice_access)
                      (Some "65B0000000000000000000D4"%string)
                      (Some " BOB@example.com "%string) example_db [example_note]).2)).
  { apply (track_email_open_idempotent (env := example_env) 2000 3000
             (track_with_cookie alice_access) (track_with_cookie alice_access)
             (Some "65B0000000000000000000D4"%string)
             (Some " BOB@example.com "%string) (Some "bob@EXAMPLE.com"%string)
             example_db example_db [example_note]).
    - by vm_compute.
    - reflexivity.
    - vm_compute. discriminate.
    - by vm_compute.
    - by vm_compute. }
  exact Hid.
Defined.

Lemma track_email_open_keeps_invariant_witness :
  Forall Notes.opened_by_collaborators
    (Notes.track_email_open (env := example_env) 2000 (track_with_cookie alice_access)
       (Some "65b0000000000000000000d4"%string) (Some " BOB@example.com "%string)
       example_db [example_note]).2.
Proof.
  destruct (track_email_open_keeps_invariant (env := example_env) 2000
              (track_with_cookie alice_access)
              (Some "65b0000000000000000000d4"%string) (Some " BOB@example.com "%string)
              example_db [example_note]) as (_ & _ & _ & Hkeeps).
  apply Hkeeps. constructor; [| constructor].
  split; [constructor | constructor].
Defined.

(** ** One expiry, several refreshes *)

Section ExpiryFacts.

Context {env : Env}.

Lemma stale_call_rejected (issued now : Z) (u : user) (db : DB)
    (stored cookie : option token) (c : Client.config) :
  issued / 1000 + ACCESS_TOKEN_EXPIRY <= now / 1000 ->
  answer_status now stored cookie (protected_call (generateAccessToken issued u) c) db = 401.
Proof.
  intros Hexp. unfold answer_status, protected_call, Axios.requestInterceptor.
  assert (Hsent : match stored with
                  | Some t =>
                      if truthy t
                         && Axios.no_header
                              (Axios.Authorization
                                 (Axios.Config c
                                    (Some (Jwt.Opaque "Bearer"
                                           :: Axios.header_parts (generateAccessToken issued u)))))
                      then Axios.Config
                             (Axios.originalRequest
                                (Axios.Config c
                                   (Some (Jwt.Opaque "Bearer"
                                          :: Axios.header_parts
                                               (generateAccessToken issued u)))))
                             (Some (Jwt.Opaque "Bearer" :: Axios.header_parts t))
                      else Axios.Config c
                             (Some (Jwt.Opaque "Bearer"
                                    :: Axios.header_parts (generateAccessToken issued u)))
                  | None => Axios.Config c
                              (Some (Jwt.Opaque "Bearer"
                                     :: Axios.header_parts (generateAccessToken issued u)))
                  end
                  = Axios.Config c
                      (Some [Jwt.Opaque "Bearer"; generateAccessToken issued u])).
  { destruct stored as [t |]; [| reflexivity].
    cbn [Axios.Authorization Axios.no_header]. unfold generateAccessToken, Jwt.sign.
    cbn [Axios.header_parts]. by rewrite andb_false_r. }
  cbn zeta. rewrite Hsent. cbn [Axios.Authorization].
  unfold handler_user_me, getUserFromReq, bearer. cbn [method authorization].
  rewrite !bool_decide_true by reflexivity. cbn [negb].
  assert (Ht : truthy (generateAccessToken issued u) = true) by reflexivity.
  rewrite Ht. cbn [negb].
  by rewrite (access_token_expired issued now u Hexp).
Qed.

End ExpiryFacts.

(** C4. One expiry event, three refresh calls.  Three protected calls carry
    the expired access token in their own header.  Whatever [localStorage]
    and the cookies hold by then, each of them is answered 401 every time it
    is sent from the instant the token expires, first and replayed alike:
    the request interceptor leaves the header it finds.  The replay of a queued call is therefore rejected with
    401 while no refresh is in flight, and posts a refresh of its own: the
    three calls lead to three refresh calls, each call is replayed once and
    rejected for good, and none is answered. *)
Theorem refresh_repeats_per_expiry :
  (forall (later : nat) (c : Client.config) (stored cookie : option token),
     answer_status (env := example_env) (901000 + Z.of_nat later) stored cookie
       (protected_call alice_access c) example_db = 401) /\
  let out := Loop.run expired_calls Loop.start in
  List.filter Client.is_refresh out.2
  = [Client.PostRefresh; Client.PostRefresh; Client.PostRefresh] /\
  Client.sent out.2
  = [call2; call3; retried call1; call3; retried call2; retried call3] /\
  out.1 = Loop.start.
Proof.
  split.
  - intros later c stored cookie.
    apply (stale_call_rejected (env := example_env) 1000 (901000 + Z.of_nat later) alice).
    change (1000 / 1000 + ACCESS_TOKEN_EXPIRY) with 901.
    apply Z.div_le_lower_bound; lia.
  - by vm_compute.
Qed.

Lemma loop_refresh_failure_witness :
  let s := (Loop.run [Loop.Rejection (Some 401) call1] Loop.start).1 in
  let stuck :=
    Loop.run [Loop.Rejection (Some 401) refresh_call;
              Loop.Rejection (Some 401) call2;
              Loop.Rejection (Some 401) call3] s in
  stuck.2 = [] /\
  Client.isRefreshing (Loop.coordinator stuck.1) = true /\
  Loop.awaiting stuck.1 = Loop.awaiting s /\
  exists more,
    Client.refreshSubscribers (Loop.coordinator stuck.1)
    = Client.refreshSubscribers (Loop.coordinator s) ++ refresh_call :: more.
Proof.
  apply (proj2 (proj2 (loop_refresh_failure []
                         [Loop.Rejection (Some 401) call2; Loop.Rejection (Some 401) call3]))
           (Loop.run [Loop.Rejection (Some 401) call1] Loop.start).1 refresh_call);
    reflexivity.
Defined.
